(** * Drone-mission media import

    A shallow embedding of [importa_foto_postgis_v6_Vid_Print_1Tab.py]:
    the two GPS extractors (EXIF photo tags, ffprobe location tag), the
    mission lookup, the directory walk, the bulk insert into
    [drone_mission] and the loop over the mission folders.

    The script is embedded twice.

    The first embedding runs it where nothing around it goes wrong:
    [print] writes every message, the connection is established, the
    server takes every statement, and names and tags are ASCII text.
    - [str] is [string]; [lower], [startswith] and [endswith] act on the
      ASCII letters, and [\d] is the ASCII digit class.
    - [float] is the binary64 type [PrimFloat.float]; [int] is [Z].
    - Exceptions are values of [exn]; code that may raise lives in the
      monad [M], which threads the database and a log of the effects
      (prints, files opened, processes spawned, SQL statements).
    - The folder tree is an inductive [node]; a file carries what the
      two libraries answer when the script hands them that file.
    It carries the statements on what the script computes and on the
    order of its effects.

    The second embedding, the module [Real], takes these assumptions
    away: strings are lists of code points, with the decimal digits and
    the lower-casing of Unicode; [print] can raise; the server and
    psycopg2 can refuse a statement; what is committed is kept apart
    from what the connection has written; the ids come from a 32-bit
    sequence; a folder can be a symbolic link or unreadable.  It carries
    the statements on what the script never does, on how it ends and on
    what it leaves in the database.

    [except Exception] is modelled for the exceptions listed in [exn]. *)

From Stdlib Require Import ZArith List String Ascii Bool Lia.
From Stdlib Require Import PrimFloat SpecFloat FloatOps.
Import ListNotations.
Local Open Scope string_scope.
Set Warnings "-register-all,-inexact-float".

(* ================================================================== *)
(** * Exceptions and outcomes *)

Inductive exn : Type :=
| OSError
| ExifError
| AttributeError (name : string)
| IndexError
| KeyError (key : string)
| TypeError
| JSONDecodeError
| ValueError (msg : string)
| ProgrammingError (msg : string).

Inductive outcome (A : Type) : Type :=
| Ok (a : A)
| Raise (e : exn).
Arguments Ok {A} a.
Arguments Raise {A} e.

(* ================================================================== *)
(** * Python built-ins used by the script *)

Module Py.

Definition lower_char (c : ascii) : ascii :=
  let n := nat_of_ascii c in
  if ((65 <=? n) && (n <=? 90))%nat then ascii_of_nat (n + 32) else c.

(** [str.lower] *)
Fixpoint lower (s : string) : string :=
  match s with
  | EmptyString => EmptyString
  | String c r => String (lower_char c) (lower r)
  end.

(** [str.endswith] with one suffix *)
Fixpoint endswith (s suffix : string) : bool :=
  if String.eqb s suffix then true
  else match s with
       | EmptyString => false
       | String _ r => endswith r suffix
       end.

(** [str.endswith] with a tuple of suffixes *)
Definition endswith_any (s : string) (suffixes : list string) : bool :=
  existsb (endswith s) suffixes.

(** [str.startswith] *)
Definition startswith (s pre : string) : bool := String.prefix pre s.

(** [sub in s] on two strings *)
Fixpoint contains_str (sub s : string) : bool :=
  if String.prefix sub s then true
  else match s with
       | EmptyString => false
       | String _ r => contains_str sub r
       end.

(** [os.path.join] of two components, with the POSIX separator. *)
Definition join (a b : string) : string :=
  if String.prefix "/" b then b
  else if String.eqb a "" || endswith a "/" then a ++ b
  else a ++ "/" ++ b.

Definition is_digit (c : ascii) : bool :=
  let n := nat_of_ascii c in ((48 <=? n) && (n <=? 57))%nat.

Definition is_sign (c : ascii) : bool :=
  Ascii.eqb c "+" || Ascii.eqb c "-".

Definition is_dot (c : ascii) : bool := Ascii.eqb c ".".

Fixpoint all_digits (s : string) : bool :=
  match s with
  | EmptyString => true
  | String c r => is_digit c && all_digits r
  end.

Fixpoint span_digits (s : string) : string * string :=
  match s with
  | EmptyString => (EmptyString, EmptyString)
  | String c r =>
      if is_digit c
      then let '(d, t) := span_digits r in (String c d, t)
      else (EmptyString, s)
  end.

Fixpoint digits_value (acc : Z) (s : string) : Z :=
  match s with
  | EmptyString => acc
  | String c r =>
      digits_value (10 * acc + Z.of_nat (nat_of_ascii c - 48)) r
  end.

(** The binary64 number nearest to [ip.fp] (ties to even), with the
    sign [neg]: the quotient of the digits read as an integer by the
    power of ten, rounded once. *)
Definition decimal_to_float (neg : bool) (ip fp : string) : float :=
  match digits_value 0 (ip ++ fp) with
  | Zpos n =>
      SF2Prim (SFdiv prec emax
                 (S754_finite neg n 0)
                 (S754_finite false (Z.to_pos (10 ^ Z.of_nat (String.length fp))) 0))
  | _ => SF2Prim (S754_zero neg)
  end.

(** [float(s)] on the decimal literals without exponent: an optional
    sign, digits, and optionally a point and digits, with a digit on
    one side at least.  The other spellings that [float] reads
    (exponents, [inf], [nan], blanks, underscores) raise here; the
    script only converts text matched by its pattern. *)
Definition float (s : string) : outcome PrimFloat.float :=
  let '(neg, body) :=
    match s with
    | String "+" r => (false, r)
    | String "-" r => (true, r)
    | _ => (false, s)
    end in
  let '(ip, t) := span_digits body in
  match t with
  | EmptyString =>
      if String.eqb ip "" then Raise (ValueError s)
      else Ok (decimal_to_float neg ip "")
  | String "." fp =>
      if all_digits fp && negb (String.eqb ip "" && String.eqb fp "")
      then Ok (decimal_to_float neg ip fp)
      else Raise (ValueError s)
  | _ => Raise (ValueError s)
  end.

(** [float(i)] on an [int] *)
Definition float_of_int (z : Z) : PrimFloat.float :=
  SF2Prim (binary_normalize prec emax z 0 false).

End Py.

(* ================================================================== *)
(** * The fragment of [re] that the location pattern needs *)

Module Re.

(** [Class p] is one character of a class ([[+-]], [\.]); [Plus p] is
    [p+], greedy; [Cat] is juxtaposition; [Group] is a capturing
    pair of parentheses. *)
Inductive regex : Type :=
| Class (p : ascii -> bool)
| Plus (p : ascii -> bool)
| Cat (r1 r2 : regex)
| Group (r : regex).

(** One way of matching a prefix of the subject: the text consumed,
    the groups closed so far (in the order of their opening
    parentheses) and the text that is left. *)
Record partial : Type := mkPartial {
  consumed : string;
  groups : list string;
  rest : string
}.

(** The ways [p+] can match at the start of [s], longest first. *)
Fixpoint plus_splits (p : ascii -> bool) (s : string) : list (string * string) :=
  match s with
  | EmptyString => []
  | String c r =>
      if p c
      then (map (fun ab => (String c (fst ab), snd ab)) (plus_splits p r)
              ++ [(String c EmptyString, r)])%list
      else []
  end.

(** All the ways [r] can match at the start of [s], in the order in
    which a backtracking matcher tries them. *)
Fixpoint candidates (r : regex) (s : string) : list partial :=
  match r with
  | Class p =>
      match s with
      | String c t => if p c then [mkPartial (String c EmptyString) [] t] else []
      | EmptyString => []
      end
  | Plus p => map (fun ab => mkPartial (fst ab) [] (snd ab)) (plus_splits p s)
  | Cat r1 r2 =>
      flat_map
        (fun m1 =>
           map (fun m2 => mkPartial (consumed m1 ++ consumed m2)
                                    (groups m1 ++ groups m2)
                                    (rest m2))
               (candidates r2 (rest m1)))
        (candidates r1 s)
  | Group r =>
      map (fun m => mkPartial (consumed m) (consumed m :: groups m) (rest m))
          (candidates r s)
  end.

(** [re.match(r, s)]: the first candidate, as the list
    [group(0); group(1); ...], or [None]. *)
Definition match_ (r : regex) (s : string) : option (list string) :=
  match candidates r s with
  | [] => None
  | m :: _ => Some (consumed m :: groups m)
  end.

(** [[+-]\d+\.\d+] *)
Definition signed_decimal : regex :=
  Cat (Class Py.is_sign)
      (Cat (Plus Py.is_digit) (Cat (Class Py.is_dot) (Plus Py.is_digit))).

(** [r'([+-]\d+\.\d+)([+-]\d+\.\d+)'] *)
Definition location_pattern : regex :=
  Cat (Group signed_decimal) (Group signed_decimal).

End Re.

(* ================================================================== *)
(** * Values handed over by the libraries *)

(** What [json.loads] returns. An object is the list of its items; a
    key is looked up from the front. *)
Inductive json : Type :=
| JNull
| JBool (b : bool)
| JInt (z : Z)
| JFloat (x : float)
| JString (s : string)
| JArray (items : list json)
| JObject (items : list (string * json)).

(** The attributes of an [exif.Image] that the script reads; [None] is
    an attribute the image does not have. *)
Record Image : Type := mkImage {
  has_exif : bool;
  gps_latitude : option (list float);
  gps_longitude : option (list float);
  gps_altitude : option float;
  gps_latitude_ref : option string;
  gps_longitude_ref : option string
}.

(** What the outside world answers for one file: the result of opening
    it and parsing it with [exif.Image], and the result of running
    [ffprobe] on it and parsing its standard output with [json.loads]
    (a [Raise] is a process that cannot be started or an output that is
    not JSON). *)
Record file_content : Type := mkFile {
  image : outcome Image;
  ffprobe_json : outcome json
}.

(** A folder tree; [os.listdir] lists the entries in their order. *)
Inductive node : Type :=
| File (f : file_content)
| Dir (entries : list (string * node)).

(** The tuple [(lat, lon, alt)] returned by the extractors. *)
Definition gps : Type := (float * float * option float)%type.

(* ================================================================== *)
(** * The database *)

(** [SRID=4326;POINT(lon lat)] *)
Record point : Type := mkPoint {
  srid : Z;
  point_x : float;
  point_y : float
}.

Record row : Type := mkRow {
  id : Z;
  full_path : string;
  file_name : string;
  media_type : string;
  altitude : option float;
  geom : point;
  mission_id : Z
}.

(** The table [drone_mission] with the sequence behind its [SERIAL]
    column. *)
Record table : Type := mkTable {
  rows : list row;
  next_id : Z
}.

(** [missoes] holds the pairs (id, nome); [drone_mission] is [None]
    until it is created. *)
Record database : Type := mkDatabase {
  missoes : list (Z * string);
  drone_mission : option table
}.

(** One tuple of the [VALUES] list: all columns but [id]. *)
Record values : Type := mkValues {
  v_full_path : string;
  v_file_name : string;
  v_media_type : string;
  v_altitude : option float;
  v_geom : point;
  v_mission_id : Z
}.

(** One element of [data]. *)
Record media : Type := mkMedia {
  m_full_path : string;
  m_file : string;
  m_media_type : string;
  m_lat : float;
  m_lon : float;
  m_alt : option float;
  m_mission_id : Z
}.

Definition path_taken (t : table) (p : string) : bool :=
  existsb (fun r => String.eqb (full_path r) p) (rows t).

(** One proposed row of [INSERT ... ON CONFLICT (full_path) DO NOTHING]:
    the default of [id] is drawn from the sequence first, then the row
    is added unless its path is in the table. *)
Definition insert_one (t : table) (v : values) : table :=
  let i := next_id t in
  {| rows :=
       if path_taken t (v_full_path v) then rows t
       else (rows t ++ [ {| id := i;
                           full_path := v_full_path v;
                           file_name := v_file_name v;
                           media_type := v_media_type v;
                           altitude := v_altitude v;
                           geom := v_geom v;
                           mission_id := v_mission_id v |} ])%list;
     next_id := i + 1 |}.

Definition insert_on_conflict_do_nothing (t : table) (vs : list values) : table :=
  fold_left insert_one vs t.

(** [SELECT id FROM missoes WHERE nome = %s] followed by [fetchone]. *)
Definition select_mission_id (d : database) (nome : string) : option Z :=
  match find (fun r => String.eqb (snd r) nome) (missoes d) with
  | Some r => Some (fst r)
  | None => None
  end.

(* ================================================================== *)
(** * Effects *)

Inductive message : Type :=
| MsgConnected
| MsgPhotoExtracted (path : string) (lat lon : float) (alt : option float)
| MsgNoGpsPhoto (path : string)
| MsgPhotoError (path : string) (e : exn)
| MsgVideoExtracted (path : string) (lat lon : float) (alt : option float)
| MsgNoGpsVideo (path : string)
| MsgVideoError (path : string) (e : exn)
| MsgTableReady
| MsgProcessingMission (mission : string)
| MsgProcessed (mission : string) (files_added : nat)
| MsgComplete.

Inductive statement : Type :=
| SqlCreateTable
| SqlSelectMission (nome : string)
| SqlInsert (vs : list values).

Inductive event : Type :=
| EvPrint (m : message)
| EvOpen (path : string)
| EvSpawn (path : string)
| EvExecute (s : statement)
| EvCommit
| EvClose.

(** The state the script acts on: the database behind the connection
    and the effects so far, oldest first.  A statement takes effect when
    it is executed; the script commits right after each statement that
    writes, so the committed state is the same at every point where the
    run can stop. *)
Record world : Type := mkWorld {
  db : database;
  log : list event
}.

Definition M (A : Type) : Type := world -> outcome A * world.

Definition ret {A} (a : A) : M A := fun w => (Ok a, w).

Definition bind {A B} (c : M A) (k : A -> M B) : M B :=
  fun w =>
    match c w with
    | (Ok a, w') => k a w'
    | (Raise e, w') => (Raise e, w')
    end.

Definition raise {A} (e : exn) : M A := fun w => (Raise e, w).

(** [try: c  except Exception as e: h e] *)
Definition try_except {A} (c : M A) (h : exn -> M A) : M A :=
  fun w =>
    match c w with
    | (Ok a, w') => (Ok a, w')
    | (Raise e, w') => h e w'
    end.

Definition emit (e : event) : M unit :=
  fun w => (Ok tt, {| db := db w; log := (log w ++ [e])%list |}).

Definition get_db : M database := fun w => (Ok (db w), w).

Definition put_db (d : database) : M unit :=
  fun w => (Ok tt, {| db := d; log := log w |}).

Definition lift {A} (o : outcome A) : M A := fun w => (o, w).

Declare Scope py_scope.
Delimit Scope py_scope with py.
Notation "x <- c ;; k" := (bind c (fun x => k))
  (at level 61, c at next level, right associativity) : py_scope.
Notation "c ;; k" := (bind c (fun _ => k))
  (at level 61, right associativity) : py_scope.
Local Open Scope py_scope.

Definition print (m : message) : M unit := emit (EvPrint m).

(** [for x in l: s = body x s] *)
Fixpoint for_ {A S} (l : list A) (body : A -> S -> M S) (s : S) : M S :=
  match l with
  | [] => ret s
  | x :: l' => s' <- body x s ;; for_ l' body s'
  end.

(* ================================================================== *)
(** * Operations on the library values *)

(** [hasattr(img, name)] *)
Definition hasattr {A} (v : option A) : bool :=
  match v with Some _ => true | None => false end.

(** [img.name] *)
Definition getattr {A} (name : string) (v : option A) : M A :=
  match v with
  | Some a => ret a
  | None => raise (AttributeError name)
  end.

(** [t[i]] on a tuple *)
Definition tuple_item (t : list float) (i : nat) : M float :=
  match nth_error t i with
  | Some x => ret x
  | None => raise IndexError
  end.

Fixpoint assoc (k : string) (items : list (string * json)) : option json :=
  match items with
  | [] => None
  | (k', v) :: r => if String.eqb k' k then Some v else assoc k r
  end.

(** [v[k]] with a [str] key *)
Definition getitem (v : json) (k : string) : M json :=
  match v with
  | JObject items =>
      match assoc k items with
      | Some x => ret x
      | None => raise (KeyError k)
      end
  | _ => raise TypeError
  end.

(** [k in v] with a [str] on the left *)
Definition contains (k : string) (v : json) : M bool :=
  match v with
  | JObject items => ret (hasattr (assoc k items))
  | JArray items =>
      ret (existsb (fun x => match x with
                             | JString s => String.eqb s k
                             | _ => false
                             end) items)
  | JString s => ret (Py.contains_str k s)
  | _ => raise TypeError
  end.

(** [re.match(pattern, v)] *)
Definition re_match (r : Re.regex) (v : json) : M (option (list string)) :=
  match v with
  | JString s => ret (Re.match_ r s)
  | _ => raise TypeError
  end.

(** [match.group(i)] *)
Definition group (m : list string) (i : nat) : M string :=
  match nth_error m i with
  | Some g => ret g
  | None => raise IndexError
  end.

(** [Image(open(photo_path, 'rb'))] *)
Definition open_image (photo_path : string) (f : file_content) : M Image :=
  emit (EvOpen photo_path) ;; lift (image f).

(** [json.loads(subprocess.run(['ffprobe', ...]).stdout)] *)
Definition run_ffprobe (video_path : string) (f : file_content) : M json :=
  emit (EvSpawn video_path) ;; lift (ffprobe_json f).

(** [sign * (t[0] + t[1] / 60 + t[2] / 3600)] *)
Definition to_decimal (sign : Z) (t : list float) : M float :=
  t0 <- tuple_item t 0 ;;
  t1 <- tuple_item t 1 ;;
  t2 <- tuple_item t 2 ;;
  ret (Py.float_of_int sign
       * (t0 + t1 / Py.float_of_int 60 + t2 / Py.float_of_int 3600))%float.

(* ================================================================== *)
(** * The extractors *)

Definition extract_gps_metadata_from_photo
    (photo_path : string) (f : file_content) : M (option gps) :=
  try_except
    (img <- open_image photo_path f ;;
     if has_exif img && hasattr (gps_latitude img) && hasattr (gps_longitude img)
     then
       lat <- getattr "gps_latitude" (gps_latitude img) ;;
       lon <- getattr "gps_longitude" (gps_longitude img) ;;
       let alt := gps_altitude img in
       lat_ref <- getattr "gps_latitude_ref" (gps_latitude_ref img) ;;
       let lat_sign := if String.eqb lat_ref "N" then 1%Z else (-1)%Z in
       lon_ref <- getattr "gps_longitude_ref" (gps_longitude_ref img) ;;
       let lon_sign := if String.eqb lon_ref "E" then 1%Z else (-1)%Z in
       lat_dec <- to_decimal lat_sign lat ;;
       lon_dec <- to_decimal lon_sign lon ;;
       print (MsgPhotoExtracted photo_path lat_dec lon_dec alt) ;;
       ret (Some (lat_dec, lon_dec, alt))
     else
       print (MsgNoGpsPhoto photo_path) ;;
       ret None)
    (fun e =>
       print (MsgPhotoError photo_path e) ;;
       ret None).

Definition extract_gps_metadata_from_video
    (video_path : string) (f : file_content) : M (option gps) :=
  let no_data := (print (MsgNoGpsVideo video_path) ;; ret None) in
  try_except
    (metadata <- run_ffprobe video_path f ;;
     format <- getitem metadata "format" ;;
     has_tags <- contains "tags" format ;;
     if has_tags : bool then
       format <- getitem metadata "format" ;;
       tags <- getitem format "tags" ;;
       has_location <- contains "location" tags ;;
       if has_location : bool then
         location <- getitem tags "location" ;;
         m <- re_match Re.location_pattern location ;;
         match m with
         | Some mo =>
             g1 <- group mo 1 ;;
             lat <- lift (Py.float g1) ;;
             g2 <- group mo 2 ;;
             lon <- lift (Py.float g2) ;;
             let alt := @None float in
             print (MsgVideoExtracted video_path lat lon alt) ;;
             ret (Some (lat, lon, alt))
         | None => no_data
         end
       else no_data
     else no_data)
    (fun e =>
       print (MsgVideoError video_path e) ;;
       ret None).

(* ================================================================== *)
(** * The statements *)

(** [CREATE TABLE IF NOT EXISTS drone_mission (...)] and [commit] *)
Definition create_drone_mission_table : M unit :=
  emit (EvExecute SqlCreateTable) ;;
  d <- get_db ;;
  match drone_mission d with
  | Some _ => ret tt
  | None => put_db {| missoes := missoes d;
                      drone_mission := Some {| rows := []; next_id := 1 |} |}
  end ;;
  emit EvCommit ;;
  print MsgTableReady.

Definition execute_select (mission_name : string) : M (option Z) :=
  emit (EvExecute (SqlSelectMission mission_name)) ;;
  d <- get_db ;;
  ret (select_mission_id d mission_name).

Definition execute_insert (vs : list values) : M unit :=
  emit (EvExecute (SqlInsert vs)) ;;
  d <- get_db ;;
  match drone_mission d with
  | Some t =>
      put_db {| missoes := missoes d;
                drone_mission := Some (insert_on_conflict_do_nothing t vs) |}
  | None => raise (ProgrammingError "relation drone_mission does not exist")
  end.

Fixpoint paginate_fuel {A} (fuel page_size : nat) (l : list A) : list (list A) :=
  match fuel with
  | O => []
  | S fuel' =>
      match l with
      | [] => []
      | _ => firstn page_size l :: paginate_fuel fuel' page_size (skipn page_size l)
      end
  end.

(** The pages of [execute_values]: slices of [page_size] items, the last
    one shorter. *)
Definition paginate {A} (page_size : nat) (l : list A) : list (list A) :=
  paginate_fuel (List.length l) page_size l.

(** [psycopg2.extras.execute_values] with its default [page_size=100]:
    one statement per page. *)
Definition execute_values (vs : list values) : M unit :=
  for_ (paginate 100 vs) (fun page _ => execute_insert page) tt.

Definition to_values (m : media) : values :=
  {| v_full_path := m_full_path m;
     v_file_name := m_file m;
     v_media_type := m_media_type m;
     v_altitude := m_alt m;
     v_geom := {| srid := 4326; point_x := m_lon m; point_y := m_lat m |};
     v_mission_id := m_mission_id m |}.

(* ================================================================== *)
(** * The walk over a mission folder *)

Definition subdirs (entries : list (string * node)) : list string :=
  flat_map (fun e => match snd e with Dir _ => [fst e] | File _ => [] end) entries.

Definition plain_files (entries : list (string * node)) : list (string * file_content) :=
  flat_map (fun e => match snd e with File f => [(fst e, f)] | Dir _ => [] end) entries.

(** [os.walk(top)], top-down: the triple of a folder, then the walks of
    its sub-folders. A file name comes with the content of the file. *)
Fixpoint walk (top : string) (n : node)
  : list (string * list string * list (string * file_content)) :=
  match n with
  | File _ => []
  | Dir entries =>
      (top, subdirs entries, plain_files entries)
      :: (fix walk_entries (es : list (string * node)) :=
            match es with
            | [] => []
            | (name, child) :: es' =>
                (match child with
                 | Dir _ => walk (Py.join top name) child
                 | File _ => []
                 end ++ walk_entries es')%list
            end) entries
  end.

Definition photo_suffixes : list string := [".jpg"; ".jpeg"; ".png"].
Definition video_suffixes : list string := [".mp4"; ".mov"; ".avi"; ".mkv"].

(** The body of the inner loop of [process_mission_media]. *)
Definition process_file (mission_id : Z) (root : string)
    (file : string * file_content) (data : list media) : M (list media) :=
  let '(name, content) := file in
  let full_path := Py.join root name in
  if Py.endswith_any (Py.lower name) photo_suffixes then
    metadata <- extract_gps_metadata_from_photo full_path content ;;
    match metadata with
    | Some (lat, lon, alt) =>
        ret (data ++ [mkMedia full_path name "photo" lat lon alt mission_id])%list
    | None => ret data
    end
  else if Py.endswith_any (Py.lower name) video_suffixes then
    metadata <- extract_gps_metadata_from_video full_path content ;;
    match metadata with
    | Some (lat, lon, alt) =>
        ret (data ++ [mkMedia full_path name "video" lat lon alt mission_id])%list
    | None => ret data
    end
  else ret data.

(** Step 2 of [process_mission_media]. *)
Definition collect_media (mission_id : Z) (mission_path : string)
    (mission_dir : node) : M (list media) :=
  for_ (walk mission_path mission_dir)
       (fun '(root, _, files) data =>
          for_ files (process_file mission_id root) data)
       [].

(* ================================================================== *)
(** * The pipeline *)

Definition not_found_message (mission_name : string) : string :=
  "Mission '" ++ mission_name ++ "' not found in the `missoes` table.".

Definition process_mission_media
    (mission_name mission_path : string) (mission_dir : node) : M unit :=
  found <- execute_select mission_name ;;
  mission_id <- match found with
                | None => raise (ValueError (not_found_message mission_name))
                | Some i => ret i
                end ;;
  data <- collect_media mission_id mission_path mission_dir ;;
  match data with
  | _ :: _ =>
      execute_values (map to_values data) ;;
      emit EvCommit
  | [] => ret tt
  end ;;
  print (MsgProcessed mission_name (List.length data)).

(** [psycopg2.connect]: the connection is taken to succeed. *)
Definition connect_to_postgis : M unit := print MsgConnected.

(** [os.path.isdir] on an entry of the listing *)
Definition isdir (n : node) : bool :=
  match n with Dir _ => true | File _ => false end.

(** [os.listdir] *)
Definition listdir (n : node) : M (list (string * node)) :=
  match n with
  | Dir entries => ret entries
  | File _ => raise OSError
  end.

(** The body of the loop of [process_all]. *)
Definition process_entry (base_folder : string) (entry : string * node) : M unit :=
  let '(mission, child) := entry in
  let mission_path := Py.join base_folder mission in
  if isdir child && Py.startswith mission "Mission" then
    print (MsgProcessingMission mission) ;;
    process_mission_media mission mission_path child
  else ret tt.

Definition process_all (base_folder : string) (base : node) : M unit :=
  connect_to_postgis ;;
  create_drone_mission_table ;;
  entries <- listdir base ;;
  for_ entries (fun entry _ => process_entry base_folder entry) tt ;;
  emit EvClose ;;
  print MsgComplete.

(* ================================================================== *)
(** * Vocabulary of the statements *)

(** The text after the last point of a name, if it has a point. *)
Fixpoint extension (s : string) : option string :=
  match s with
  | EmptyString => None
  | String c r =>
      match extension r with
      | Some e => Some e
      | None => if Ascii.eqb c "." then Some r else None
      end
  end.

Inductive media_class : Type := Photo | Video | Ignored.

Definition photo_extensions : list string := ["jpg"; "jpeg"; "png"].
Definition video_extensions : list string := ["mp4"; "mov"; "avi"; "mkv"].

Definition mem (e : string) (l : list string) : bool :=
  existsb (String.eqb e) l.

(** The class of a file by its lower-cased extension. *)
Definition classify (file : string) : media_class :=
  match extension (Py.lower file) with
  | Some e =>
      if mem e photo_extensions then Photo
      else if mem e video_extensions then Video
      else Ignored
  | None => Ignored
  end.

(** A sign, one or more digits, a point, one or more digits. *)
Definition signed_decimal_text (s : string) : Prop :=
  exists c ip fp,
    s = String c (ip ++ String "." fp)
    /\ Py.is_sign c = true
    /\ ip <> "" /\ Py.all_digits ip = true
    /\ fp <> "" /\ Py.all_digits fp = true.

(** The next character, if any, is not a digit. *)
Definition no_digit_ahead (t : string) : bool :=
  match t with
  | EmptyString => true
  | String c _ => negb (Py.is_digit c)
  end.

Fixpoint all_in (p : ascii -> bool) (s : string) : bool :=
  match s with
  | EmptyString => true
  | String c r => p c && all_in p r
  end.

(** The words a pattern denotes. *)
Inductive denotes : Re.regex -> string -> Prop :=
| DClass p c : p c = true -> denotes (Re.Class p) (String c "")
| DPlus p s : s <> "" -> all_in p s = true -> denotes (Re.Plus p) s
| DCat r1 r2 s1 s2 :
    denotes r1 s1 -> denotes r2 s2 -> denotes (Re.Cat r1 r2) (s1 ++ s2)
| DGroup r s : denotes r s -> denotes (Re.Group r) s.

(** A pattern without capturing parentheses. *)
Fixpoint group_free (r : Re.regex) : bool :=
  match r with
  | Re.Class _ | Re.Plus _ => true
  | Re.Cat r1 r2 => group_free r1 && group_free r2
  | Re.Group _ => false
  end.

(** The output of ffprobe is an object whose [format.tags.location] is
    the string [tag]. *)
Definition has_location_tag (f : file_content) (tag : string) : Prop :=
  exists items fitems titems,
    ffprobe_json f = Ok (JObject items)
    /\ assoc "format" items = Some (JObject fitems)
    /\ assoc "tags" fitems = Some (JObject titems)
    /\ assoc "location" titems = Some (JString tag).

(** Effects of the extractors: prints, files opened, processes spawned. *)
Definition is_local (e : event) : bool :=
  match e with
  | EvPrint _ | EvOpen _ | EvSpawn _ => true
  | _ => false
  end.


Definition after (w : world) (evs : list event) : world :=
  {| db := db w; log := (log w ++ evs)%list |}.

(** A computation that leaves the database alone and whose result and
    effects do not depend on the state it starts from. *)
Definition oblivious {A} (c : M A) : Prop :=
  exists o evs, forallb is_local evs = true /\ forall w, c w = (o, after w evs).

(** The same, and it does not raise. *)
Definition safe {A} (c : M A) : Prop :=
  exists a evs, forallb is_local evs = true /\ forall w, c w = (Ok a, after w evs).



Definition empty_world : world :=
  {| db := {| missoes := []; drone_mission := None |}; log := [] |}.

(** The records and the effects of the walk over a mission folder. *)
Definition mission_data (mission_id : Z) (mission_path : string) (mission_dir : node)
  : list media :=
  match fst (collect_media mission_id mission_path mission_dir empty_world) with
  | Ok data => data
  | Raise _ => []
  end.

Definition mission_events (mission_id : Z) (mission_path : string) (mission_dir : node)
  : list event :=
  log (snd (collect_media mission_id mission_path mission_dir empty_world)).

(** The entries that [process_all] hands to [process_mission_media]. *)
Definition is_mission_folder (entry : string * node) : bool :=
  match snd entry with
  | Dir _ => String.prefix "Mission" (fst entry)
  | File _ => false
  end.

Definition table_rows (d : database) : list row :=
  match drone_mission d with
  | Some t => rows t
  | None => []
  end.

(** The loop of [process_all]. *)
Definition mission_loop (base_folder : string) (entries : list (string * node)) : M unit :=
  for_ entries (fun entry _ => process_entry base_folder entry) tt.

(** The table after [CREATE TABLE IF NOT EXISTS]. *)
Definition table_or_fresh (d : database) : table :=
  match drone_mission d with
  | Some t => t
  | None => {| rows := []; next_id := 1 |}
  end.

Definition with_table (d : database) (t : table) : database :=
  {| missoes := missoes d; drone_mission := Some t |}.

(** The state in which the loop of [process_all] starts. *)
Definition connected (w : world) : world :=
  {| db := with_table (db w) (table_or_fresh (db w));
     log := (log w ++ [EvPrint MsgConnected; EvExecute SqlCreateTable;
                       EvCommit; EvPrint MsgTableReady])%list |}.

(** What one entry of the base folder contributes: how its processing
    ends and the records it hands to the insert. *)
Definition entry_plan (base_folder : string) (d : database) (entry : string * node)
  : outcome unit * list media :=
  if is_mission_folder entry then
    match select_mission_id d (fst entry) with
    | None => (Raise (ValueError (not_found_message (fst entry))), [])
    | Some i => (Ok tt, mission_data i (Py.join base_folder (fst entry)) (snd entry))
    end
  else (Ok tt, []).

(** The same for the whole listing, up to the first entry that raises. *)
Fixpoint loop_plan (base_folder : string) (d : database)
    (entries : list (string * node)) : outcome unit * list media :=
  match entries with
  | [] => (Ok tt, [])
  | e :: es =>
      match entry_plan base_folder d e with
      | (Ok _, data) =>
          let '(o, more) := loop_plan base_folder d es in (o, (data ++ more)%list)
      | (Raise x, data) => (Raise x, data)
      end
  end.

(** The statements of step 3 of [process_mission_media]. *)
Definition insert_events (data : list media) : list event :=
  match data with
  | [] => []
  | _ :: _ =>
      (map (fun page => EvExecute (SqlInsert page))
           (paginate 100 (map to_values data))
       ++ [EvCommit])%list
  end.

(** The effects of [process_mission_media] on a mission that is found. *)
Definition found_log (mission_name : string) (i : Z) (mission_path : string)
    (mission_dir : node) : list event :=
  (EvExecute (SqlSelectMission mission_name)
   :: mission_events i mission_path mission_dir
   ++ insert_events (mission_data i mission_path mission_dir)
   ++ [EvPrint (MsgProcessed mission_name
                  (List.length (mission_data i mission_path mission_dir)))])%list.

(* ================================================================== *)
(** * Sample inputs *)

Definition sample_image : Image :=
  {| has_exif := true;
     gps_latitude := Some [36%float; 3%float; 11.08%float];
     gps_longitude := Some [8%float; 30%float; 0%float];
     gps_altitude := Some 120.5%float;
     gps_latitude_ref := Some "N";
     gps_longitude_ref := Some "W" |}.

Definition sample_photo : file_content :=
  {| image := Ok sample_image; ffprobe_json := Raise OSError |}.

Definition ffprobe_output (tag : string) : json :=
  JObject [("format",
            JObject [("filename", JString "clip.mp4");
                     ("tags", JObject [("creation_time", JString "2023-05-01");
                                       ("location", JString tag)])])].

Definition sample_video (tag : string) : file_content :=
  {| image := Raise ExifError; ffprobe_json := Ok (ffprobe_output tag) |}.

Definition unreadable_file : file_content :=
  {| image := Raise OSError; ffprobe_json := Raise JSONDecodeError |}.

Definition sample_mission : node :=
  Dir [("DJI_0001.JPG", File sample_photo);
       ("clips", Dir [("DJI_0002.mp4", File (sample_video "+40.1234-008.5678"))]);
       ("notes.txt", File (sample_video "+40.1234-008.5678"))].

Definition sample_base : node :=
  Dir [("Mission1", sample_mission);
       ("Backup", Dir [("DJI_0003.jpg", File sample_photo)]);
       ("Mission.txt", File sample_photo);
       ("Mission2", Dir [("DJI_0004.png", File sample_photo)])].


Definition sample_world : world :=
  {| db := {| missoes := [(7, "Mission1"); (9, "Mission2")]%Z;
              drone_mission := None |};
     log := [] |}.

Definition world_without_missions : world :=
  {| db := {| missoes := []; drone_mission := None |}; log := [] |}.

(* ================================================================== *)
(** * The connection, from the configuration file *)

Module Config.

(** The keyword arguments of [psycopg2.connect]. *)
Record params : Type := mkParams {
  p_host : json;
  p_port : json;
  p_database : json;
  p_user : json;
  p_password : json
}.

(** [connect_to_postgis(config_path)]: [config_file] is what opening
    the file and [json.load] give, [server] what [psycopg2.connect]
    answers to the five arguments.  The arguments are read off the
    configuration from left to right before the call. *)
Definition connect_to_postgis
    (config_file : outcome json) (server : params -> outcome unit) : M unit :=
  config <- lift config_file ;;
  host <- getitem config "host" ;;
  port <- getitem config "port" ;;
  database <- getitem config "database" ;;
  user <- getitem config "user" ;;
  password <- getitem config "password" ;;
  lift (server (mkParams host port database user password)) ;;
  print MsgConnected.

(** [process_all(base_folder, config_path)] with the connection made
    from the configuration. *)
Definition process_all (base_folder : string) (base : node)
    (config_file : outcome json) (server : params -> outcome unit) : M unit :=
  connect_to_postgis config_file server ;;
  create_drone_mission_table ;;
  entries <- listdir base ;;
  for_ entries (fun entry _ => process_entry base_folder entry) tt ;;
  emit EvClose ;;
  print MsgComplete.

End Config.

(* ================================================================== *)
(** * Vocabulary of the further statements *)

(** The first of the five keys that the configuration lacks. *)
Fixpoint first_missing (keys : list string) (items : list (string * json))
  : option string :=
  match keys with
  | [] => None
  | k :: ks =>
      match assoc k items with
      | None => Some k
      | Some _ => first_missing ks items
      end
  end.

Definition config_keys : list string :=
  ["host"; "port"; "database"; "user"; "password"].

(** The effects of one entry of the base folder. *)
Definition entry_log (base_folder : string) (d : database) (entry : string * node)
  : list event :=
  if is_mission_folder entry then
    EvPrint (MsgProcessingMission (fst entry))
    :: match select_mission_id d (fst entry) with
       | None => [EvExecute (SqlSelectMission (fst entry))]
       | Some i =>
           found_log (fst entry) i (Py.join base_folder (fst entry)) (snd entry)
       end
  else [].

(** The effects of the loop of [process_all], up to the first entry
    that raises. *)
Fixpoint loop_log (base_folder : string) (d : database)
    (entries : list (string * node)) : list event :=
  match entries with
  | [] => []
  | e :: es =>
      (entry_log base_folder d e
       ++ match fst (entry_plan base_folder d e) with
          | Ok _ => loop_log base_folder d es
          | Raise _ => []
          end)%list
  end.

(** The effects of a run of [process_all] over a folder. *)
Definition run_log (base_folder : string) (d : database)
    (entries : list (string * node)) : list event :=
  ([EvPrint MsgConnected; EvExecute SqlCreateTable; EvCommit; EvPrint MsgTableReady]
   ++ loop_log base_folder d entries
   ++ match fst (loop_plan base_folder d entries) with
      | Ok _ => [EvClose; EvPrint MsgComplete]
      | Raise _ => []
      end)%list.

(** The names looked up in [missoes], in order. *)
Fixpoint lookups (evs : list event) : list string :=
  match evs with
  | [] => []
  | EvExecute (SqlSelectMission n) :: r => n :: lookups r
  | _ :: r => lookups r
  end.

(** The number of times the connection is closed. *)
Fixpoint closes (evs : list event) : nat :=
  match evs with
  | [] => O
  | EvClose :: r => S (closes r)
  | _ :: r => closes r
  end.

(** Whether something written is not committed after [evs], starting
    from [dirty]. *)
Fixpoint pending (dirty : bool) (evs : list event) : bool :=
  match evs with
  | [] => dirty
  | EvCommit :: r => pending false r
  | EvExecute SqlCreateTable :: r => pending true r
  | EvExecute (SqlInsert _) :: r => pending true r
  | _ :: r => pending dirty r
  end.

(** The rows of the statements executed, page after page. *)
Fixpoint inserted_values (evs : list event) : list values :=
  match evs with
  | [] => []
  | EvExecute (SqlInsert vs) :: r => (vs ++ inserted_values r)%list
  | _ :: r => inserted_values r
  end.

Fixpoint insert_pages (evs : list event) : list (list values) :=
  match evs with
  | [] => []
  | EvExecute (SqlInsert vs) :: r => vs :: insert_pages r
  | _ :: r => insert_pages r
  end.

Definition paths (rs : list row) : list string := map full_path rs.


Definition sample_config : list (string * json) :=
  [("host", JString "localhost"); ("port", JInt 5432);
   ("database", JString "sgdb"); ("user", JString "drone");
   ("password", JString "secret"); ("sslmode", JString "prefer")].

Definition config_without_user : list (string * json) :=
  [("host", JString "localhost"); ("port", JInt 5432);
   ("database", JString "sgdb")].

Definition accepting_server (p : Config.params) : outcome unit := Ok tt.


(* ================================================================== *)
(** * The script on a real terminal and a real server

    The definitions above run the script with a terminal that prints
    every message and a server that accepts every statement, on names
    and tags written in ASCII.  The module [Real] is the script again,
    without these assumptions.
    - [str] is the list of the code points of a Python string.
    - A [runtime] holds what the script takes from its surroundings:
      the decimal digits and the lower-casing of the Unicode database
      of the interpreter, the exception, if any, that [print] raises on
      a message, and the exception, if any, with which psycopg2 or the
      server refuses the values of a statement.
    - The server keeps what is committed ([stored]) apart from what the
      connection has written ([session]); the sequence behind [id] is a
      32-bit one and is not part of the transaction.
    - A folder can be a symbolic link and can be unreadable. *)

Module Real.

Definition str : Type := list N.

(** The string of an ASCII literal. *)
Definition lit (x : string) : str := map N_of_ascii (list_ascii_of_string x).

(** [a == b] on strings *)
Fixpoint eqb (a b : str) : bool :=
  match a, b with
  | [], [] => true
  | x :: a', y :: b' => N.eqb x y && eqb a' b'
  | _, _ => false
  end.

Inductive exn : Type :=
| OSError
| ExifError
| AttributeError (name : str)
| IndexError
| KeyError (key : str)
| TypeError
| JSONDecodeError
| ValueError (msg : str)
| UnicodeEncodeError
| ProgrammingError (msg : str)
| DataError (msg : str)
| IntegrityError (msg : str).

Inductive outcome (A : Type) : Type :=
| Ok (a : A)
| Raise (e : exn).
Arguments Ok {A} a.
Arguments Raise {A} e.

(* ------------------------------------------------------------------ *)
(** ** Python built-ins *)

Module Py.

Fixpoint prefix (p s : str) : bool :=
  match p, s with
  | [], _ => true
  | x :: p', y :: s' => N.eqb x y && prefix p' s'
  | _ :: _, [] => false
  end.

(** [str.startswith] *)
Definition startswith (s pre : str) : bool := prefix pre s.

(** [str.endswith] with one suffix *)
Fixpoint endswith (s suffix : str) : bool :=
  if eqb s suffix then true
  else match s with
       | [] => false
       | _ :: r => endswith r suffix
       end.

(** [str.endswith] with a tuple of suffixes *)
Definition endswith_any (s : str) (suffixes : list str) : bool :=
  existsb (endswith s) suffixes.

(** [sub in s] on two strings *)
Fixpoint contains_str (sub s : str) : bool :=
  if prefix sub s then true
  else match s with
       | [] => false
       | _ :: r => contains_str sub r
       end.

(** [os.path.join] of two components, with the POSIX separator. *)
Definition join (a b : str) : str :=
  if prefix (lit "/") b then b
  else if eqb a [] || endswith a (lit "/") then (a ++ b)%list
  else (a ++ lit "/" ++ b)%list.

(** [decimal c] is the value of [c] as a decimal digit
    ([Py_UNICODE_TODECIMAL]): the class [\d] of [re] and the digits
    that [float] reads. *)
Definition is_digit (decimal : N -> option N) (c : N) : bool :=
  match decimal c with
  | Some _ => true
  | None => false
  end.

(** [[+-]] *)
Definition is_sign (c : N) : bool := N.eqb c 43 || N.eqb c 45.

(** [\.] *)
Definition is_dot (c : N) : bool := N.eqb c 46.

Fixpoint all_digits (decimal : N -> option N) (s : str) : bool :=
  match s with
  | [] => true
  | c :: r => is_digit decimal c && all_digits decimal r
  end.

Fixpoint span_digits (decimal : N -> option N) (s : str) : str * str :=
  match s with
  | [] => ([], [])
  | c :: r =>
      if is_digit decimal c
      then let '(d, t) := span_digits decimal r in (c :: d, t)
      else ([], s)
  end.

Fixpoint digits_value (decimal : N -> option N) (acc : Z) (s : str) : Z :=
  match s with
  | [] => acc
  | c :: r =>
      digits_value decimal
        (10 * acc + match decimal c with
                    | Some v => Z.of_N v
                    | None => 0
                    end) r
  end.

(** The binary64 number nearest to [ip.fp] (ties to even), with the
    sign [neg]. *)
Definition decimal_to_float (decimal : N -> option N) (neg : bool) (ip fp : str)
  : float :=
  match digits_value decimal 0 (ip ++ fp)%list with
  | Zpos n =>
      SF2Prim (SFdiv prec emax
                 (S754_finite neg n 0)
                 (S754_finite false (Z.to_pos (10 ^ Z.of_nat (List.length fp))) 0))
  | _ => SF2Prim (S754_zero neg)
  end.

(** [float(s)] on the decimal literals without exponent, in the digits
    of any script: an optional sign, digits, and optionally a point and
    digits, with a digit on one side at least.  The other spellings
    that [float] reads raise here; the script only converts text
    matched by its pattern. *)
Definition float (decimal : N -> option N) (s : str) : outcome PrimFloat.float :=
  let '(neg, body) :=
    match s with
    | c :: r =>
        if N.eqb c 43 then (false, r)
        else if N.eqb c 45 then (true, r)
        else (false, s)
    | [] => (false, s)
    end in
  let '(ip, t) := span_digits decimal body in
  match t with
  | [] =>
      if eqb ip [] then Raise (ValueError s)
      else Ok (decimal_to_float decimal neg ip [])
  | c :: fp =>
      if N.eqb c 46 && all_digits decimal fp && negb (eqb ip [] && eqb fp [])
      then Ok (decimal_to_float decimal neg ip fp)
      else Raise (ValueError s)
  end.

(** [float(i)] on an [int] *)
Definition float_of_int (z : Z) : PrimFloat.float :=
  SF2Prim (binary_normalize prec emax z 0 false).

End Py.

(* ------------------------------------------------------------------ *)
(** ** The fragment of [re] that the location pattern needs *)

Module Re.

Inductive regex : Type :=
| Class (p : N -> bool)
| Plus (p : N -> bool)
| Cat (r1 r2 : regex)
| Group (r : regex).

Record partial : Type := mkPartial {
  consumed : str;
  groups : list str;
  rest : str
}.

(** The ways [p+] can match at the start of [s], longest first. *)
Fixpoint plus_splits (p : N -> bool) (s : str) : list (str * str) :=
  match s with
  | [] => []
  | c :: r =>
      if p c
      then (map (fun ab => (c :: fst ab, snd ab)) (plus_splits p r) ++ [([c], r)])%list
      else []
  end.

(** All the ways [r] can match at the start of [s], in the order in
    which a backtracking matcher tries them. *)
Fixpoint candidates (r : regex) (s : str) : list partial :=
  match r with
  | Class p =>
      match s with
      | c :: t => if p c then [mkPartial [c] [] t] else []
      | [] => []
      end
  | Plus p => map (fun ab => mkPartial (fst ab) [] (snd ab)) (plus_splits p s)
  | Cat r1 r2 =>
      flat_map
        (fun m1 =>
           map (fun m2 => mkPartial (consumed m1 ++ consumed m2)%list
                                    (groups m1 ++ groups m2)%list
                                    (rest m2))
               (candidates r2 (rest m1)))
        (candidates r1 s)
  | Group r =>
      map (fun m => mkPartial (consumed m) (consumed m :: groups m) (rest m))
          (candidates r s)
  end.

(** [re.match(r, s)]: the first candidate, as the list
    [group(0); group(1); ...], or [None]. *)
Definition match_ (r : regex) (s : str) : option (list str) :=
  match candidates r s with
  | [] => None
  | m :: _ => Some (consumed m :: groups m)
  end.

(** [[+-]\d+\.\d+] *)
Definition signed_decimal (decimal : N -> option N) : regex :=
  Cat (Class Py.is_sign)
      (Cat (Plus (Py.is_digit decimal))
           (Cat (Class Py.is_dot) (Plus (Py.is_digit decimal)))).

(** [r'([+-]\d+\.\d+)([+-]\d+\.\d+)'] *)
Definition location_pattern (decimal : N -> option N) : regex :=
  Cat (Group (signed_decimal decimal)) (Group (signed_decimal decimal)).

End Re.

(* ------------------------------------------------------------------ *)
(** ** Values handed over by the libraries *)

Inductive json : Type :=
| JNull
| JBool (b : bool)
| JInt (z : Z)
| JFloat (x : float)
| JString (s : str)
| JArray (items : list json)
| JObject (items : list (str * json)).

Record Image : Type := mkImage {
  has_exif : bool;
  gps_latitude : option (list float);
  gps_longitude : option (list float);
  gps_altitude : option float;
  gps_latitude_ref : option str;
  gps_longitude_ref : option str
}.

Record file_content : Type := mkFile {
  image : outcome Image;
  ffprobe_json : outcome json
}.

(** A folder is reached through a symbolic link or not, and can be
    listed or not. *)
Record dir_attrs : Type := mkAttrs {
  is_link : bool;
  readable : bool
}.

(** A folder tree.  A link to a file, dangling or not, is the file
    that opening it gives. *)
Inductive node : Type :=
| File (f : file_content)
| Dir (a : dir_attrs) (entries : list (str * node)).

Definition gps : Type := (float * float * option float)%type.

(* ------------------------------------------------------------------ *)
(** ** The database *)

Record point : Type := mkPoint {
  srid : Z;
  point_x : float;
  point_y : float
}.

Record row : Type := mkRow {
  id : Z;
  full_path : str;
  file_name : str;
  media_type : str;
  altitude : option float;
  geom : point;
  mission_id : Z
}.

(** [missoes] and [drone_mission] are [None] when the table does not
    exist; [has_geometry] tells whether the type [GEOMETRY] does.  A
    table [missoes] that exists has the columns [id] and [nome], and
    [id] can be referenced by a foreign key. *)
Record database : Type := mkDatabase {
  missoes : option (list (Z * str));
  has_geometry : bool;
  drone_mission : option (list row)
}.

Record values : Type := mkValues {
  v_full_path : str;
  v_file_name : str;
  v_media_type : str;
  v_altitude : option float;
  v_geom : point;
  v_mission_id : Z
}.

Record media : Type := mkMedia {
  m_full_path : str;
  m_file : str;
  m_media_type : str;
  m_lat : float;
  m_lon : float;
  m_alt : option float;
  m_mission_id : Z
}.

(** The last value of the sequence of a [SERIAL] column. *)
Definition max_id : Z := 2147483647.

Definition path_taken (rows : list row) (p : str) : bool :=
  existsb (fun r => eqb (full_path r) p) rows.

Definition row_with_id (i : Z) (v : values) : row :=
  {| id := i;
     full_path := v_full_path v;
     file_name := v_file_name v;
     media_type := v_media_type v;
     altitude := v_altitude v;
     geom := v_geom v;
     mission_id := v_mission_id v |}.

Definition id_taken (rows : list row) (i : Z) : bool :=
  existsb (fun r => Z.eqb (id r) i) rows.

(** The rows of [INSERT ... ON CONFLICT (full_path) DO NOTHING], one
    after the other: the id is drawn from the sequence, which raises
    when it is past its last value; then the row is dropped if its path
    is in the table, it violates the primary key if its id is in the
    table, and it is added otherwise.  The result is the table and the
    rows added, or the exception, and the sequence in both cases. *)
Fixpoint propose (rows added : list row) (next : Z) (vs : list values)
  : outcome (list row * list row) * Z :=
  match vs with
  | [] => (Ok (rows, added), next)
  | v :: vs' =>
      if (max_id <? next)%Z
      then (Raise (DataError (lit "nextval: reached maximum value of sequence")),
            next)
      else if path_taken rows (v_full_path v)
           then propose rows added (next + 1) vs'
           else if id_taken rows next
                then (Raise (IntegrityError
                               (lit "duplicate key value violates unique constraint")),
                      (next + 1)%Z)
                else propose (rows ++ [row_with_id next v])%list
                             (added ++ [row_with_id next v])%list
                             (next + 1) vs'
  end.

(** The foreign key of the rows added. *)
Definition references_ok (ms : list (Z * str)) (added : list row) : bool :=
  forallb (fun r => existsb (fun m => Z.eqb (fst m) (mission_id r)) ms) added.

Definition find_mission (ms : list (Z * str)) (nome : str) : option Z :=
  match find (fun r => eqb (snd r) nome) ms with
  | Some r => Some (fst r)
  | None => None
  end.

(* ------------------------------------------------------------------ *)
(** ** Effects *)

Inductive message : Type :=
| MsgConnected
| MsgPhotoExtracted (path : str) (lat lon : float) (alt : option float)
| MsgNoGpsPhoto (path : str)
| MsgPhotoError (path : str) (e : exn)
| MsgVideoExtracted (path : str) (lat lon : float) (alt : option float)
| MsgNoGpsVideo (path : str)
| MsgVideoError (path : str) (e : exn)
| MsgTableReady
| MsgProcessingMission (mission : str)
| MsgProcessed (mission : str) (files_added : nat)
| MsgComplete.

Inductive statement : Type :=
| SqlCreateTable
| SqlSelectMission (nome : str)
| SqlInsert (vs : list values).

Inductive event : Type :=
| EvPrint (m : message)
| EvOpen (path : str)
| EvSpawn (path : str)
| EvExecute (s : statement)
| EvCommit
| EvClose.

(** What the script takes from its surroundings. *)
Record runtime : Type := mkRuntime {
  decimal : N -> option N;
  lower : str -> str;
  stdout : message -> option exn;
  client_rejects : list values -> option exn;
  server_rejects : list values -> option exn
}.

(** The state the script acts on: what the server has committed, what
    the connection sees, the next value of the sequence of ids, and the
    effects so far, oldest first. *)
Record world : Type := mkWorld {
  stored : database;
  session : database;
  next_id : Z;
  log : list event
}.

Definition M (A : Type) : Type := world -> outcome A * world.

Definition ret {A} (a : A) : M A := fun w => (Ok a, w).

Definition bind {A B} (c : M A) (k : A -> M B) : M B :=
  fun w =>
    match c w with
    | (Ok a, w') => k a w'
    | (Raise e, w') => (Raise e, w')
    end.

Definition raise {A} (e : exn) : M A := fun w => (Raise e, w).

(** [try: c  except Exception as e: h e] *)
Definition try_except {A} (c : M A) (h : exn -> M A) : M A :=
  fun w =>
    match c w with
    | (Ok a, w') => (Ok a, w')
    | (Raise e, w') => h e w'
    end.

Definition after (w : world) (evs : list event) : world :=
  {| stored := stored w; session := session w; next_id := next_id w;
     log := (log w ++ evs)%list |}.

Definition emit (e : event) : M unit := fun w => (Ok tt, after w [e]).

Definition lift {A} (o : outcome A) : M A := fun w => (o, w).

Declare Scope real_scope.
Delimit Scope real_scope with real.
Notation "x <- c ;; k" := (bind c (fun x => k))
  (at level 61, c at next level, right associativity) : real_scope.
Notation "c ;; k" := (bind c (fun _ => k))
  (at level 61, right associativity) : real_scope.
Local Open Scope real_scope.

(** [for x in l: s = body x s] *)
Fixpoint for_ {A S} (l : list A) (body : A -> S -> M S) (s : S) : M S :=
  match l with
  | [] => ret s
  | x :: l' => s' <- body x s ;; for_ l' body s'
  end.

(* ------------------------------------------------------------------ *)
(** ** Operations on the library values *)

Definition hasattr {A} (v : option A) : bool :=
  match v with Some _ => true | None => false end.

Definition getattr {A} (name : str) (v : option A) : M A :=
  match v with
  | Some a => ret a
  | None => raise (AttributeError name)
  end.

Definition tuple_item (t : list float) (i : nat) : M float :=
  match nth_error t i with
  | Some x => ret x
  | None => raise IndexError
  end.

Fixpoint assoc (k : str) (items : list (str * json)) : option json :=
  match items with
  | [] => None
  | (k', v) :: r => if eqb k' k then Some v else assoc k r
  end.

Definition getitem (v : json) (k : str) : M json :=
  match v with
  | JObject items =>
      match assoc k items with
      | Some x => ret x
      | None => raise (KeyError k)
      end
  | _ => raise TypeError
  end.

Definition contains (k : str) (v : json) : M bool :=
  match v with
  | JObject items => ret (hasattr (assoc k items))
  | JArray items =>
      ret (existsb (fun x => match x with
                             | JString s => eqb s k
                             | _ => false
                             end) items)
  | JString s => ret (Py.contains_str k s)
  | _ => raise TypeError
  end.

Definition re_match (r : Re.regex) (v : json) : M (option (list str)) :=
  match v with
  | JString s => ret (Re.match_ r s)
  | _ => raise TypeError
  end.

Definition group (m : list str) (i : nat) : M str :=
  match nth_error m i with
  | Some g => ret g
  | None => raise IndexError
  end.

Definition open_image (photo_path : str) (f : file_content) : M Image :=
  emit (EvOpen photo_path) ;; lift (image f).

Definition run_ffprobe (video_path : str) (f : file_content) : M json :=
  emit (EvSpawn video_path) ;; lift (ffprobe_json f).

Definition to_decimal (sign : Z) (t : list float) : M float :=
  t0 <- tuple_item t 0 ;;
  t1 <- tuple_item t 1 ;;
  t2 <- tuple_item t 2 ;;
  ret (Py.float_of_int sign
       * (t0 + t1 / Py.float_of_int 60 + t2 / Py.float_of_int 3600))%float.

Definition to_values (m : media) : values :=
  {| v_full_path := m_full_path m;
     v_file_name := m_file m;
     v_media_type := m_media_type m;
     v_altitude := m_alt m;
     v_geom := {| srid := 4326; point_x := m_lon m; point_y := m_lat m |};
     v_mission_id := m_mission_id m |}.

Fixpoint paginate_fuel {A} (fuel page_size : nat) (l : list A) : list (list A) :=
  match fuel with
  | O => []
  | S fuel' =>
      match l with
      | [] => []
      | _ => firstn page_size l :: paginate_fuel fuel' page_size (skipn page_size l)
      end
  end.

Definition paginate {A} (page_size : nat) (l : list A) : list (list A) :=
  paginate_fuel (List.length l) page_size l.

Definition subdirs (entries : list (str * node)) : list str :=
  flat_map (fun e => match snd e with Dir _ _ => [fst e] | File _ => [] end) entries.

Definition plain_files (entries : list (str * node)) : list (str * file_content) :=
  flat_map (fun e => match snd e with File f => [(fst e, f)] | Dir _ _ => [] end) entries.

(** [os.walk(top)], top-down, with its defaults: a folder that cannot
    be listed gives nothing, and a sub-folder that is a symbolic link
    is named among the folders but not walked. *)
Fixpoint walk (top : str) (n : node)
  : list (str * list str * list (str * file_content)) :=
  match n with
  | File _ => []
  | Dir a entries =>
      if readable a then
        (top, subdirs entries, plain_files entries)
        :: (fix walk_entries (es : list (str * node)) :=
              match es with
              | [] => []
              | (name, child) :: es' =>
                  (match child with
                   | Dir a' _ =>
                       if is_link a' then [] else walk (Py.join top name) child
                   | File _ => []
                   end ++ walk_entries es')%list
              end) entries
      else []
  end.

Definition photo_suffixes : list str := [lit ".jpg"; lit ".jpeg"; lit ".png"].
Definition video_suffixes : list str :=
  [lit ".mp4"; lit ".mov"; lit ".avi"; lit ".mkv"].

Definition not_found_message (mission_name : str) : str :=
  (lit "Mission '" ++ mission_name
   ++ lit "' not found in the `missoes` table.")%list.

(** [os.path.isdir], which follows links *)
Definition isdir (n : node) : bool :=
  match n with Dir _ _ => true | File _ => false end.

(** [os.listdir] *)
Definition listdir (n : node) : M (list (str * node)) :=
  match n with
  | Dir a entries => if readable a then ret entries else raise OSError
  | File _ => raise OSError
  end.

(** [conn.commit()] *)
Definition commit : M unit :=
  fun w => (Ok tt, {| stored := session w; session := session w;
                      next_id := next_id w;
                      log := (log w ++ [EvCommit])%list |}).

Definition set_table (d : database) (rows : list row) : database :=
  {| missoes := missoes d; has_geometry := has_geometry d;
     drone_mission := Some rows |}.

(** [SELECT id FROM missoes WHERE nome = %s] followed by [fetchone]. *)
Definition execute_select (mission_name : str) : M (option Z) :=
  emit (EvExecute (SqlSelectMission mission_name)) ;;
  fun w =>
    match missoes (session w) with
    | Some ms => (Ok (find_mission ms mission_name), w)
    | None =>
        (Raise (ProgrammingError (lit "relation missoes does not exist")), w)
    end.

(** [CREATE TABLE IF NOT EXISTS drone_mission (...)]: nothing to do
    when the table exists; otherwise the column type [GEOMETRY] and the
    table [missoes] that the foreign key names must exist. *)
Definition execute_create : M unit :=
  emit (EvExecute SqlCreateTable) ;;
  fun w =>
    match drone_mission (session w) with
    | Some _ => (Ok tt, w)
    | None =>
        if negb (has_geometry (session w))
        then (Raise (ProgrammingError (lit "type geometry does not exist")), w)
        else match missoes (session w) with
             | None =>
                 (Raise (ProgrammingError (lit "relation missoes does not exist")), w)
             | Some _ =>
                 (Ok tt, {| stored := stored w;
                            session := set_table (session w) [];
                            next_id := 1;
                            log := log w |})
             end
    end.

Section Script.

Variable rt : runtime.

(** [print(...)]: the message is written, or the exception that the
    terminal has for it is raised. *)
Definition print (m : message) : M unit :=
  fun w =>
    match stdout rt m with
    | Some e => (Raise e, w)
    | None => (Ok tt, after w [EvPrint m])
    end.

(* ------------------------------------------------------------------ *)
(** ** The extractors *)

Definition extract_gps_metadata_from_photo
    (photo_path : str) (f : file_content) : M (option gps) :=
  try_except
    (img <- open_image photo_path f ;;
     if has_exif img && hasattr (gps_latitude img) && hasattr (gps_longitude img)
     then
       lat <- getattr (lit "gps_latitude") (gps_latitude img) ;;
       lon <- getattr (lit "gps_longitude") (gps_longitude img) ;;
       let alt := gps_altitude img in
       lat_ref <- getattr (lit "gps_latitude_ref") (gps_latitude_ref img) ;;
       let lat_sign := if eqb lat_ref (lit "N") then 1%Z else (-1)%Z in
       lon_ref <- getattr (lit "gps_longitude_ref") (gps_longitude_ref img) ;;
       let lon_sign := if eqb lon_ref (lit "E") then 1%Z else (-1)%Z in
       lat_dec <- to_decimal lat_sign lat ;;
       lon_dec <- to_decimal lon_sign lon ;;
       print (MsgPhotoExtracted photo_path lat_dec lon_dec alt) ;;
       ret (Some (lat_dec, lon_dec, alt))
     else
       print (MsgNoGpsPhoto photo_path) ;;
       ret None)
    (fun e =>
       print (MsgPhotoError photo_path e) ;;
       ret None).

Definition extract_gps_metadata_from_video
    (video_path : str) (f : file_content) : M (option gps) :=
  let no_data := (print (MsgNoGpsVideo video_path) ;; ret None) in
  try_except
    (metadata <- run_ffprobe video_path f ;;
     format <- getitem metadata (lit "format") ;;
     has_tags <- contains (lit "tags") format ;;
     if has_tags : bool then
       format <- getitem metadata (lit "format") ;;
       tags <- getitem format (lit "tags") ;;
       has_location <- contains (lit "location") tags ;;
       if has_location : bool then
         location <- getitem tags (lit "location") ;;
         m <- re_match (Re.location_pattern (decimal rt)) location ;;
         match m with
         | Some mo =>
             g1 <- group mo 1 ;;
             lat <- lift (Py.float (decimal rt) g1) ;;
             g2 <- group mo 2 ;;
             lon <- lift (Py.float (decimal rt) g2) ;;
             let alt := @None float in
             print (MsgVideoExtracted video_path lat lon alt) ;;
             ret (Some (lat, lon, alt))
         | None => no_data
         end
       else no_data
     else no_data)
    (fun e =>
       print (MsgVideoError video_path e) ;;
       ret None).

(* ------------------------------------------------------------------ *)
(** ** The statements *)

Definition create_drone_mission_table : M unit :=
  execute_create ;;
  commit ;;
  print MsgTableReady.

(** One statement of [execute_values]: psycopg2 adapts the values,
    the server finds the table, reads the values, runs the rows and
    checks the foreign key of the rows added.  A statement that raises
    adds no row; the ids it has drawn are lost. *)
Definition execute_insert (vs : list values) : M unit :=
  fun w =>
    match client_rejects rt vs with
    | Some e => (Raise e, w)
    | None =>
        let w1 := after w [EvExecute (SqlInsert vs)] in
        match drone_mission (session w), missoes (session w) with
        | Some rows, Some ms =>
            match server_rejects rt vs with
            | Some e => (Raise e, w1)
            | None =>
                match propose rows [] (next_id w) vs with
                | (Ok (rows', added), next) =>
                    if references_ok ms added
                    then (Ok tt, {| stored := stored w;
                                    session := set_table (session w) rows';
                                    next_id := next;
                                    log := log w1 |})
                    else (Raise (IntegrityError
                                   (lit "violates foreign key constraint")),
                          {| stored := stored w; session := session w;
                             next_id := next; log := log w1 |})
                | (Raise e, next) =>
                    (Raise e,
                     {| stored := stored w; session := session w;
                        next_id := next; log := log w1 |})
                end
            end
        | _, _ =>
            (Raise (ProgrammingError (lit "relation does not exist")), w1)
        end
    end.

(** [psycopg2.extras.execute_values] with its default [page_size=100]:
    one statement per page. *)
Definition execute_values (vs : list values) : M unit :=
  for_ (paginate 100 vs) (fun page _ => execute_insert page) tt.

(* ------------------------------------------------------------------ *)
(** ** The walk over a mission folder *)

Definition process_file (mission_id : Z) (root : str)
    (file : str * file_content) (data : list media) : M (list media) :=
  let '(name, content) := file in
  let full_path := Py.join root name in
  if Py.endswith_any (lower rt name) photo_suffixes then
    metadata <- extract_gps_metadata_from_photo full_path content ;;
    match metadata with
    | Some (lat, lon, alt) =>
        ret (data ++ [mkMedia full_path name (lit "photo") lat lon alt mission_id])%list
    | None => ret data
    end
  else if Py.endswith_any (lower rt name) video_suffixes then
    metadata <- extract_gps_metadata_from_video full_path content ;;
    match metadata with
    | Some (lat, lon, alt) =>
        ret (data ++ [mkMedia full_path name (lit "video") lat lon alt mission_id])%list
    | None => ret data
    end
  else ret data.

Definition collect_media (mission_id : Z) (mission_path : str)
    (mission_dir : node) : M (list media) :=
  for_ (walk mission_path mission_dir)
       (fun '(root, _, files) data =>
          for_ files (process_file mission_id root) data)
       [].

(* ------------------------------------------------------------------ *)
(** ** The pipeline *)

Definition process_mission_media
    (mission_name mission_path : str) (mission_dir : node) : M unit :=
  found <- execute_select mission_name ;;
  mission_id <- match found with
                | None => raise (ValueError (not_found_message mission_name))
                | Some i => ret i
                end ;;
  data <- collect_media mission_id mission_path mission_dir ;;
  match data with
  | _ :: _ =>
      execute_values (map to_values data) ;;
      commit
  | [] => ret tt
  end ;;
  print (MsgProcessed mission_name (List.length data)).

(** [psycopg2.connect], with the connection made (the configuration
    file and the refusals of the server are in [Config]): a new
    connection sees what is committed. *)
Definition connect_to_postgis : M unit :=
  (fun w => (Ok tt, {| stored := stored w; session := stored w;
                       next_id := next_id w; log := log w |})) ;;
  print MsgConnected.

Definition process_entry (base_folder : str) (entry : str * node) : M unit :=
  let '(mission, child) := entry in
  let mission_path := Py.join base_folder mission in
  if isdir child && Py.startswith mission (lit "Mission") then
    print (MsgProcessingMission mission) ;;
    process_mission_media mission mission_path child
  else ret tt.

Definition process_all (base_folder : str) (base : node) : M unit :=
  connect_to_postgis ;;
  create_drone_mission_table ;;
  entries <- listdir base ;;
  for_ entries (fun entry _ => process_entry base_folder entry) tt ;;
  emit EvClose ;;
  print MsgComplete.

End Script.

(* ------------------------------------------------------------------ *)
(** ** Vocabulary of the statements *)

(** The text after the last point of a name, if it has a point. *)
Fixpoint extension (s : str) : option str :=
  match s with
  | [] => None
  | c :: r =>
      match extension r with
      | Some e => Some e
      | None => if N.eqb c 46 then Some r else None
      end
  end.

Inductive media_class : Type := Photo | Video | Ignored.

Definition photo_extensions : list str := [lit "jpg"; lit "jpeg"; lit "png"].
Definition video_extensions : list str := [lit "mp4"; lit "mov"; lit "avi"; lit "mkv"].

Definition mem (e : str) (l : list str) : bool := existsb (eqb e) l.

(** The class of a file by its lower-cased extension. *)
Definition classify (rt : runtime) (file : str) : media_class :=
  match extension (lower rt file) with
  | Some e =>
      if mem e photo_extensions then Photo
      else if mem e video_extensions then Video
      else Ignored
  | None => Ignored
  end.

(** The digits [0] to [9] of ASCII. *)
Definition ascii_digit (c : N) : option N :=
  if (48 <=? c)%N && (c <=? 57)%N then Some (c - 48)%N else None.

(** On ASCII, the decimal digits are [0] to [9]. *)
Definition ascii_decimal (decimal : N -> option N) : Prop :=
  forall c, (c < 128)%N -> decimal c = ascii_digit c.

(** A sign, one or more digits, a point, one or more digits. *)
Definition signed_decimal_text (decimal : N -> option N) (s : str) : Prop :=
  exists c ip fp,
    s = c :: (ip ++ 46%N :: fp)%list
    /\ Py.is_sign c = true
    /\ ip <> [] /\ Py.all_digits decimal ip = true
    /\ fp <> [] /\ Py.all_digits decimal fp = true.

(** The text begins with two signed decimals, one after the other. *)
Definition begins_with_two_signed_decimals (decimal : N -> option N) (s : str)
  : Prop :=
  exists a b t,
    s = (a ++ b ++ t)%list
    /\ signed_decimal_text decimal a /\ signed_decimal_text decimal b.

(** The next character, if any, is not a digit. *)
Definition no_digit_ahead (decimal : N -> option N) (t : str) : bool :=
  match t with
  | [] => true
  | c :: _ => negb (Py.is_digit decimal c)
  end.

(** The words a pattern denotes. *)
Inductive denotes : Re.regex -> str -> Prop :=
| DClass p c : p c = true -> denotes (Re.Class p) [c]
| DPlus p s : s <> [] -> forallb p s = true -> denotes (Re.Plus p) s
| DCat r1 r2 s1 s2 :
    denotes r1 s1 -> denotes r2 s2 -> denotes (Re.Cat r1 r2) (s1 ++ s2)%list
| DGroup r s : denotes r s -> denotes (Re.Group r) s.

(** A pattern without capturing parentheses. *)
Fixpoint group_free (r : Re.regex) : bool :=
  match r with
  | Re.Class _ | Re.Plus _ => true
  | Re.Cat r1 r2 => group_free r1 && group_free r2
  | Re.Group _ => false
  end.

(** The output of ffprobe is an object whose [format.tags.location] is
    the string [tag]. *)
Definition has_location_tag (f : file_content) (tag : str) : Prop :=
  exists items fitems titems,
    ffprobe_json f = Ok (JObject items)
    /\ assoc (lit "format") items = Some (JObject fitems)
    /\ assoc (lit "tags") fitems = Some (JObject titems)
    /\ assoc (lit "location") titems = Some (JString tag).

(** The output of ffprobe is an object with a [format] object that has
    no [tags], or whose [tags] object has no [location]. *)
Definition lacks_location_tag (f : file_content) : Prop :=
  exists items fitems,
    ffprobe_json f = Ok (JObject items)
    /\ assoc (lit "format") items = Some (JObject fitems)
    /\ (assoc (lit "tags") fitems = None
        \/ exists titems,
             assoc (lit "tags") fitems = Some (JObject titems)
             /\ assoc (lit "location") titems = None).

(** A computation that only adds to the log, and whose result and
    effects do not depend on the state it starts from. *)
Definition oblivious {A} (c : M A) : Prop :=
  exists o evs, forall w, c w = (o, after w evs).

(** The terminal prints the message. *)
Definition printed (rt : runtime) (m : message) : Prop := stdout rt m = None.

(** The terminal prints the error messages of the extractors. *)
Definition prints_errors (rt : runtime) : Prop :=
  forall path e,
    printed rt (MsgPhotoError path e) /\ printed rt (MsgVideoError path e).

(** The files of a folder tree that a walk comes across, each with the
    folder it is in: those of the folder, then those of its
    sub-folders, links left out. *)
Fixpoint discovered (top : str) (n : node) : list (str * (str * file_content)) :=
  match n with
  | File _ => []
  | Dir a entries =>
      if readable a then
        (map (fun f => (top, f)) (plain_files entries)
         ++ (fix below (es : list (str * node)) :=
               match es with
               | [] => []
               | (name, child) :: es' =>
                   (match child with
                    | Dir a' _ =>
                        if is_link a' then []
                        else discovered (Py.join top name) child
                    | File _ => []
                    end ++ below es')%list
               end) entries)%list
      else []
  end.

(** Induction on folder trees. *)
Fixpoint node_induction (P : node -> Prop)
    (HFile : forall f, P (File f))
    (HDir : forall a entries,
        Forall (fun e => P (snd e)) entries -> P (Dir a entries))
    (n : node) : P n :=
  match n with
  | File f => HFile f
  | Dir a entries =>
      HDir a entries
        ((fix all (es : list (str * node)) : Forall (fun e => P (snd e)) es :=
            match es with
            | [] => Forall_nil _
            | e :: es' => Forall_cons e (node_induction P HFile HDir (snd e)) (all es')
            end) entries)
  end.

(** What the walker does with one file, by its class. *)
Definition dispatch (rt : runtime) (mission_id : Z)
    (found : str * (str * file_content)) (data : list media) : M (list media) :=
  let '(root, (name, content)) := found in
  let record kind (metadata : option gps) :=
    match metadata with
    | Some (lat, lon, alt) =>
        (data ++ [mkMedia (Py.join root name) name kind lat lon alt mission_id])%list
    | None => data
    end in
  match classify rt name with
  | Photo =>
      metadata <- extract_gps_metadata_from_photo rt (Py.join root name) content ;;
      ret (record (lit "photo") metadata)
  | Video =>
      metadata <- extract_gps_metadata_from_video rt (Py.join root name) content ;;
      ret (record (lit "video") metadata)
  | Ignored => ret data
  end.

Definition is_mission_folder (entry : str * node) : bool :=
  isdir (snd entry) && Py.startswith (fst entry) (lit "Mission").

(** Resolver, walker and sink on one mission folder. *)
Definition process_mission (rt : runtime) (base_folder : str) (entry : str * node)
  : M unit :=
  print rt (MsgProcessingMission (fst entry)) ;;
  process_mission_media rt (fst entry) (Py.join base_folder (fst entry)) (snd entry).

Definition mission_loop (rt : runtime) (base_folder : str)
    (entries : list (str * node)) : M unit :=
  for_ entries (fun entry _ => process_entry rt base_folder entry) tt.

Definition table_rows (d : database) : list row :=
  match drone_mission d with
  | Some rows => rows
  | None => []
  end.

Definition rows_of_mission (i : Z) (d : database) : list row :=
  filter (fun r => Z.eqb (mission_id r) i) (table_rows d).

(** The ids from [next] on are enough for [n] rows. *)
Definition fits (next : Z) (n : nat) : bool :=
  (n =? 0)%nat || (next + Z.of_nat n - 1 <=? max_id)%Z.

(** The table after the rows of a statement that goes through. *)
Fixpoint insert_all (rows : list row) (next : Z) (vs : list values) : list row :=
  match vs with
  | [] => rows
  | v :: vs' =>
      insert_all (if path_taken rows (v_full_path v) then rows
                  else (rows ++ [row_with_id next v])%list)
                 (next + 1) vs'
  end.

(** psycopg2 and the server take the values. *)
Definition accepted (rt : runtime) (vs : list values) : bool :=
  match client_rejects rt vs, server_rejects rt vs with
  | None, None => true
  | _, _ => false
  end.

(** All the pages go through, from the id [next] on. *)
Fixpoint pages_ok (rt : runtime) (next : Z) (pages : list (list values)) : bool :=
  match pages with
  | [] => true
  | page :: pages' =>
      accepted rt page && fits next (List.length page)
      && pages_ok rt (next + Z.of_nat (List.length page)) pages'
  end.

Definition blank : world :=
  {| stored := {| missoes := None; has_geometry := false; drone_mission := None |};
     session := {| missoes := None; has_geometry := false; drone_mission := None |};
     next_id := 1;
     log := [] |}.

(** What the walk over a mission folder gives; it is the same from
    every state. *)
Definition collect_result (rt : runtime) (mission_id : Z) (mission_path : str)
    (mission_dir : node) : outcome (list media) :=
  fst (collect_media rt mission_id mission_path mission_dir blank).

(** The records that a mission folder leaves committed, and whether
    the run goes on after it, when the table exists, [ms] is the
    content of [missoes] and [next] the next id. *)
Definition mission_outcome (rt : runtime) (ms : option (list (Z * str)))
    (mission_name mission_path : str) (mission_dir : node) (next : Z)
  : list media * bool :=
  match ms with
  | Some ms' =>
      match find_mission ms' mission_name with
      | Some i =>
          match collect_result rt i mission_path mission_dir with
          | Ok data =>
              let said :=
                match stdout rt (MsgProcessed mission_name (List.length data)) with
                | None => true
                | Some _ => false
                end in
              match data with
              | [] => ([], said)
              | _ :: _ =>
                  if pages_ok rt next (paginate 100 (map to_values data))
                  then (data, said)
                  else ([], false)
              end
          | Raise _ => ([], false)
          end
      | None => ([], false)
      end
  | None => ([], false)
  end.

(** The same for an entry of the base folder. *)
Definition entry_outcome (rt : runtime) (base_folder : str)
    (ms : option (list (Z * str))) (entry : str * node) (next : Z)
  : list media * bool :=
  if is_mission_folder entry then
    match stdout rt (MsgProcessingMission (fst entry)) with
    | None =>
        mission_outcome rt ms (fst entry) (Py.join base_folder (fst entry))
                        (snd entry) next
    | Some _ => ([], false)
    end
  else ([], true).

Fixpoint loop_commits (rt : runtime) (base_folder : str)
    (ms : option (list (Z * str))) (entries : list (str * node)) (next : Z)
  : list media :=
  match entries with
  | [] => []
  | entry :: entries' =>
      let '(data, goes_on) := entry_outcome rt base_folder ms entry next in
      (data ++ (if goes_on : bool
                then loop_commits rt base_folder ms entries'
                                  (next + Z.of_nat (List.length data))
                else []))%list
  end.

(** The id that the first row of a run takes. *)
Definition start_id (d : database) (next : Z) : Z :=
  match drone_mission d with
  | Some _ => next
  | None => 1%Z
  end.

(** [CREATE TABLE IF NOT EXISTS] goes through: the table is there,
    or the type and the table it needs are. *)
Definition table_available (d : database) : bool :=
  match drone_mission d, missoes d with
  | Some _, _ => true
  | None, Some _ => has_geometry d
  | None, None => false
  end.

(** The records that a run leaves committed, from the committed
    database [d] and the next id [next]. *)
Definition run_commits (rt : runtime) (base_folder : str) (base : node)
    (d : database) (next : Z) : list media :=
  match stdout rt MsgConnected, stdout rt MsgTableReady, base with
  | None, None, Dir a entries =>
      if readable a && table_available d
      then loop_commits rt base_folder (missoes d) entries (start_id d next)
      else []
  | _, _, _ => []
  end.

(** What every step of the script after the table is there leaves as
    it is, but for [commit]. *)
Definition frame (w w' : world) : Prop :=
  stored w' = stored w
  /\ missoes (session w') = missoes (session w)
  /\ has_geometry (session w') = has_geometry (session w)
  /\ (next_id w <= next_id w')%Z
  /\ (drone_mission (session w) <> None -> drone_mission (session w') <> None).

Definition framed {A} (c : M A) : Prop :=
  forall w o w', c w = (o, w') -> frame w w'.

(** From [w] to [w'] the committed table has become [rows'], and the
    rest of the committed database is as it was. *)
Definition leaves (w w' : world) (rows' : list row) : Prop :=
  drone_mission (stored w') = Some rows'
  /\ missoes (stored w') = missoes (stored w)
  /\ has_geometry (stored w') = has_geometry (stored w)
  /\ (next_id w <= next_id w')%Z.

(** A step that commits [data] and goes on or not: its outcome and the
    state it leaves. *)
Definition step_result (o : outcome unit) (w w' : world) (rows : list row)
    (data : list media) (goes_on : bool) : Prop :=
  leaves w w' (insert_all rows (next_id w) (map to_values data))
  /\ (next_id w + Z.of_nat (List.length data) <= next_id w')%Z
  /\ (goes_on = true ->
      o = Ok tt /\ session w' = stored w'
      /\ next_id w' = (next_id w + Z.of_nat (List.length data))%Z)
  /\ (goes_on = false -> exists x, o = Raise x).

(** The ids of the rows were drawn from the sequence before [next]. *)
Definition below (rows : list row) (next : Z) : Prop :=
  forall r, In r rows -> (id r < next)%Z.

(** A computation that leaves [missoes] as the connection sees it. *)
Definition keeps_missoes {A} (c : M A) : Prop :=
  forall w o w', c w = (o, w') -> missoes (session w') = missoes (session w).

(** The ids of the table are pairwise distinct, are values of the
    sequence of a [SERIAL] column, and were drawn before [next]. *)
Definition key_ok (rows : list row) (next : Z) : Prop :=
  NoDup (map id rows)
  /\ forall r, In r rows -> (1 <= id r <= max_id)%Z /\ (id r < next)%Z.

(** The records that a discovered file gives: one if the extractor of
    its class has a result, none otherwise. *)
Definition file_records (rt : runtime) (mission_id : Z)
    (found : str * (str * file_content)) : list media :=
  let '(root, (name, content)) := found in
  let record kind (r : outcome (option gps)) :=
    match r with
    | Ok (Some (lat, lon, alt)) =>
        [mkMedia (Py.join root name) name kind lat lon alt mission_id]
    | _ => []
    end in
  match classify rt name with
  | Photo =>
      record (lit "photo")
             (fst (extract_gps_metadata_from_photo rt (Py.join root name) content blank))
  | Video =>
      record (lit "video")
             (fst (extract_gps_metadata_from_video rt (Py.join root name) content blank))
  | Ignored => []
  end.

(** [data] are the records of a mission folder of the listing whose
    name is in [missoes]. *)
Definition mission_records (rt : runtime) (base_folder : str)
    (ms : option (list (Z * str))) (entries : list (str * node))
    (data : list media) : Prop :=
  exists name child i ms',
    In (name, child) entries
    /\ is_mission_folder (name, child) = true
    /\ ms = Some ms'
    /\ find_mission ms' name = Some i
    /\ collect_result rt i (Py.join base_folder name) child = Ok data.

(** The entries of a folder. *)
Definition listing (n : node) : list (str * node) :=
  match n with
  | Dir _ entries => entries
  | File _ => []
  end.

(* ------------------------------------------------------------------ *)
(** ** Sample inputs *)

(** Some of the decimal digits of Unicode: ASCII, Arabic-Indic,
    Devanagari and fullwidth. *)
Definition sample_decimal (c : N) : option N :=
  if (48 <=? c)%N && (c <=? 57)%N then Some (c - 48)%N
  else if (1632 <=? c)%N && (c <=? 1641)%N then Some (c - 1632)%N
  else if (2406 <=? c)%N && (c <=? 2415)%N then Some (c - 2406)%N
  else if (65296 <=? c)%N && (c <=? 65305)%N then Some (c - 65296)%N
  else None.

(** [str.lower] on ASCII, Latin-1 and the Kelvin and Angstrom signs,
    whose lower case is [k] and [a] with ring. *)
Definition sample_lower_char (c : N) : N :=
  if (65 <=? c)%N && (c <=? 90)%N then (c + 32)%N
  else if (192 <=? c)%N && (c <=? 222)%N && negb (N.eqb c 215) then (c + 32)%N
  else if N.eqb c 8490 then 107%N
  else if N.eqb c 8491 then 229%N
  else c.

Definition message_path (m : message) : str :=
  match m with
  | MsgPhotoExtracted path _ _ _ | MsgNoGpsPhoto path | MsgPhotoError path _
  | MsgVideoExtracted path _ _ _ | MsgNoGpsVideo path | MsgVideoError path _ =>
      path
  | MsgProcessingMission mission | MsgProcessed mission _ => mission
  | MsgConnected | MsgTableReady | MsgComplete => []
  end.

(** A terminal in an 8-bit encoding: a message with a name outside
    Latin-1 raises [UnicodeEncodeError]. *)
Definition latin1_stdout (m : message) : option exn :=
  if forallb (fun c => (c <=? 255)%N) (message_path m) then None
  else Some UnicodeEncodeError.

(** The server refuses a text longer than its column. *)
Definition column_widths (vs : list values) : option exn :=
  if forallb (fun v => (List.length (v_full_path v) <=? 255)%nat
                       && (List.length (v_file_name v) <=? 255)%nat) vs
  then None
  else Some (DataError (lit "value too long for type character varying(255)")).

(** psycopg2 refuses a text with a NUL character. *)
Definition no_nul (vs : list values) : option exn :=
  if forallb (fun v => forallb (fun c => negb (N.eqb c 0))
                               (v_full_path v ++ v_file_name v)%list) vs
  then None
  else Some (ValueError (lit "A string literal cannot contain NUL (0x00) characters."))
  .

Definition sample_runtime : runtime :=
  {| decimal := sample_decimal;
     lower := map sample_lower_char;
     stdout := latin1_stdout;
     client_rejects := no_nul;
     server_rejects := column_widths |}.

Definition sample_image : Image :=
  {| has_exif := true;
     gps_latitude := Some [38%float; 43%float; 30%float];
     gps_longitude := Some [9%float; 8%float; 24%float];
     gps_altitude := Some 120.5%float;
     gps_latitude_ref := Some (lit "N");
     gps_longitude_ref := Some (lit "W") |}.

Definition sample_photo : file_content :=
  {| image := Ok sample_image; ffprobe_json := Raise JSONDecodeError |}.

Definition ffprobe_output (tag : str) : json :=
  JObject [(lit "format",
            JObject [(lit "tags", JObject [(lit "location", JString tag)])])].

Definition sample_video (tag : str) : file_content :=
  {| image := Raise ExifError; ffprobe_json := Ok (ffprobe_output tag) |}.

Definition unreadable_file : file_content :=
  {| image := Raise OSError; ffprobe_json := Raise JSONDecodeError |}.

Definition folder : dir_attrs := {| is_link := false; readable := true |}.
Definition linked_folder : dir_attrs := {| is_link := true; readable := true |}.

Definition sample_mission : node :=
  Dir folder
      [(lit "DJI_0001.JPG", File sample_photo);
       (lit "clips",
        Dir folder [(lit "DJI_0002.mp4", File (sample_video (lit "+40.1234-008.5678")));
                    (lit "notes.txt", File unreadable_file)]);
       (lit "archive",
        Dir linked_folder [(lit "DJI_0003.jpg", File sample_photo)])].

Definition sample_base : node :=
  Dir folder
      [(lit "Mission1", sample_mission);
       (lit "readme.txt", File unreadable_file);
       (lit "Other", Dir folder [(lit "DJI_0004.jpg", File sample_photo)]);
       (lit "Mission2", Dir folder [(lit "empty.txt", File unreadable_file)])].

Definition single_mission_base : node :=
  Dir folder
      [(lit "Mission1", Dir folder [(lit "DJI_0001.JPG", File sample_photo)])].

Definition sample_database : database :=
  {| missoes := Some [(7%Z, lit "Mission1"); (9%Z, lit "Mission2")];
     has_geometry := true;
     drone_mission := None |}.

Definition sample_world : world :=
  {| stored := sample_database; session := sample_database;
     next_id := 1; log := [] |}.

Definition database_with_table (rows : list row) : database :=
  {| missoes := Some [(7%Z, lit "Mission1"); (9%Z, lit "Mission2")];
     has_geometry := true;
     drone_mission := Some rows |}.

(** The table is there, empty, and the sequence has one id left. *)
Definition world_with_one_id_left : world :=
  {| stored := database_with_table []; session := database_with_table [];
     next_id := max_id; log := [] |}.

Definition sample_record : media :=
  mkMedia (lit "/data/Mission1/DJI_0001.JPG") (lit "DJI_0001.JPG") (lit "photo")
          (38 + 43 / 60 + 30 / 3600)%float (- (9 + 8 / 60 + 24 / 3600))%float
          (Some 120.5%float) 7.

(** A row with the path of [sample_record] and other values. *)
Definition old_row : row :=
  mkRow 1 (lit "/data/Mission1/DJI_0001.JPG") (lit "old.JPG") (lit "photo")
        None (mkPoint 4326 0 0) 7.

Definition world_with_old_row : world :=
  {| stored := database_with_table [old_row];
     session := database_with_table [old_row];
     next_id := 2; log := [] |}.

Definition world_without_missions : world :=
  {| stored := {| missoes := Some []; has_geometry := true; drone_mission := None |};
     session := {| missoes := Some []; has_geometry := true; drone_mission := None |};
     next_id := 1; log := [] |}.

End Real.

(* ================================================================== *)
(** * The monad *)

Lemma after_nil (w : world) : after w [] = w.
Proof. destruct w; unfold after; simpl. now rewrite app_nil_r. Qed.

Lemma after_after (w : world) (e1 e2 : list event) :
  after (after w e1) e2 = after w (e1 ++ e2)%list.
Proof. unfold after; simpl. now rewrite app_assoc. Qed.

Lemma emit_after (e : event) (w : world) : emit e w = (Ok tt, after w [e]).
Proof. reflexivity. Qed.

Lemma safe_oblivious {A} (c : M A) : safe c -> oblivious c.
Proof. intros (a & evs & H & E). now exists (Ok a), evs. Qed.

Lemma safe_ret {A} (a : A) : safe (ret a).
Proof.
  exists a, []. split; [reflexivity|]. intros w. now rewrite after_nil.
Qed.

Lemma oblivious_lift {A} (o : outcome A) : oblivious (lift o).
Proof.
  exists o, []. split; [reflexivity|]. intros w. now rewrite after_nil.
Qed.

Lemma oblivious_raise {A} (e : exn) : oblivious (@raise A e).
Proof. apply (oblivious_lift (Raise e)). Qed.

Lemma safe_emit (e : event) : is_local e = true -> safe (emit e).
Proof.
  intros H. exists tt, [e]. split; [simpl; now rewrite H|]. intros w. reflexivity.
Qed.

Lemma safe_print (m : message) : safe (print m).
Proof. now apply safe_emit. Qed.

Lemma oblivious_bind {A B} (c : M A) (k : A -> M B) :
  oblivious c -> (forall a, oblivious (k a)) -> oblivious (bind c k).
Proof.
  intros (o & evs & H & E) Hk. destruct o as [a|e].
  - destruct (Hk a) as (o' & evs' & H' & E').
    exists o', (evs ++ evs')%list. split.
    + rewrite forallb_app, H, H'. reflexivity.
    + intros w. unfold bind. rewrite E, E'. now rewrite after_after.
  - exists (Raise e), evs. split; [exact H|].
    intros w. unfold bind. now rewrite E.
Qed.

Lemma safe_bind {A B} (c : M A) (k : A -> M B) :
  safe c -> (forall a, safe (k a)) -> safe (bind c k).
Proof.
  intros (a & evs & H & E) Hk.
  destruct (Hk a) as (b & evs' & H' & E').
  exists b, (evs ++ evs')%list. split.
  - rewrite forallb_app, H, H'. reflexivity.
  - intros w. unfold bind. rewrite E, E'. now rewrite after_after.
Qed.

Lemma safe_try_except {A} (c : M A) (h : exn -> M A) :
  oblivious c -> (forall e, safe (h e)) -> safe (try_except c h).
Proof.
  intros (o & evs & H & E) Hh. destruct o as [a|e].
  - exists a, evs. split; [exact H|].
    intros w. unfold try_except. now rewrite E.
  - destruct (Hh e) as (b & evs' & H' & E').
    exists b, (evs ++ evs')%list. split.
    + rewrite forallb_app, H, H'. reflexivity.
    + intros w. unfold try_except. rewrite E, E'. now rewrite after_after.
Qed.

Lemma safe_for {A S} (body : A -> S -> M S) (l : list A) :
  (forall x s, safe (body x s)) -> forall s, safe (for_ l body s).
Proof.
  intros Hb. induction l as [|x l IH]; intros s; simpl.
  - apply safe_ret.
  - apply safe_bind; [apply Hb|]. intros s'. apply IH.
Qed.

(* ================================================================== *)
(** * The extractors leave the database alone and do not raise *)

Ltac obl_step :=
  match goal with
  | |- oblivious (bind _ _) => apply oblivious_bind; [|intro]
  | |- oblivious (ret _) => apply safe_oblivious, safe_ret
  | |- oblivious (raise _) => apply oblivious_raise
  | |- oblivious (lift _) => apply oblivious_lift
  | |- oblivious (print _) => apply safe_oblivious, safe_print
  | |- oblivious (emit _) => apply safe_oblivious, safe_emit; reflexivity
  | |- oblivious (if ?b then _ else _) => destruct b
  | |- oblivious (match ?x with _ => _ end) => destruct x
  end.

Ltac obl := repeat obl_step.

Lemma oblivious_getattr {A} (name : string) (v : option A) : oblivious (getattr name v).
Proof. unfold getattr. obl. Qed.

Lemma oblivious_tuple_item (t : list float) (i : nat) : oblivious (tuple_item t i).
Proof. unfold tuple_item. obl. Qed.

Lemma oblivious_to_decimal (sign : Z) (t : list float) : oblivious (to_decimal sign t).
Proof. unfold to_decimal. obl; apply oblivious_tuple_item. Qed.

Lemma oblivious_getitem (v : json) (k : string) : oblivious (getitem v k).
Proof. unfold getitem. obl. Qed.

Lemma oblivious_contains (k : string) (v : json) : oblivious (contains k v).
Proof. unfold contains. obl. Qed.

Lemma oblivious_re_match (r : Re.regex) (v : json) : oblivious (re_match r v).
Proof. unfold re_match. obl. Qed.

Lemma oblivious_group (m : list string) (i : nat) : oblivious (group m i).
Proof. unfold group. obl. Qed.

Lemma safe_handler (m : message) : safe (print m ;; ret (@None gps)).
Proof. apply safe_bind; [apply safe_print|]. intros _. apply safe_ret. Qed.

Lemma photo_safe (photo_path : string) (f : file_content) :
  safe (extract_gps_metadata_from_photo photo_path f).
Proof.
  unfold extract_gps_metadata_from_photo.
  apply safe_try_except; [|intros e; apply safe_handler].
  unfold open_image.
  obl; try apply oblivious_getattr; apply oblivious_to_decimal.
Qed.

Lemma video_safe (video_path : string) (f : file_content) :
  safe (extract_gps_metadata_from_video video_path f).
Proof.
  unfold extract_gps_metadata_from_video.
  apply safe_try_except; [|intros e; apply safe_handler].
  unfold run_ffprobe.
  apply oblivious_bind; [obl|]. intros metadata.
  apply oblivious_bind; [apply oblivious_getitem|]. intros format.
  apply oblivious_bind; [apply oblivious_contains|]. intros [|]; [|obl].
  apply oblivious_bind; [apply oblivious_getitem|]. intros format'.
  apply oblivious_bind; [apply oblivious_getitem|]. intros tags.
  apply oblivious_bind; [apply oblivious_contains|]. intros [|]; [|obl].
  apply oblivious_bind; [apply oblivious_getitem|]. intros location.
  apply oblivious_bind; [apply oblivious_re_match|]. intros [mo|]; [|obl].
  apply oblivious_bind; [apply oblivious_group|]. intros g1.
  apply oblivious_bind; [apply oblivious_lift|]. intros lat.
  apply oblivious_bind; [apply oblivious_group|]. intros g2.
  apply oblivious_bind; [apply oblivious_lift|]. intros lon.
  obl.
Qed.

Lemma process_file_safe (mission_id : Z) (root : string)
    (file : string * file_content) (data : list media) :
  safe (process_file mission_id root file data).
Proof.
  unfold process_file. destruct file as [name content].
  destruct (Py.endswith_any (Py.lower name) photo_suffixes).
  - apply safe_bind; [apply photo_safe|].
    intros [[[lat lon] alt]|]; apply safe_ret.
  - destruct (Py.endswith_any (Py.lower name) video_suffixes).
    + apply safe_bind; [apply video_safe|].
      intros [[[lat lon] alt]|]; apply safe_ret.
    + apply safe_ret.
Qed.

Lemma collect_media_safe (mission_id : Z) (mission_path : string) (mission_dir : node) :
  safe (collect_media mission_id mission_path mission_dir).
Proof.
  unfold collect_media. apply safe_for.
  intros [[root dirs] files] data. apply safe_for.
  intros file data'. apply process_file_safe.
Qed.

(** The walk returns [mission_data] and logs [mission_events], from
    every state. *)
Lemma collect_media_run (mission_id : Z) (mission_path : string)
    (mission_dir : node) (w : world) :
  collect_media mission_id mission_path mission_dir w
  = (Ok (mission_data mission_id mission_path mission_dir),
     after w (mission_events mission_id mission_path mission_dir)).
Proof.
  destruct (collect_media_safe mission_id mission_path mission_dir)
    as (a & evs & _ & E).
  unfold mission_data, mission_events. rewrite !E. reflexivity.
Qed.

Lemma mission_events_local (mission_id : Z) (mission_path : string) (mission_dir : node) :
  forallb is_local (mission_events mission_id mission_path mission_dir) = true.
Proof.
  destruct (collect_media_safe mission_id mission_path mission_dir)
    as (a & evs & H & E).
  unfold mission_events. rewrite E. exact H.
Qed.

(* ================================================================== *)
(** * The photo extractor *)







(* ================================================================== *)
(** * Strings *)





(* ================================================================== *)
(** * The matcher against the words a pattern denotes *)






(* ================================================================== *)
(** * [float] on a signed decimal *)





(* ================================================================== *)
(** * The video extractor *)

Arguments Re.match_ : simpl never.
Arguments Py.float : simpl never.










(* ================================================================== *)
(** * Suffixes and extensions *)

Lemma endswith_iff (s suffix : string) :
  Py.endswith s suffix = true <-> exists pre, s = pre ++ suffix.
Proof.
  induction s as [|c s IH].
  - cbn [Py.endswith]. destruct (String.eqb_spec "" suffix) as [<-|Hn].
    + split; [intros _; now exists ""|intros _; reflexivity].
    + split; [destruct ("" =? suffix)%string; discriminate|].
      intros ([|c pre] & E); simpl in E.
      * now subst.
      * discriminate.
  - cbn [Py.endswith]. destruct (String.eqb_spec (String c s) suffix) as [<-|Hn].
    + split; [intros _; now exists ""|intros _; reflexivity].
    + rewrite IH. split.
      * intros (pre & ->). now exists (String c pre).
      * intros ([|c' pre] & E); simpl in E.
        -- now subst.
        -- inversion E. now exists pre.
Qed.

Lemma extension_app (pre e : string) :
  extension e = None -> extension (pre ++ String "." e) = Some e.
Proof.
  intros He. induction pre as [|c pre IH]; simpl.
  - now rewrite He.
  - now rewrite IH.
Qed.

Lemma extension_inv (s e : string) :
  extension s = Some e -> exists pre, s = pre ++ String "." e.
Proof.
  revert e. induction s as [|c s IH]; simpl; intros e H; [discriminate|].
  destruct (extension s) as [e'|] eqn:E.
  - inversion H; subst. destruct (IH e eq_refl) as (pre & ->).
    now exists (String c pre).
  - destruct (Ascii.eqb_spec c ".") as [->|]; [|discriminate].
    inversion H; subst. now exists "".
Qed.

Lemma endswith_extension (s e0 : string) :
  extension e0 = None ->
  Py.endswith s (String "." e0)
  = match extension s with
    | Some e => String.eqb e e0
    | None => false
    end.
Proof.
  intros He0. apply eq_true_iff_eq. rewrite endswith_iff. split.
  - intros (pre & ->). rewrite (extension_app pre e0 He0). apply String.eqb_refl.
  - destruct (extension s) as [e|] eqn:E; [|discriminate].
    intros H. apply String.eqb_eq in H. subst e. now apply extension_inv.
Qed.

Lemma photo_suffixes_extension (s : string) :
  Py.endswith_any s photo_suffixes
  = match extension s with
    | Some e => mem e photo_extensions
    | None => false
    end.
Proof.
  unfold Py.endswith_any, photo_suffixes, mem, photo_extensions. cbn [existsb].
  rewrite !endswith_extension by reflexivity.
  destruct (extension s); reflexivity.
Qed.

Lemma video_suffixes_extension (s : string) :
  Py.endswith_any s video_suffixes
  = match extension s with
    | Some e => mem e video_extensions
    | None => false
    end.
Proof.
  unfold Py.endswith_any, video_suffixes, mem, video_extensions. cbn [existsb].
  rewrite !endswith_extension by reflexivity.
  destruct (extension s); reflexivity.
Qed.

(* ================================================================== *)
(** * The insert *)


Lemma insert_one_keeps (t : table) (v : values) (p : string) :
  path_taken t p = true -> path_taken (insert_one t v) p = true.
Proof.
  intros H. unfold insert_one.
  destruct (path_taken t (v_full_path v)) eqn:E.
  - exact H.
  - unfold path_taken in *. simpl. rewrite existsb_app, H. reflexivity.
Qed.

Lemma insert_one_takes (t : table) (v : values) :
  path_taken (insert_one t v) (v_full_path v) = true.
Proof.
  unfold insert_one.
  destruct (path_taken t (v_full_path v)) eqn:E.
  - exact E.
  - unfold path_taken. simpl. rewrite existsb_app. simpl.
    rewrite String.eqb_refl. now rewrite orb_true_r.
Qed.

Lemma insert_keeps (vs : list values) :
  forall t p, path_taken t p = true ->
              path_taken (insert_on_conflict_do_nothing t vs) p = true.
Proof.
  unfold insert_on_conflict_do_nothing.
  induction vs as [|v vs IH]; intros t p H; simpl; [exact H|].
  apply IH. now apply insert_one_keeps.
Qed.

Lemma insert_takes (vs : list values) :
  forall t v, In v vs ->
              path_taken (insert_on_conflict_do_nothing t vs) (v_full_path v) = true.
Proof.
  unfold insert_on_conflict_do_nothing.
  induction vs as [|v0 vs IH]; intros t v H; simpl; [contradiction|].
  destruct H as [->|H].
  - apply (insert_keeps vs). apply insert_one_takes.
  - now apply IH.
Qed.


Lemma insert_app (t : table) (vs1 vs2 : list values) :
  insert_on_conflict_do_nothing t (vs1 ++ vs2)
  = insert_on_conflict_do_nothing (insert_on_conflict_do_nothing t vs1) vs2.
Proof. unfold insert_on_conflict_do_nothing. apply fold_left_app. Qed.

(* ================================================================== *)
(** * The pages of [execute_values] *)

Lemma paginate_fuel_concat {A} (n : nat) :
  (0 < n)%nat ->
  forall fuel (l : list A),
    (List.length l <= fuel)%nat -> List.concat (paginate_fuel fuel n l) = l.
Proof.
  intros Hn. induction fuel as [|fuel IH]; intros l Hl.
  - destruct l; [reflexivity|simpl in Hl; lia].
  - destruct l as [|x l]; [reflexivity|].
    cbn [paginate_fuel List.concat]. rewrite IH.
    + apply firstn_skipn.
    + rewrite length_skipn.
      change (List.length (x :: l)) with (S (List.length l)) in *. lia.
Qed.

Lemma paginate_concat {A} (n : nat) (l : list A) :
  (0 < n)%nat -> List.concat (paginate n l) = l.
Proof. intros Hn. unfold paginate. now apply paginate_fuel_concat. Qed.

Lemma execute_insert_run (vs : list values) (w : world) (t : table) :
  drone_mission (db w) = Some t ->
  execute_insert vs w
  = (Ok tt, {| db := with_table (db w) (insert_on_conflict_do_nothing t vs);
               log := (log w ++ [EvExecute (SqlInsert vs)])%list |}).
Proof.
  intros Ht. unfold execute_insert, bind, emit, get_db, put_db. simpl.
  rewrite Ht. reflexivity.
Qed.

Lemma execute_pages_run (pages : list (list values)) :
  forall (w : world) (t : table),
    drone_mission (db w) = Some t ->
    for_ pages (fun page _ => execute_insert page) tt w
    = (Ok tt,
       {| db := with_table (db w) (insert_on_conflict_do_nothing t (List.concat pages));
          log := (log w ++ map (fun page => EvExecute (SqlInsert page)) pages)%list |}).
Proof.
  induction pages as [|page pages IH]; intros w t Ht.
  - simpl. unfold ret, with_table. rewrite app_nil_r.
    destruct w as [[ms tb] lg]. simpl in *. now subst.
  - cbn [for_]. unfold bind. rewrite (execute_insert_run page w t Ht).
    rewrite (IH _ (insert_on_conflict_do_nothing t page)) by reflexivity.
    simpl. rewrite insert_app, <- app_assoc. reflexivity.
Qed.

Lemma execute_values_run (vs : list values) (w : world) (t : table) :
  drone_mission (db w) = Some t ->
  execute_values vs w
  = (Ok tt,
     {| db := with_table (db w) (insert_on_conflict_do_nothing t vs);
        log := (log w ++ map (fun page => EvExecute (SqlInsert page))
                             (paginate 100 vs))%list |}).
Proof.
  intros Ht. unfold execute_values. rewrite (execute_pages_run _ w t Ht).
  rewrite paginate_concat by lia. reflexivity.
Qed.

(* ================================================================== *)
(** * One mission *)

Arguments paginate : simpl never.
Arguments insert_on_conflict_do_nothing : simpl never.

Lemma with_table_same (d : database) (t : table) :
  drone_mission d = Some t -> with_table d t = d.
Proof. destruct d as [ms tb]. simpl. intros ->. reflexivity. Qed.

Lemma mission_not_found (mission_name mission_path : string) (mission_dir : node)
    (w : world) :
  select_mission_id (db w) mission_name = None ->
  process_mission_media mission_name mission_path mission_dir w
  = (Raise (ValueError (not_found_message mission_name)),
     after w [EvExecute (SqlSelectMission mission_name)]).
Proof.
  intros Hs.
  unfold process_mission_media, execute_select, bind, emit, get_db, ret, raise.
  simpl. rewrite Hs. reflexivity.
Qed.

Lemma mission_found_empty (mission_name mission_path : string) (mission_dir : node)
    (w : world) (i : Z) :
  select_mission_id (db w) mission_name = Some i ->
  mission_data i mission_path mission_dir = [] ->
  process_mission_media mission_name mission_path mission_dir w
  = (Ok tt, after w (found_log mission_name i mission_path mission_dir)).
Proof.
  intros Hs Hd.
  unfold process_mission_media, execute_select, bind, emit, get_db, ret, raise.
  simpl. rewrite Hs. rewrite collect_media_run.
  unfold found_log. rewrite Hd. simpl.
  unfold print, emit, after. simpl.
  rewrite <- !app_assoc. reflexivity.
Qed.

Lemma mission_found (mission_name mission_path : string) (mission_dir : node)
    (w : world) (i : Z) (t : table) :
  select_mission_id (db w) mission_name = Some i ->
  drone_mission (db w) = Some t ->
  process_mission_media mission_name mission_path mission_dir w
  = (Ok tt,
     {| db := with_table (db w)
                (insert_on_conflict_do_nothing t
                   (map to_values (mission_data i mission_path mission_dir)));
        log := (log w ++ found_log mission_name i mission_path mission_dir)%list |}).
Proof.
  intros Hs Ht.
  destruct (mission_data i mission_path mission_dir) as [|m data] eqn:Hd.
  - rewrite (mission_found_empty _ _ _ _ i Hs Hd).
    unfold after. simpl.
    change (insert_on_conflict_do_nothing t []) with t.
    now rewrite (with_table_same _ _ Ht).
  - unfold process_mission_media, execute_select, bind, emit, get_db, ret, raise.
    simpl. rewrite Hs. rewrite collect_media_run. rewrite Hd.
    rewrite (execute_values_run _ _ t) by exact Ht.
    unfold found_log. rewrite Hd.
    unfold print, emit, after, insert_events. simpl.
    rewrite <- !app_assoc. simpl. rewrite <- ?app_assoc. reflexivity.
Qed.




(* ================================================================== *)
(** * The loop over the base folder *)

Lemma process_entry_skip (base_folder : string) (entry : string * node) (w : world) :
  is_mission_folder entry = false -> process_entry base_folder entry w = (Ok tt, w).
Proof.
  destruct entry as [mission child]. unfold is_mission_folder, process_entry.
  simpl. destruct child; simpl.
  - reflexivity.
  - unfold Py.startswith. now intros ->.
Qed.

Lemma process_entry_mission (base_folder : string) (entry : string * node) (w : world) :
  is_mission_folder entry = true ->
  process_entry base_folder entry w
  = (print (MsgProcessingMission (fst entry)) ;;
     process_mission_media (fst entry) (Py.join base_folder (fst entry)) (snd entry)) w.
Proof.
  destruct entry as [mission child]. unfold is_mission_folder, process_entry.
  simpl. destruct child; simpl.
  - discriminate.
  - unfold Py.startswith. now intros ->.
Qed.

Lemma loop_cons (base_folder : string) (e : string * node)
    (es : list (string * node)) (w : world) :
  mission_loop base_folder (e :: es) w
  = match process_entry base_folder e w with
    | (Ok _, w') => mission_loop base_folder es w'
    | (Raise x, w') => (Raise x, w')
    end.
Proof.
  unfold mission_loop. cbn [for_]. unfold bind.
  destruct (process_entry base_folder e w) as [[[]|x] w']; reflexivity.
Qed.

Lemma world_eta (w : world) : {| db := db w; log := log w |} = w.
Proof. now destruct w. Qed.

Lemma process_entry_plan (base_folder : string) (e : string * node)
    (w : world) (t : table) :
  drone_mission (db w) = Some t ->
  exists evs,
    process_entry base_folder e w
    = (fst (entry_plan base_folder (db w) e),
       {| db := with_table (db w)
                  (insert_on_conflict_do_nothing t
                     (map to_values (snd (entry_plan base_folder (db w) e))));
          log := (log w ++ evs)%list |}).
Proof.
  intros Ht. unfold entry_plan.
  destruct (is_mission_folder e) eqn:Hm.
  - rewrite (process_entry_mission _ _ _ Hm).
    unfold bind, print. rewrite emit_after.
    destruct (select_mission_id (db w) (fst e)) as [i|] eqn:Hs.
    + eexists.
      rewrite (mission_found _ _ _ (after w _) i t) by (simpl; assumption).
      simpl. rewrite <- app_assoc. reflexivity.
    + eexists. rewrite mission_not_found by (simpl; assumption).
      rewrite after_after. simpl.
      change (insert_on_conflict_do_nothing t []) with t.
      rewrite (with_table_same _ _ Ht). reflexivity.
  - exists []. rewrite (process_entry_skip _ _ _ Hm). simpl.
    change (insert_on_conflict_do_nothing t []) with t.
    rewrite (with_table_same _ _ Ht), app_nil_r, world_eta. reflexivity.
Qed.

Lemma loop_plan_with_table (base_folder : string) (d : database) (t : table)
    (es : list (string * node)) :
  loop_plan base_folder (with_table d t) es = loop_plan base_folder d es.
Proof.
  induction es as [|e es IH]; simpl; [reflexivity|].
  change (entry_plan base_folder (with_table d t) e)
    with (entry_plan base_folder d e).
  now rewrite IH.
Qed.

Lemma loop_run (base_folder : string) (es : list (string * node)) :
  forall (w : world) (t : table),
    drone_mission (db w) = Some t ->
    exists evs,
      mission_loop base_folder es w
      = (fst (loop_plan base_folder (db w) es),
         {| db := with_table (db w)
                    (insert_on_conflict_do_nothing t
                       (map to_values (snd (loop_plan base_folder (db w) es))));
            log := (log w ++ evs)%list |}).
Proof.
  induction es as [|e es IH]; intros w t Ht.
  - exists []. unfold mission_loop. simpl. unfold ret.
    change (insert_on_conflict_do_nothing t []) with t.
    rewrite (with_table_same _ _ Ht), app_nil_r, world_eta. reflexivity.
  - rewrite loop_cons.
    destruct (process_entry_plan base_folder e w t Ht) as (evs1 & E1).
    rewrite E1. cbn [loop_plan].
    destruct (entry_plan base_folder (db w) e) as [[[]|x] data]; cbn [fst snd].
    + match goal with
      | |- context [mission_loop base_folder es ?w1] =>
          destruct (IH w1 (insert_on_conflict_do_nothing t (map to_values data))
                      eq_refl) as (evs2 & E2);
          rewrite E2
      end.
      cbn [db log]. rewrite loop_plan_with_table.
      destruct (loop_plan base_folder (db w) es) as [o more]. cbn [fst snd].
      exists (evs1 ++ evs2)%list.
      rewrite map_app, insert_app, app_assoc. reflexivity.
    + exists evs1. reflexivity.
Qed.

Lemma process_all_run (base_folder : string) (entries : list (string * node))
    (w : world) :
  process_all base_folder (Dir entries) w
  = match mission_loop base_folder entries (connected w) with
    | (Ok _, w2) => (Ok tt, after w2 [EvClose; EvPrint MsgComplete])
    | (Raise x, w2) => (Raise x, w2)
    end.
Proof.
  assert (Hc : (connect_to_postgis ;; create_drone_mission_table) w
               = (Ok tt, connected w)).
  { unfold connect_to_postgis, create_drone_mission_table, print, bind, emit,
      get_db, put_db, ret, connected, table_or_fresh, with_table. simpl.
    destruct (drone_mission (db w)) as [t|] eqn:Ht; simpl.
    - rewrite <- !app_assoc. simpl.
      destruct w as [[ms tb] lg]. simpl in *. now subst.
    - rewrite <- !app_assoc. reflexivity. }
  unfold process_all, bind in *.
  destruct (connect_to_postgis w) as [[[]|x] w0]; [|discriminate].
  rewrite Hc. cbn [listdir ret].
  fold (mission_loop base_folder entries).
  destruct (mission_loop base_folder entries (connected w)) as [[[]|x] w2].
  - unfold print, emit, after. simpl. now rewrite <- app_assoc.
  - reflexivity.
Qed.

Lemma process_all_file (base_folder : string) (f : file_content) (w : world) :
  process_all base_folder (File f) w = (Raise OSError, connected w).
Proof.
  unfold process_all, connect_to_postgis, create_drone_mission_table, print,
    bind, emit, get_db, put_db, ret, connected, table_or_fresh, with_table.
  simpl. destruct (drone_mission (db w)) as [t|] eqn:Ht; simpl.
  - rewrite <- !app_assoc. simpl.
    destruct w as [[ms tb] lg]. simpl in *. now subst.
  - rewrite <- !app_assoc. reflexivity.
Qed.

(** What a run does to the database: the table, created if it was not
    there, receives the records of the plan. *)
Lemma process_all_db (base_folder : string) (entries : list (string * node))
    (w : world) :
  exists evs,
    process_all base_folder (Dir entries) w
    = (fst (loop_plan base_folder (db w) entries),
       {| db := with_table (db w)
                  (insert_on_conflict_do_nothing (table_or_fresh (db w))
                     (map to_values (snd (loop_plan base_folder (db w) entries))));
          log := (log w ++ evs)%list |}).
Proof.
  rewrite process_all_run.
  destruct (loop_run base_folder entries (connected w) (table_or_fresh (db w)) eq_refl)
    as (evs & E).
  rewrite E. cbn [connected db log]. rewrite loop_plan_with_table.
  destruct (loop_plan base_folder (db w) entries) as [[[]|x] data]; cbn [fst snd].
  - eexists. unfold after. cbn [db log]. rewrite <- !app_assoc. reflexivity.
  - eexists. rewrite <- !app_assoc. reflexivity.
Qed.

(* ================================================================== *)
(** * Runs on the sample folder *)

Example sample_photo_values :
  fst (extract_gps_metadata_from_photo "DJI_0001.JPG" sample_photo sample_world)
  = Ok (Some (36.053077777777773%float, (-8.5)%float, Some 120.5%float)).
Proof. vm_compute. reflexivity. Qed.

Example sample_classes :
  map classify ["DJI_0001.JPG"; "clip.MoV"; "notes.txt"; "a.jpg.bak";
                "a.tar.jpeg"; "x.mkv"; "README"; "jpg"]
  = [Photo; Video; Ignored; Ignored; Photo; Video; Ignored; Ignored].
Proof. reflexivity. Qed.

Example sample_run :
  let w1 := snd (process_all "/data" sample_base sample_world) in
  fst (process_all "/data" sample_base sample_world) = Ok tt
  /\ map (fun r => (id r, full_path r, media_type r, mission_id r))
         (table_rows (db w1))
     = [(1, "/data/Mission1/DJI_0001.JPG", "photo", 7);
        (2, "/data/Mission1/clips/DJI_0002.mp4", "video", 7);
        (3, "/data/Mission2/DJI_0004.png", "photo", 9)]%Z
  /\ option_map next_id (drone_mission (db w1)) = Some 4%Z.
Proof. vm_compute. repeat split; reflexivity. Qed.

Example sample_second_run :
  let w1 := snd (process_all "/data" sample_base sample_world) in
  let w2 := snd (process_all "/data" sample_base w1) in
  table_rows (db w2) = table_rows (db w1)
  /\ option_map next_id (drone_mission (db w2)) = Some 7%Z.
Proof. vm_compute. split; reflexivity. Qed.

Example sample_abort :
  process_all "/data" sample_base world_without_missions
  = (Raise (ValueError "Mission 'Mission1' not found in the `missoes` table."),
     {| db := {| missoes := [];
                 drone_mission := Some {| rows := []; next_id := 1 |} |};
        log := [EvPrint MsgConnected; EvExecute SqlCreateTable; EvCommit;
                EvPrint MsgTableReady; EvPrint (MsgProcessingMission "Mission1");
                EvExecute (SqlSelectMission "Mission1")] |}).
Proof. vm_compute. reflexivity. Qed.

(* ================================================================== *)
(** * The connection *)

(** X1: when the configuration is an object that lacks one of the five
    keys, [connect_to_postgis] raises [KeyError] for the first one
    missing in the order host, port, database, user, password, whatever
    the server would answer, and nothing is printed. *)
Theorem config_missing_key
    (items : list (string * json)) (server : Config.params -> outcome unit)
    (k : string) (w : world) :
  first_missing config_keys items = Some k ->
  Config.connect_to_postgis (Ok (JObject items)) server w = (Raise (KeyError k), w).
Proof.
  unfold config_keys, Config.connect_to_postgis, bind, lift, getitem, ret, raise.
  cbn [first_missing].
  destruct (assoc "host" items); [|intros H; inversion H; reflexivity].
  destruct (assoc "port" items); [|intros H; inversion H; reflexivity].
  destruct (assoc "database" items); [|intros H; inversion H; reflexivity].
  destruct (assoc "user" items); [|intros H; inversion H; reflexivity].
  destruct (assoc "password" items); [|intros H; inversion H; reflexivity].
  discriminate.
Qed.

Lemma config_missing_key_witness :
  Config.connect_to_postgis (Ok (JObject config_without_user)) accepting_server
    sample_world
  = (Raise (KeyError "user"), sample_world).
Proof.
  exact (config_missing_key config_without_user accepting_server "user"
           sample_world eq_refl).
Defined.

Lemma connect_outcomes (config_file : outcome json)
    (server : Config.params -> outcome unit) (w : world) :
  Config.connect_to_postgis config_file server w = (Ok tt, after w [EvPrint MsgConnected])
  \/ exists e, Config.connect_to_postgis config_file server w = (Raise e, w).
Proof.
  unfold Config.connect_to_postgis, bind, lift, getitem, ret, raise, print, emit.
  destruct config_file as [config|e]; [|right; now exists e].
  destruct config as [| | | | | |items]; try (right; eexists; reflexivity).
  destruct (assoc "host" items); [|right; eexists; reflexivity].
  destruct (assoc "port" items); [|right; eexists; reflexivity].
  destruct (assoc "database" items); [|right; eexists; reflexivity].
  destruct (assoc "user" items); [|right; eexists; reflexivity].
  destruct (assoc "password" items); [|right; eexists; reflexivity].
  match goal with |- context [server ?p] => destruct (server p) as [[]|e] end.
  - left. reflexivity.
  - right. now exists e.
Qed.

Lemma connect_accepted (items : list (string * json))
    (server : Config.params -> outcome unit) (w : world) :
  first_missing config_keys items = None ->
  (forall p, server p = Ok tt) ->
  Config.connect_to_postgis (Ok (JObject items)) server w
  = (Ok tt, after w [EvPrint MsgConnected]).
Proof.
  unfold config_keys, Config.connect_to_postgis, bind, lift, getitem, ret, raise,
    print, emit.
  cbn [first_missing]. intros H Hs.
  destruct (assoc "host" items); [|discriminate].
  destruct (assoc "port" items); [|discriminate].
  destruct (assoc "database" items); [|discriminate].
  destruct (assoc "user" items); [|discriminate].
  destruct (assoc "password" items); [|discriminate].
  rewrite Hs. reflexivity.
Qed.

(** X2: a run whose connection cannot be made (unreadable or malformed
    configuration, missing key, server refusing) ends with that
    exception and has no effect at all: no table is created, nothing is
    listed.  With the five keys present and a server that accepts, the
    run is the run of [process_all] on an established connection. *)
Theorem connection_failure_stops_run :
  (forall base_folder base config_file server w e,
      fst (Config.connect_to_postgis config_file server w) = Raise e ->
      Config.process_all base_folder base config_file server w = (Raise e, w))
  /\ (forall base_folder base items server w,
         first_missing config_keys items = None ->
         (forall p, server p = Ok tt) ->
         Config.process_all base_folder base (Ok (JObject items)) server w
         = process_all base_folder base w).
Proof.
  split.
  - intros base_folder base config_file server w e H.
    unfold Config.process_all, bind.
    destruct (connect_outcomes config_file server w) as [E|(e' & E)];
      rewrite E in *; simpl in H; [discriminate|].
    inversion H. reflexivity.
  - intros base_folder base items server w Hk Hs.
    unfold Config.process_all, process_all, connect_to_postgis, bind.
    rewrite (connect_accepted items server w Hk Hs).
    reflexivity.
Qed.

Lemma connection_failure_stops_run_witness :
  Config.process_all "/data" sample_base (Ok (JObject sample_config))
    accepting_server sample_world
  = process_all "/data" sample_base sample_world.
Proof.
  exact (proj2 connection_failure_stops_run "/data" sample_base sample_config
           accepting_server sample_world eq_refl (fun p => eq_refl)).
Defined.

(* ================================================================== *)
(** * What an insert keeps *)

Lemma path_taken_In (t : table) (p : string) :
  path_taken t p = true <-> In p (paths (rows t)).
Proof.
  unfold path_taken, paths. rewrite existsb_exists, in_map_iff. split.
  - intros (r & Hr & E). apply String.eqb_eq in E. now exists r.
  - intros (r & E & Hr). exists r. split; [exact Hr|]. now apply String.eqb_eq.
Qed.

Lemma insert_one_nodup (t : table) (v : values) :
  NoDup (paths (rows t)) -> NoDup (paths (rows (insert_one t v))).
Proof.
  intros H. unfold insert_one. simpl.
  destruct (path_taken t (v_full_path v)) eqn:E; [exact H|].
  unfold paths. rewrite map_app. simpl.
  apply NoDup_app; [exact H|repeat constructor; intros []|].
  intros p Hp [<-|[]].
  apply path_taken_In in Hp. congruence.
Qed.

Lemma insert_nodup (vs : list values) :
  forall t, NoDup (paths (rows t)) ->
            NoDup (paths (rows (insert_on_conflict_do_nothing t vs))).
Proof.
  unfold insert_on_conflict_do_nothing.
  induction vs as [|v vs IH]; intros t H; simpl; [exact H|].
  apply IH. now apply insert_one_nodup.
Qed.

(** Whatever the base folder, a run leaves [missoes] alone and applies
    one insert to the table, created if it was not there. *)
Lemma process_all_table (base_folder : string) (base : node) (w : world) :
  exists vs,
    db (snd (process_all base_folder base w))
    = with_table (db w)
        (insert_on_conflict_do_nothing (table_or_fresh (db w)) vs)
    /\ match base with
       | Dir entries =>
           vs = map to_values (snd (loop_plan base_folder (db w) entries))
       | File _ => vs = []
       end.
Proof.
  destruct base as [f|entries].
  - exists []. rewrite process_all_file. split; reflexivity.
  - destruct (process_all_db base_folder entries w) as (evs & E).
    eexists. rewrite E. split; reflexivity.
Qed.

Lemma table_rows_fresh (d : database) : table_rows d = rows (table_or_fresh d).
Proof. unfold table_rows, table_or_fresh. now destruct (drone_mission d). Qed.

(** X5: a run keeps the paths of [drone_mission] distinct: the
    [UNIQUE] constraint on [full_path] is never broken. *)
Theorem run_keeps_paths_unique (base_folder : string) (base : node) (w : world) :
  NoDup (paths (table_rows (db w))) ->
  NoDup (paths (table_rows (db (snd (process_all base_folder base w))))).
Proof.
  intros H. destruct (process_all_table base_folder base w) as (vs & E & _).
  rewrite E. unfold table_rows at 1. cbn [with_table drone_mission].
  apply insert_nodup. now rewrite <- table_rows_fresh.
Qed.

Lemma run_keeps_paths_unique_witness :
  NoDup (paths (table_rows (db (snd (process_all "/data" sample_base sample_world))))).
Proof.
  apply (run_keeps_paths_unique "/data" sample_base sample_world).
  simpl. constructor.
Defined.

(* ================================================================== *)
(** * The rows of a run *)

Lemma loop_plan_covers (base_folder : string) (d : database)
    (es : list (string * node)) (e : string * node) (m : media) :
  fst (loop_plan base_folder d es) = Ok tt ->
  In e es -> is_mission_folder e = true ->
  exists i,
    select_mission_id d (fst e) = Some i
    /\ (In m (mission_data i (Py.join base_folder (fst e)) (snd e)) ->
        In m (snd (loop_plan base_folder d es))).
Proof.
  intros Hok Hin Hm. induction es as [|e0 es IH]; [contradiction|].
  simpl in Hok |- *. unfold entry_plan in Hok |- *.
  destruct (is_mission_folder e0) eqn:Hm0.
  - destruct (select_mission_id d (fst e0)) as [i0|] eqn:Hs0; [|discriminate].
    destruct (loop_plan base_folder d es) as [o more]. simpl in *.
    destruct Hin as [->|Hin].
    + exists i0. split; [exact Hs0|]. intros H. apply in_or_app. now left.
    + destruct (IH Hok Hin) as (i & Hs & H). exists i. split; [exact Hs|].
      intros H'. apply in_or_app. right. now apply H.
  - destruct (loop_plan base_folder d es) as [o more]. simpl in *.
    destruct Hin as [->|Hin]; [congruence|].
    destruct (IH Hok Hin) as (i & Hs & H). exists i. auto.
Qed.

(** X7: after a run that ends normally, every mission folder was found
    in [missoes], and every record collected in it has its path in
    [drone_mission], inserted by this run or there before. *)
Theorem normal_run_covers_every_record
    (base_folder : string) (entries : list (string * node)) (w : world)
    (e : string * node) :
  fst (process_all base_folder (Dir entries) w) = Ok tt ->
  In e entries -> is_mission_folder e = true ->
  exists i,
    select_mission_id (db w) (fst e) = Some i
    /\ forall m,
         In m (mission_data i (Py.join base_folder (fst e)) (snd e)) ->
         In (m_full_path m)
            (paths (table_rows (db (snd (process_all base_folder (Dir entries) w))))).
Proof.
  intros Hok Hin Hm.
  destruct (process_all_db base_folder entries w) as (evs & E).
  rewrite E in Hok |- *. cbn [fst snd db] in Hok |- *.
  assert (Hi : exists i, select_mission_id (db w) (fst e) = Some i).
  { destruct (loop_plan_covers base_folder (db w) entries e
                (mkMedia "" "" "" 0 0 None 0) Hok Hin Hm) as (i & Hs & _).
    now exists i. }
  destruct Hi as (i & Hs). exists i. split; [exact Hs|].
  intros m Hmd.
  destruct (loop_plan_covers base_folder (db w) entries e m Hok Hin Hm)
    as (i' & Hs' & H).
  rewrite Hs in Hs'. inversion Hs'; subst i'.
  unfold table_rows. cbn [with_table drone_mission].
  apply path_taken_In.
  apply (insert_takes _ _ (to_values m)).
  apply in_map. now apply H.
Qed.

Lemma normal_run_covers_every_record_witness :
  exists i,
    select_mission_id (db sample_world) "Mission1" = Some i
    /\ forall m,
         In m (mission_data i (Py.join "/data" "Mission1") sample_mission) ->
         In (m_full_path m)
            (paths (table_rows
                      (db (snd (process_all "/data" sample_base sample_world))))).
Proof.
  apply (normal_run_covers_every_record "/data"
           [("Mission1", sample_mission);
            ("Backup", Dir [("DJI_0003.jpg", File sample_photo)]);
            ("Mission.txt", File sample_photo);
            ("Mission2", Dir [("DJI_0004.png", File sample_photo)])]
           sample_world ("Mission1", sample_mission)).
  - vm_compute. reflexivity.
  - simpl. left. reflexivity.
  - reflexivity.
Defined.

(* ================================================================== *)
(** * The effects of a run, in full *)

Lemma process_entry_exact (base_folder : string) (e : string * node)
    (w : world) (t : table) :
  drone_mission (db w) = Some t ->
  process_entry base_folder e w
  = (fst (entry_plan base_folder (db w) e),
     {| db := with_table (db w)
                (insert_on_conflict_do_nothing t
                   (map to_values (snd (entry_plan base_folder (db w) e))));
        log := (log w ++ entry_log base_folder (db w) e)%list |}).
Proof.
  intros Ht. unfold entry_plan, entry_log.
  destruct (is_mission_folder e) eqn:Hm.
  - rewrite (process_entry_mission _ _ _ Hm).
    unfold bind, print. rewrite emit_after.
    destruct (select_mission_id (db w) (fst e)) as [i|] eqn:Hs.
    + rewrite (mission_found _ _ _ (after w _) i t) by (simpl; assumption).
      simpl. rewrite <- app_assoc. reflexivity.
    + rewrite mission_not_found by (simpl; assumption).
      rewrite after_after. simpl.
      change (insert_on_conflict_do_nothing t []) with t.
      rewrite (with_table_same _ _ Ht). reflexivity.
  - rewrite (process_entry_skip _ _ _ Hm). simpl.
    change (insert_on_conflict_do_nothing t []) with t.
    rewrite (with_table_same _ _ Ht), app_nil_r, world_eta. reflexivity.
Qed.

Lemma loop_log_with_table (base_folder : string) (d : database) (t : table)
    (es : list (string * node)) :
  loop_log base_folder (with_table d t) es = loop_log base_folder d es.
Proof.
  induction es as [|e es IH]; simpl; [reflexivity|].
  change (entry_plan base_folder (with_table d t) e)
    with (entry_plan base_folder d e).
  change (entry_log base_folder (with_table d t) e)
    with (entry_log base_folder d e).
  now rewrite IH.
Qed.

Lemma loop_exact (base_folder : string) (es : list (string * node)) :
  forall (w : world) (t : table),
    drone_mission (db w) = Some t ->
    mission_loop base_folder es w
    = (fst (loop_plan base_folder (db w) es),
       {| db := with_table (db w)
                  (insert_on_conflict_do_nothing t
                     (map to_values (snd (loop_plan base_folder (db w) es))));
          log := (log w ++ loop_log base_folder (db w) es)%list |}).
Proof.
  induction es as [|e es IH]; intros w t Ht.
  - unfold mission_loop. simpl. unfold ret.
    change (insert_on_conflict_do_nothing t []) with t.
    rewrite (with_table_same _ _ Ht), app_nil_r, world_eta. reflexivity.
  - rewrite loop_cons, (process_entry_exact base_folder e w t Ht).
    cbn [loop_plan loop_log].
    destruct (entry_plan base_folder (db w) e) as [[[]|x] data]; cbn [fst snd].
    + match goal with
      | |- context [mission_loop base_folder es ?w1] =>
          rewrite (IH w1 (insert_on_conflict_do_nothing t (map to_values data))
                     eq_refl)
      end.
      cbn [db log]. rewrite loop_plan_with_table, loop_log_with_table.
      destruct (loop_plan base_folder (db w) es) as [o more]. cbn [fst snd].
      rewrite map_app, insert_app, app_assoc. reflexivity.
    + rewrite app_nil_r. reflexivity.
Qed.

Lemma process_all_exact (base_folder : string) (entries : list (string * node))
    (w : world) :
  process_all base_folder (Dir entries) w
  = (fst (loop_plan base_folder (db w) entries),
     {| db := with_table (db w)
                (insert_on_conflict_do_nothing (table_or_fresh (db w))
                   (map to_values (snd (loop_plan base_folder (db w) entries))));
        log := (log w ++ run_log base_folder (db w) entries)%list |}).
Proof.
  rewrite process_all_run.
  rewrite (loop_exact base_folder entries (connected w) (table_or_fresh (db w)) eq_refl).
  cbn [connected db log]. rewrite loop_plan_with_table, loop_log_with_table.
  unfold run_log.
  destruct (loop_plan base_folder (db w) entries) as [[[]|x] data]; cbn [fst snd].
  - unfold after. cbn [db log]. rewrite <- !app_assoc. reflexivity.
  - rewrite app_nil_r, <- !app_assoc. reflexivity.
Qed.

Lemma lookups_app (a b : list event) :
  lookups (a ++ b) = (lookups a ++ lookups b)%list.
Proof.
  induction a as [|e a IH]; [reflexivity|].
  destruct e as [| | |[]| |]; simpl; now rewrite IH.
Qed.

Lemma closes_app (a b : list event) : closes (a ++ b) = (closes a + closes b)%nat.
Proof.
  induction a as [|e a IH]; [reflexivity|].
  destruct e; simpl; now rewrite IH.
Qed.

Lemma pending_app (a b : list event) :
  forall d, pending d (a ++ b) = pending (pending d a) b.
Proof.
  induction a as [|e a IH]; intros d; [reflexivity|].
  destruct e as [| | |[]| |]; simpl; apply IH.
Qed.

Lemma insert_pages_app (a b : list event) :
  insert_pages (a ++ b) = (insert_pages a ++ insert_pages b)%list.
Proof.
  induction a as [|e a IH]; [reflexivity|].
  destruct e as [| | |[]| |]; simpl; now rewrite IH.
Qed.

Lemma local_events (evs : list event) :
  forallb is_local evs = true ->
  lookups evs = [] /\ closes evs = O /\ insert_pages evs = []
  /\ forall d, pending d evs = d.
Proof.
  induction evs as [|e evs IH]; simpl; [auto|].
  intros H. apply andb_true_iff in H. destruct H as [He H].
  destruct (IH H) as (H1 & H2 & H3 & H4).
  destruct e as [| | |[]| |]; simpl in *; try discriminate; auto.
Qed.

Lemma page_events (pages : list (list values)) :
  let evs := map (fun page => EvExecute (SqlInsert page)) pages in
  lookups evs = [] /\ closes evs = O /\ insert_pages evs = pages.
Proof.
  induction pages as [|p pages (H1 & H2 & H3)]; simpl; [auto|].
  repeat split; try assumption. now f_equal.
Qed.

Lemma insert_events_facts (data : list media) :
  lookups (insert_events data) = []
  /\ closes (insert_events data) = O
  /\ insert_pages (insert_events data) = paginate 100 (map to_values data)
  /\ pending false (insert_events data) = false.
Proof.
  unfold insert_events. destruct data as [|m data]; [repeat split|].
  destruct (page_events (paginate 100 (map to_values (m :: data)))) as (H1 & H2 & H3).
  rewrite lookups_app, closes_app, insert_pages_app, pending_app, H1, H2, H3.
  cbn [lookups closes insert_pages app]. rewrite app_nil_r.
  repeat split.
Qed.

Lemma found_log_facts (mission_name : string) (i : Z) (mission_path : string)
    (mission_dir : node) :
  let evs := found_log mission_name i mission_path mission_dir in
  lookups evs = [mission_name]
  /\ closes evs = O
  /\ insert_pages evs
     = paginate 100 (map to_values (mission_data i mission_path mission_dir))
  /\ pending false evs = false.
Proof.
  cbv zeta. unfold found_log.
  destruct (local_events _ (mission_events_local i mission_path mission_dir))
    as (L1 & L2 & L3 & L4).
  destruct (insert_events_facts (mission_data i mission_path mission_dir))
    as (I1 & I2 & I3 & I4).
  cbn [lookups closes insert_pages pending].
  rewrite !lookups_app, !closes_app, !insert_pages_app, !pending_app.
  rewrite L1, L2, L3, L4, I1, I2, I3, I4. cbn [lookups closes insert_pages pending app].
  rewrite app_nil_r. repeat split.
Qed.

Lemma entry_log_facts (base_folder : string) (d : database) (e : string * node) :
  let evs := entry_log base_folder d e in
  lookups evs = (if is_mission_folder e then [fst e] else [])
  /\ closes evs = O
  /\ pending false evs = false.
Proof.
  cbv zeta. unfold entry_log. destruct (is_mission_folder e); [|repeat split].
  destruct (select_mission_id d (fst e)) as [i|]; [|repeat split].
  destruct (found_log_facts (fst e) i (Py.join base_folder (fst e)) (snd e))
    as (H1 & H2 & _ & H4).
  cbn [lookups closes pending]. auto.
Qed.

Lemma loop_log_facts (base_folder : string) (d : database)
    (es : list (string * node)) :
  let evs := loop_log base_folder d es in
  (exists more, map fst (filter is_mission_folder es) = (lookups evs ++ more)%list)
  /\ (fst (loop_plan base_folder d es) = Ok tt ->
      lookups evs = map fst (filter is_mission_folder es))
  /\ closes evs = O
  /\ pending false evs = false.
Proof.
  cbv zeta. induction es as [|e es (IH1 & IH2 & IH3 & IH4)].
  - simpl. repeat split. now exists [].
  - cbn [loop_log loop_plan filter].
    destruct (entry_log_facts base_folder d e) as (E1 & E2 & E4).
    rewrite lookups_app, closes_app, pending_app, E1, E2, E4.
    unfold entry_plan.
    destruct (is_mission_folder e) eqn:Hm; cbn [map fst snd app].
    + destruct (select_mission_id d (fst e)) as [i|]; cbn [fst snd].
      * destruct (loop_plan base_folder d es) as [o more]. cbn [fst] in *.
        destruct IH1 as (rest & IH1).
        split; [|split; [|split]].
        -- exists rest. now rewrite IH1.
        -- intros H. now rewrite (IH2 H).
        -- exact IH3.
        -- exact IH4.
      * split; [|split; [|split]]; try reflexivity; [|discriminate].
        eexists. reflexivity.
    + destruct (loop_plan base_folder d es) as [o more]. cbn [fst] in *.
      split; [|split; [|split]]; assumption.
Qed.

Lemma run_log_facts (base_folder : string) (d : database)
    (es : list (string * node)) :
  let evs := run_log base_folder d es in
  (exists more, map fst (filter is_mission_folder es) = (lookups evs ++ more)%list)
  /\ (fst (loop_plan base_folder d es) = Ok tt ->
      lookups evs = map fst (filter is_mission_folder es))
  /\ closes evs = match fst (loop_plan base_folder d es) with
                  | Ok _ => 1%nat
                  | Raise _ => O
                  end
  /\ pending false evs = false.
Proof.
  cbv zeta. unfold run_log.
  destruct (loop_log_facts base_folder d es) as (L1 & L2 & L3 & L4).
  cbn [app lookups closes pending].
  rewrite lookups_app, closes_app, pending_app, L3, L4.
  destruct (fst (loop_plan base_folder d es)) as [[]|x];
    cbn [lookups closes pending]; rewrite app_nil_r; repeat split; auto.
Qed.

(** X12: in a run over a folder, the names looked up in [missoes] are
    the names of the mission folders, in the order of the listing and
    once each: all of them when the run ends normally, the first ones
    up to the missing one when it does not. *)
Theorem lookups_are_the_mission_folders
    (base_folder : string) (entries : list (string * node)) (w : world) :
  exists evs,
    log (snd (process_all base_folder (Dir entries) w)) = (log w ++ evs)%list
    /\ (exists more,
          map fst (filter is_mission_folder entries) = (lookups evs ++ more)%list)
    /\ (fst (process_all base_folder (Dir entries) w) = Ok tt ->
        lookups evs = map fst (filter is_mission_folder entries)).
Proof.
  exists (run_log base_folder (db w) entries).
  rewrite process_all_exact. cbn [fst snd log].
  destruct (run_log_facts base_folder (db w) entries) as (H1 & H2 & _).
  auto.
Qed.


(* ================================================================== *)
(** * The statements of one mission *)






(* ================================================================== *)
(** * More on the extractors and the classes *)

(** X16: no name ends with both a photo suffix and a video suffix, so
    the order of the two tests of the loop body is immaterial. *)
Theorem photo_and_video_suffixes_disjoint (s : string) :
  Py.endswith_any s photo_suffixes = true ->
  Py.endswith_any s video_suffixes = false.
Proof.
  rewrite photo_suffixes_extension, video_suffixes_extension.
  destruct (extension s) as [e|]; [|reflexivity].
  unfold mem, photo_extensions, video_extensions. cbn [existsb].
  intros H. rewrite !orb_true_iff in H.
  destruct H as [H|[H|[H|H]]]; try discriminate;
    apply String.eqb_eq in H; subst e; reflexivity.
Qed.

Lemma photo_and_video_suffixes_disjoint_witness :
  Py.endswith_any "dji_0001.mp4.jpg" video_suffixes = false.
Proof.
  exact (photo_and_video_suffixes_disjoint "dji_0001.mp4.jpg" eq_refl).
Defined.



Lemma lookups_are_the_mission_folders_witness :
  exists evs,
    log (snd (process_all "/data" sample_base sample_world))
    = (log sample_world ++ evs)%list
    /\ lookups evs = ["Mission1"; "Mission2"].
Proof.
  destruct (lookups_are_the_mission_folders "/data"
              [("Mission1", sample_mission);
               ("Backup", Dir [("DJI_0003.jpg", File sample_photo)]);
               ("Mission.txt", File sample_photo);
               ("Mission2", Dir [("DJI_0004.png", File sample_photo)])]
              sample_world) as (evs & E & _ & H).
  exists evs. split; [exact E|].
  apply H. vm_compute. reflexivity.
Defined.

(* ================================================================== *)
(** * The script on a real terminal and a real server: proofs *)

Import Real.
Local Close Scope string_scope.
Local Open Scope real_scope.

Lemma real_after_nil (w : world) : after w [] = w.
Proof. destruct w; unfold after; simpl. now rewrite app_nil_r. Qed.

Lemma real_after_after (w : world) (e1 e2 : list event) :
  after (after w e1) e2 = after w (e1 ++ e2)%list.
Proof. unfold after; simpl. now rewrite app_assoc. Qed.

Lemma real_oblivious_lift {A} (o : outcome A) : oblivious (lift o).
Proof. exists o, []. intros w. unfold lift. now rewrite real_after_nil. Qed.

Lemma real_oblivious_ret {A} (a : A) : oblivious (ret a).
Proof. apply (real_oblivious_lift (Ok a)). Qed.

Lemma real_oblivious_raise {A} (e : exn) : oblivious (@raise A e).
Proof. apply (real_oblivious_lift (Raise e)). Qed.

Lemma real_oblivious_emit (e : event) : oblivious (emit e).
Proof. exists (Ok tt), [e]. reflexivity. Qed.

Lemma real_oblivious_print (rt : runtime) (m : message) : oblivious (print rt m).
Proof.
  unfold print. destruct (stdout rt m) as [e|].
  - exists (Raise e), []. intros w. now rewrite real_after_nil.
  - exists (Ok tt), [EvPrint m]. reflexivity.
Qed.

Lemma real_oblivious_bind {A B} (c : M A) (k : A -> M B) :
  oblivious c -> (forall a, oblivious (k a)) -> oblivious (bind c k).
Proof.
  intros (o & evs & E) Hk. destruct o as [a|e].
  - destruct (Hk a) as (o' & evs' & E').
    exists o', (evs ++ evs')%list.
    intros w. unfold bind. rewrite E, E'. now rewrite real_after_after.
  - exists (Raise e), evs. intros w. unfold bind. now rewrite E.
Qed.

Lemma real_oblivious_try_except {A} (c : M A) (h : exn -> M A) :
  oblivious c -> (forall e, oblivious (h e)) -> oblivious (try_except c h).
Proof.
  intros (o & evs & E) Hh. destruct o as [a|e].
  - exists (Ok a), evs. intros w. unfold try_except. now rewrite E.
  - destruct (Hh e) as (o' & evs' & E').
    exists o', (evs ++ evs')%list.
    intros w. unfold try_except. rewrite E, E'. now rewrite real_after_after.
Qed.

Lemma real_oblivious_for {A S} (body : A -> S -> M S) (l : list A) :
  (forall x s, oblivious (body x s)) -> forall s, oblivious (for_ l body s).
Proof.
  intros Hb. induction l as [|x l IH]; intros s; simpl.
  - apply real_oblivious_ret.
  - apply real_oblivious_bind; [apply Hb|]. intros s'. apply IH.
Qed.

Ltac real_obl_step :=
  match goal with
  | |- oblivious (bind _ _) => apply real_oblivious_bind; [|intro]
  | |- oblivious (ret _) => apply real_oblivious_ret
  | |- oblivious (raise _) => apply real_oblivious_raise
  | |- oblivious (lift _) => apply real_oblivious_lift
  | |- oblivious (print _ _) => apply real_oblivious_print
  | |- oblivious (emit _) => apply real_oblivious_emit
  | |- oblivious (if ?b then _ else _) => destruct b
  | |- oblivious (match ?x with _ => _ end) => destruct x
  end.

Ltac real_obl := repeat real_obl_step.

Lemma real_oblivious_getattr {A} (name : str) (v : option A) :
  oblivious (getattr name v).
Proof. unfold getattr. real_obl. Qed.

Lemma real_oblivious_tuple_item (t : list float) (i : nat) : oblivious (tuple_item t i).
Proof. unfold tuple_item. real_obl. Qed.

Lemma real_oblivious_to_decimal (sign : Z) (t : list float) :
  oblivious (to_decimal sign t).
Proof. unfold to_decimal. real_obl; apply real_oblivious_tuple_item. Qed.

Lemma real_oblivious_getitem (v : json) (k : str) : oblivious (getitem v k).
Proof. unfold getitem. real_obl. Qed.

Lemma real_oblivious_contains (k : str) (v : json) : oblivious (contains k v).
Proof. unfold contains. real_obl. Qed.

Lemma real_oblivious_re_match (r : Re.regex) (v : json) : oblivious (re_match r v).
Proof. unfold re_match. real_obl. Qed.

Lemma real_oblivious_group (m : list str) (i : nat) : oblivious (group m i).
Proof. unfold group. real_obl. Qed.

Lemma photo_oblivious (rt : runtime) (photo_path : str) (f : file_content) :
  oblivious (extract_gps_metadata_from_photo rt photo_path f).
Proof.
  unfold extract_gps_metadata_from_photo.
  apply real_oblivious_try_except; [|intros e; real_obl].
  unfold open_image.
  real_obl; try apply real_oblivious_getattr; apply real_oblivious_to_decimal.
Qed.

Lemma video_oblivious (rt : runtime) (video_path : str) (f : file_content) :
  oblivious (extract_gps_metadata_from_video rt video_path f).
Proof.
  unfold extract_gps_metadata_from_video.
  apply real_oblivious_try_except; [|intros e; real_obl].
  unfold run_ffprobe.
  apply real_oblivious_bind; [real_obl|]. intros metadata.
  apply real_oblivious_bind; [apply real_oblivious_getitem|]. intros format.
  apply real_oblivious_bind; [apply real_oblivious_contains|]. intros [|]; [|real_obl].
  apply real_oblivious_bind; [apply real_oblivious_getitem|]. intros format'.
  apply real_oblivious_bind; [apply real_oblivious_getitem|]. intros tags.
  apply real_oblivious_bind; [apply real_oblivious_contains|]. intros [|]; [|real_obl].
  apply real_oblivious_bind; [apply real_oblivious_getitem|]. intros location.
  apply real_oblivious_bind; [apply real_oblivious_re_match|]. intros [mo|]; [|real_obl].
  apply real_oblivious_bind; [apply real_oblivious_group|]. intros g1.
  apply real_oblivious_bind; [apply real_oblivious_lift|]. intros lat.
  apply real_oblivious_bind; [apply real_oblivious_group|]. intros g2.
  apply real_oblivious_bind; [apply real_oblivious_lift|]. intros lon.
  real_obl.
Qed.

Lemma process_file_oblivious (rt : runtime) (mission_id : Z) (root : str)
    (file : str * file_content) (data : list media) :
  oblivious (process_file rt mission_id root file data).
Proof.
  unfold process_file. destruct file as [name content].
  destruct (Py.endswith_any (lower rt name) photo_suffixes).
  - apply real_oblivious_bind; [apply photo_oblivious|].
    intros [[[lat lon] alt]|]; apply real_oblivious_ret.
  - destruct (Py.endswith_any (lower rt name) video_suffixes).
    + apply real_oblivious_bind; [apply video_oblivious|].
      intros [[[lat lon] alt]|]; apply real_oblivious_ret.
    + apply real_oblivious_ret.
Qed.

Lemma collect_media_oblivious (rt : runtime) (mission_id : Z) (mission_path : str)
    (mission_dir : node) :
  oblivious (collect_media rt mission_id mission_path mission_dir).
Proof.
  unfold collect_media. apply real_oblivious_for.
  intros [[root dirs] files] data. apply real_oblivious_for.
  intros file data'. apply process_file_oblivious.
Qed.

(** An exception that leaves an extractor was raised by the print of
    its handler. *)
Lemma handler_raise {A} (rt : runtime) (c : M (option A)) (err : exn -> message)
    (w w' : world) (e : exn) :
  try_except c (fun e0 => print rt (err e0) ;; ret None) w = (Raise e, w') ->
  exists e0, stdout rt (err e0) = Some e.
Proof.
  unfold try_except, bind, print, ret.
  destruct (c w) as [[a|e0] w1]; [discriminate|].
  destruct (stdout rt (err e0)) as [e1|] eqn:E; [|discriminate].
  intros H. inversion H; subst. now exists e0.
Qed.

(* ================================================================== *)
(** * Strings *)

Lemma real_eqb_eq (a b : str) : eqb a b = true <-> a = b.
Proof.
  revert b. induction a as [|x a IH]; intros [|y b]; simpl;
    try (split; [discriminate|congruence]); [tauto|].
  rewrite andb_true_iff, N.eqb_eq, IH. split.
  - intros [-> ->]. reflexivity.
  - intros H. inversion H. auto.
Qed.

Lemma real_eqb_refl (a : str) : eqb a a = true.
Proof. now apply real_eqb_eq. Qed.

Lemma real_eqb_neq (a b : str) : eqb a b = false <-> a <> b.
Proof.
  rewrite <- real_eqb_eq. destruct (eqb a b); split; congruence.
Qed.

Lemma real_sign_cases (c : N) : Py.is_sign c = true -> c = 43%N \/ c = 45%N.
Proof.
  unfold Py.is_sign. intros H. apply orb_true_iff in H.
  destruct H as [H|H]; apply N.eqb_eq in H; auto.
Qed.

Lemma real_dot_eq (c : N) : Py.is_dot c = true -> c = 46%N.
Proof. unfold Py.is_dot. apply N.eqb_eq. Qed.

Lemma forallb_digits (decimal : N -> option N) (s : str) :
  forallb (Py.is_digit decimal) s = Py.all_digits decimal s.
Proof. induction s as [|c s IH]; simpl; [reflexivity|now rewrite IH]. Qed.

Lemma ascii_sign_not_digit (decimal : N -> option N) (c : N) :
  ascii_decimal decimal -> Py.is_sign c = true -> Py.is_digit decimal c = false.
Proof.
  intros Hd H. unfold Py.is_digit.
  destruct (real_sign_cases c H); subst; rewrite Hd; reflexivity.
Qed.

Lemma ascii_dot_not_digit (decimal : N -> option N) :
  ascii_decimal decimal -> Py.is_digit decimal 46 = false.
Proof. intros Hd. unfold Py.is_digit. rewrite Hd; reflexivity. Qed.

(* ================================================================== *)
(** * The matcher against the words a pattern denotes *)

Lemma real_plus_splits_sound (p : N -> bool) (s a b : str) :
  In (a, b) (Re.plus_splits p s) ->
  s = (a ++ b)%list /\ a <> [] /\ forallb p a = true.
Proof.
  revert a b. induction s as [|c s IH]; simpl; intros a b H; [contradiction|].
  destruct (p c) eqn:Hc; [|contradiction].
  apply in_app_or in H. destruct H as [H|H].
  - apply in_map_iff in H. destruct H as ([a' b'] & E & H).
    simpl in E. inversion E; subst.
    destruct (IH _ _ H) as (-> & _ & Ha).
    repeat split; [discriminate|]. simpl. now rewrite Hc.
  - destruct H as [E|[]]. inversion E; subst.
    repeat split; [discriminate|]. simpl. now rewrite Hc.
Qed.

Lemma real_plus_splits_complete (p : N -> bool) (a t : str) :
  a <> [] -> forallb p a = true -> In (a, t) (Re.plus_splits p (a ++ t)).
Proof.
  induction a as [|c a IH]; intros Hne Ha; [congruence|].
  simpl in Ha. apply andb_true_iff in Ha. destruct Ha as [Hc Ha].
  simpl. rewrite Hc. apply in_or_app.
  destruct a as [|c' a].
  - right. left. reflexivity.
  - left. apply in_map_iff. exists (c' :: a, t). split; [reflexivity|].
    apply IH; [discriminate|exact Ha].
Qed.

Lemma real_candidates_sound (r : Re.regex) :
  forall s m, In m (Re.candidates r s) ->
              s = (Re.consumed m ++ Re.rest m)%list /\ denotes r (Re.consumed m).
Proof.
  induction r as [p|p|r1 IH1 r2 IH2|r IH]; intros s m H; simpl in H.
  - destruct s as [|c t]; [contradiction|].
    destruct (p c) eqn:Hc; [|contradiction].
    destruct H as [<-|[]]. simpl. split; [reflexivity|now constructor].
  - apply in_map_iff in H. destruct H as ([a b] & <- & H).
    apply real_plus_splits_sound in H. destruct H as (-> & Hne & Ha).
    simpl. split; [reflexivity|now constructor].
  - apply in_flat_map in H. destruct H as (m1 & H1 & H).
    apply in_map_iff in H. destruct H as (m2 & <- & H2).
    destruct (IH1 _ _ H1) as (E1 & D1).
    destruct (IH2 _ _ H2) as (E2 & D2).
    simpl. split; [|now constructor].
    rewrite <- app_assoc, <- E2. exact E1.
  - apply in_map_iff in H. destruct H as (m' & <- & H).
    destruct (IH _ _ H) as (E & D). simpl. split; [exact E|now constructor].
Qed.

Lemma real_candidates_complete (r : Re.regex) (c : str) :
  denotes r c ->
  forall t, exists g, In (Re.mkPartial c g t) (Re.candidates r (c ++ t)).
Proof.
  induction 1 as [p c Hc|p s Hne Hs|r1 r2 s1 s2 _ IH1 _ IH2|r s _ IH]; intros t.
  - exists []. simpl. rewrite Hc. now left.
  - exists []. simpl. apply in_map_iff. exists (s, t). split; [reflexivity|].
    now apply real_plus_splits_complete.
  - destruct (IH1 (s2 ++ t)%list) as (g1 & H1). destruct (IH2 t) as (g2 & H2).
    exists (g1 ++ g2)%list. simpl. rewrite <- app_assoc.
    apply in_flat_map. eexists. split; [exact H1|].
    apply in_map_iff. eexists. split; [|exact H2]. reflexivity.
  - destruct (IH t) as (g & H). exists (s :: g). simpl.
    apply in_map_iff. eexists. split; [|exact H]. reflexivity.
Qed.

Lemma real_match_some_iff (r : Re.regex) (s : str) :
  Re.match_ r s <> None <-> exists c t, s = (c ++ t)%list /\ denotes r c.
Proof.
  unfold Re.match_. split.
  - destruct (Re.candidates r s) as [|m l] eqn:E; [congruence|]. intros _.
    destruct (real_candidates_sound r s m) as (Es & D); [rewrite E; now left|].
    now exists (Re.consumed m), (Re.rest m).
  - intros (c & t & -> & D).
    destruct (real_candidates_complete r c D t) as (g & H).
    destruct (Re.candidates r (c ++ t)); [contradiction|discriminate].
Qed.

Lemma real_denotes_signed_decimal (decimal : N -> option N) (a : str) :
  denotes (Re.signed_decimal decimal) a <-> signed_decimal_text decimal a.
Proof.
  unfold Re.signed_decimal, signed_decimal_text. split.
  - intros H.
    inversion H as [| |r1 r2 s1 s2 H1 H2|]; subst; clear H.
    inversion H1 as [p c Hc| | |]; subst; clear H1.
    inversion H2 as [| |r1 r2 ip s3 H3 H4|]; subst; clear H2.
    inversion H3 as [|p s Hne Hs| |]; subst; clear H3.
    inversion H4 as [| |r1 r2 s5 fp H5 H6|]; subst; clear H4.
    inversion H5 as [p c' Hc'| | |]; subst; clear H5.
    inversion H6 as [|p s Hne' Hs'| |]; subst; clear H6.
    apply real_dot_eq in Hc'. subst c'.
    exists c, ip, fp. rewrite <- !forallb_digits. simpl. repeat split; assumption.
  - intros (c & ip & fp & -> & Hc & Hne & Hip & Hne' & Hfp).
    rewrite <- forallb_digits in Hip, Hfp.
    apply (DCat _ _ [c] (ip ++ 46%N :: fp)%list); [now constructor|].
    apply DCat; [now constructor|].
    apply (DCat _ _ [46%N] fp); now constructor.
Qed.

Lemma real_denotes_location_pattern (decimal : N -> option N) (c : str) :
  denotes (Re.location_pattern decimal) c
  <-> exists a b, c = (a ++ b)%list
                  /\ signed_decimal_text decimal a /\ signed_decimal_text decimal b.
Proof.
  unfold Re.location_pattern. split.
  - intros H.
    inversion H as [| |r1 r2 a b H1 H2|]; subst; clear H.
    inversion H1; subst. inversion H2; subst.
    exists a, b. rewrite <- !real_denotes_signed_decimal. auto.
  - intros (a & b & -> & Ha & Hb).
    apply DCat; constructor; now apply real_denotes_signed_decimal.
Qed.

(** The pattern matches exactly the texts that begin with two signed
    decimals, whatever the digits are. *)
Lemma real_location_match_iff (decimal : N -> option N) (s : str) :
  Re.match_ (Re.location_pattern decimal) s <> None
  <-> begins_with_two_signed_decimals decimal s.
Proof.
  rewrite real_match_some_iff. unfold begins_with_two_signed_decimals. split.
  - intros (c & t & -> & D). apply real_denotes_location_pattern in D.
    destruct D as (a & b & -> & Ha & Hb).
    exists a, b, t. rewrite <- app_assoc. auto.
  - intros (a & b & t & -> & Ha & Hb).
    exists (a ++ b)%list, t. rewrite <- app_assoc. split; [reflexivity|].
    apply real_denotes_location_pattern. now exists a, b.
Qed.

Lemma real_plus_splits_stop (p : N -> bool) (t : str) :
  match t with [] => true | c :: _ => negb (p c) end = true ->
  Re.plus_splits p t = [].
Proof.
  destruct t as [|c t]; simpl; [reflexivity|].
  intros H. apply negb_true_iff in H. now rewrite H.
Qed.

Lemma real_plus_splits_head (p : N -> bool) (a t : str) :
  a <> [] -> forallb p a = true ->
  match t with [] => true | c :: _ => negb (p c) end = true ->
  exists tl, Re.plus_splits p (a ++ t) = (a, t) :: tl.
Proof.
  intros Hne Ha Ht. induction a as [|c a IH]; [congruence|].
  simpl in Ha. apply andb_true_iff in Ha. destruct Ha as [Hc Ha].
  simpl. rewrite Hc. destruct a as [|c' a].
  - simpl. rewrite (real_plus_splits_stop p t Ht). now exists [].
  - destruct IH as (tl & E); [discriminate|exact Ha|].
    rewrite E. simpl. eexists. reflexivity.
Qed.

Lemma real_class_head (p : N -> bool) (c : N) (t : str) :
  p c = true ->
  Re.candidates (Re.Class p) (c :: t) = [Re.mkPartial [c] [] t].
Proof. intros H. simpl. now rewrite H. Qed.

Lemma real_plus_head (p : N -> bool) (a t : str) :
  a <> [] -> forallb p a = true ->
  match t with [] => true | c :: _ => negb (p c) end = true ->
  exists tl, Re.candidates (Re.Plus p) (a ++ t) = Re.mkPartial a [] t :: tl.
Proof.
  intros Hne Ha Ht. destruct (real_plus_splits_head p a t Hne Ha Ht) as (tl & E).
  simpl. rewrite E. simpl. eexists. reflexivity.
Qed.

Lemma real_cat_head (r1 r2 : Re.regex) (s : str) (m1 m2 : Re.partial)
    (tl1 tl2 : list Re.partial) :
  Re.candidates r1 s = m1 :: tl1 ->
  Re.candidates r2 (Re.rest m1) = m2 :: tl2 ->
  exists tl,
    Re.candidates (Re.Cat r1 r2) s
    = Re.mkPartial (Re.consumed m1 ++ Re.consumed m2)
                   (Re.groups m1 ++ Re.groups m2) (Re.rest m2) :: tl.
Proof.
  intros E1 E2. cbn [Re.candidates]. rewrite E1. cbn [flat_map].
  rewrite E2. cbn [map app]. eexists. reflexivity.
Qed.

Lemma real_group_head (r : Re.regex) (s : str) (m : Re.partial) (tl : list Re.partial) :
  Re.candidates r s = m :: tl ->
  exists tl',
    Re.candidates (Re.Group r) s
    = Re.mkPartial (Re.consumed m) (Re.consumed m :: Re.groups m) (Re.rest m) :: tl'.
Proof.
  intros E. cbn [Re.candidates]. rewrite E. cbn [map]. eexists. reflexivity.
Qed.

Lemma real_signed_decimal_head (decimal : N -> option N) (a t : str) :
  ascii_decimal decimal ->
  signed_decimal_text decimal a -> no_digit_ahead decimal t = true ->
  exists tl,
    Re.candidates (Re.signed_decimal decimal) (a ++ t) = Re.mkPartial a [] t :: tl.
Proof.
  intros Hd (c & ip & fp & -> & Hc & Hne & Hip & Hne' & Hfp) Ht.
  rewrite <- forallb_digits in Hip, Hfp.
  assert (Hdot : negb (Py.is_digit decimal 46) = true)
    by now rewrite (ascii_dot_not_digit decimal Hd).
  destruct (real_plus_head (Py.is_digit decimal) fp t Hne' Hfp Ht) as (tl4 & E4).
  destruct (real_cat_head (Re.Class Py.is_dot) (Re.Plus (Py.is_digit decimal))
              (46%N :: fp ++ t)%list _ _ [] tl4
              (real_class_head Py.is_dot 46 (fp ++ t)%list eq_refl) E4) as (tl3 & E3).
  destruct (real_plus_head (Py.is_digit decimal) ip (46%N :: fp ++ t)%list Hne Hip Hdot)
    as (tl2 & E2).
  destruct (real_cat_head _ _ _ _ _ _ _ E2 E3) as (tl1 & E1).
  destruct (real_cat_head (Re.Class Py.is_sign) _ (c :: ip ++ 46%N :: fp ++ t)%list
              _ _ [] _ (real_class_head Py.is_sign c _ Hc) E1) as (tl & E).
  exists tl. unfold Re.signed_decimal.
  cbn [app]. rewrite <- app_assoc. cbn [app].
  rewrite E. cbn [Re.consumed Re.groups Re.rest app]. reflexivity.
Qed.

Lemma real_signed_decimal_no_digit_ahead (decimal : N -> option N) (b t : str) :
  ascii_decimal decimal ->
  signed_decimal_text decimal b -> no_digit_ahead decimal (b ++ t) = true.
Proof.
  intros Hd (c & ip & fp & -> & Hc & _). simpl.
  now rewrite (ascii_sign_not_digit decimal c Hd Hc).
Qed.

Lemma real_location_head (decimal : N -> option N) (a b t : str) :
  ascii_decimal decimal ->
  signed_decimal_text decimal a -> signed_decimal_text decimal b ->
  no_digit_ahead decimal t = true ->
  Re.match_ (Re.location_pattern decimal) (a ++ b ++ t)
  = Some [(a ++ b)%list; a; b].
Proof.
  intros Hd Ha Hb Ht.
  destruct (real_signed_decimal_head decimal a (b ++ t)%list Hd Ha
              (real_signed_decimal_no_digit_ahead decimal b t Hd Hb))
    as (tl1 & E1).
  destruct (real_signed_decimal_head decimal b t Hd Hb Ht) as (tl2 & E2).
  destruct (real_group_head _ _ _ _ E1) as (tl1' & G1).
  destruct (real_group_head _ _ _ _ E2) as (tl2' & G2).
  destruct (real_cat_head _ _ _ _ _ _ _ G1 G2) as (tl & E).
  unfold Re.match_, Re.location_pattern. rewrite E. reflexivity.
Qed.

Lemma real_group_free_groups (r : Re.regex) :
  group_free r = true ->
  forall s m, In m (Re.candidates r s) -> Re.groups m = [].
Proof.
  induction r as [p|p|r1 IH1 r2 IH2|r IH]; simpl; intros Hg s m H.
  - destruct s as [|c t]; [contradiction|].
    destruct (p c); [|contradiction]. destruct H as [<-|[]]. reflexivity.
  - apply in_map_iff in H. destruct H as (ab & <- & _). reflexivity.
  - apply andb_true_iff in Hg. destruct Hg as [Hg1 Hg2].
    apply in_flat_map in H. destruct H as (m1 & H1 & H).
    apply in_map_iff in H. destruct H as (m2 & <- & H2). simpl.
    now rewrite (IH1 Hg1 _ _ H1), (IH2 Hg2 _ _ H2).
  - discriminate.
Qed.

(** The groups of a match of the location pattern are two signed
    decimals, and the match is the two of them. *)
Lemma real_match_groups (decimal : N -> option N) (tag : str) (mo : list str) :
  Re.match_ (Re.location_pattern decimal) tag = Some mo ->
  exists a b t,
    tag = (a ++ b ++ t)%list /\ mo = [(a ++ b)%list; a; b]
    /\ signed_decimal_text decimal a /\ signed_decimal_text decimal b.
Proof.
  unfold Re.match_.
  destruct (Re.candidates (Re.location_pattern decimal) tag) as [|m l] eqn:E;
    [discriminate|].
  intros H. inversion H; subst; clear H.
  assert (Hin : In m (Re.candidates (Re.location_pattern decimal) tag))
    by (rewrite E; now left).
  destruct (real_candidates_sound _ _ _ Hin) as (Etag & _).
  unfold Re.location_pattern in Hin. cbn [Re.candidates] in Hin.
  apply in_flat_map in Hin. destruct Hin as (m1 & H1 & Hin).
  apply in_map_iff in Hin. destruct Hin as (m2 & <- & H2).
  apply in_map_iff in H1. destruct H1 as (n1 & <- & H1).
  apply in_map_iff in H2. destruct H2 as (n2 & <- & H2).
  cbn [Re.rest] in H2.
  pose proof (real_group_free_groups (Re.signed_decimal decimal) eq_refl _ _ H1) as G1.
  pose proof (real_group_free_groups (Re.signed_decimal decimal) eq_refl _ _ H2) as G2.
  destruct (real_candidates_sound _ _ _ H1) as (_ & D1).
  destruct (real_candidates_sound _ _ _ H2) as (_ & D2).
  exists (Re.consumed n1), (Re.consumed n2), (Re.rest n2).
  cbn [Re.consumed Re.groups Re.rest] in *. rewrite G1, G2.
  repeat split.
  - rewrite Etag. now rewrite <- app_assoc.
  - now apply real_denotes_signed_decimal.
  - now apply real_denotes_signed_decimal.
Qed.

(* ================================================================== *)
(** * [float] on a signed decimal *)

Lemma real_span_digits_app (decimal : N -> option N) (ip t : str) :
  Py.all_digits decimal ip = true -> no_digit_ahead decimal t = true ->
  Py.span_digits decimal (ip ++ t) = (ip, t).
Proof.
  intros Hip Ht. induction ip as [|c ip IH]; simpl.
  - destruct t as [|c t]; simpl in *; [reflexivity|].
    apply negb_true_iff in Ht. now rewrite Ht.
  - simpl in Hip. apply andb_true_iff in Hip. destruct Hip as [Hc Hip].
    rewrite Hc, (IH Hip). reflexivity.
Qed.

Lemma real_float_signed_decimal (decimal : N -> option N) (c : N) (ip fp : str) :
  ascii_decimal decimal ->
  Py.is_sign c = true ->
  ip <> [] -> Py.all_digits decimal ip = true -> Py.all_digits decimal fp = true ->
  Py.float decimal (c :: ip ++ 46%N :: fp)
  = Ok (Py.decimal_to_float decimal (N.eqb c 45) ip fp).
Proof.
  intros Hd Hc Hne Hip Hfp.
  assert (Hs : Py.span_digits decimal (ip ++ 46%N :: fp) = (ip, 46%N :: fp)).
  { apply real_span_digits_app; [exact Hip|]. simpl.
    now rewrite (ascii_dot_not_digit decimal Hd). }
  assert (He : eqb ip [] = false) by now apply real_eqb_neq.
  destruct (real_sign_cases c Hc); subst c; unfold Py.float; cbn [N.eqb Pos.eqb];
    rewrite Hs; cbn iota; rewrite Hfp, He; reflexivity.
Qed.

Lemma real_float_of_signed_decimal_text (decimal : N -> option N) (a : str) :
  ascii_decimal decimal ->
  signed_decimal_text decimal a -> exists x, Py.float decimal a = Ok x.
Proof.
  intros Hd (c & ip & fp & -> & Hc & Hne & Hip & _ & Hfp).
  eexists. now apply real_float_signed_decimal.
Qed.

Lemma real_all_digits_app (decimal : N -> option N) (a b : str) :
  Py.all_digits decimal (a ++ b)
  = Py.all_digits decimal a && Py.all_digits decimal b.
Proof.
  induction a as [|c a IH]; simpl; [reflexivity|].
  now rewrite IH, andb_assoc.
Qed.

Lemma real_span_digits_spec (decimal : N -> option N) (t : str) :
  t = (fst (Py.span_digits decimal t) ++ snd (Py.span_digits decimal t))%list
  /\ Py.all_digits decimal (fst (Py.span_digits decimal t)) = true
  /\ no_digit_ahead decimal (snd (Py.span_digits decimal t)) = true.
Proof.
  induction t as [|c t (E & Hd & Hn)]; simpl; [auto|].
  destruct (Py.is_digit decimal c) eqn:Hc.
  - destruct (Py.span_digits decimal t) as [d t']. simpl in *.
    rewrite Hc, Hd, <- E. auto.
  - simpl. rewrite Hc. auto.
Qed.

(** The second number can be taken as long as it gets. *)
Lemma real_begins_with_two_maximal (decimal : N -> option N) (s : str) :
  begins_with_two_signed_decimals decimal s ->
  exists a b t,
    s = (a ++ b ++ t)%list
    /\ signed_decimal_text decimal a /\ signed_decimal_text decimal b
    /\ no_digit_ahead decimal t = true.
Proof.
  intros (a & b & t & -> & Ha & Hb).
  destruct (real_span_digits_spec decimal t) as (E & Hd & Hn).
  destruct (Py.span_digits decimal t) as [ds t']. simpl in *. subst t.
  exists a, (b ++ ds)%list, t'. rewrite <- app_assoc. repeat split; try assumption.
  destruct Hb as (c & ip & fp & -> & Hc & Hne & Hip & Hne' & Hfp).
  exists c, ip, (fp ++ ds)%list. simpl. rewrite <- app_assoc. simpl.
  repeat split; try assumption.
  - destruct fp; [congruence|discriminate].
  - now rewrite real_all_digits_app, Hfp, Hd.
Qed.

Lemma real_all_digits_ascii (decimal : N -> option N) (s : str) :
  ascii_decimal decimal -> forallb (fun c => (c <? 128)%N) s = true ->
  Py.all_digits decimal s = Py.all_digits ascii_digit s.
Proof.
  intros Hd. induction s as [|c s IH]; simpl; [reflexivity|].
  intros H. apply andb_true_iff in H. destruct H as [Hc Hs].
  apply N.ltb_lt in Hc. unfold Py.is_digit. rewrite (Hd c Hc), (IH Hs). reflexivity.
Qed.

Lemma real_digits_value_ascii (decimal : N -> option N) (s : str) :
  ascii_decimal decimal -> forallb (fun c => (c <? 128)%N) s = true ->
  forall acc, Py.digits_value decimal acc s = Py.digits_value ascii_digit acc s.
Proof.
  intros Hd. induction s as [|c s IH]; simpl; [reflexivity|].
  intros H acc. apply andb_true_iff in H. destruct H as [Hc Hs].
  apply N.ltb_lt in Hc. rewrite (Hd c Hc). apply (IH Hs).
Qed.
Lemma real_decimal_to_float_ascii (decimal : N -> option N) (neg : bool) (ip fp : str) :
  ascii_decimal decimal -> forallb (fun c => (c <? 128)%N) (ip ++ fp) = true ->
  Py.decimal_to_float decimal neg ip fp = Py.decimal_to_float ascii_digit neg ip fp.
Proof.
  intros Hd H. unfold Py.decimal_to_float.
  now rewrite (real_digits_value_ascii decimal (ip ++ fp) Hd H).
Qed.

Lemma sample_decimal_ascii : ascii_decimal sample_decimal.
Proof.
  intros c Hc. unfold sample_decimal, ascii_digit.
  destruct ((48 <=? c)%N && (c <=? 57)%N); [reflexivity|].
  destruct (N.leb_spec 1632 c); [lia|].
  destruct (N.leb_spec 2406 c); [lia|].
  destruct (N.leb_spec 65296 c); [lia|].
  reflexivity.
Qed.

(* ================================================================== *)
(** * The video extractor *)

Arguments Re.match_ : simpl never.
Arguments Py.float : simpl never.
Arguments lit : simpl never.

Lemma real_video_probe_raises (rt : runtime) (video_path : str) (f : file_content)
    (e : exn) (w : world) :
  ffprobe_json f = Raise e ->
  printed rt (MsgVideoError video_path e) ->
  extract_gps_metadata_from_video rt video_path f w
  = (Ok None, after w [EvSpawn video_path; EvPrint (MsgVideoError video_path e)]).
Proof.
  intros He Hp.
  unfold extract_gps_metadata_from_video, try_except, run_ffprobe, bind, emit, lift,
    print.
  rewrite He, Hp. unfold after; simpl. now rewrite <- app_assoc.
Qed.

Lemma real_video_lacks_tag (rt : runtime) (video_path : str) (f : file_content)
    (w : world) :
  lacks_location_tag f ->
  printed rt (MsgNoGpsVideo video_path) ->
  extract_gps_metadata_from_video rt video_path f w
  = (Ok None, after w [EvSpawn video_path; EvPrint (MsgNoGpsVideo video_path)]).
Proof.
  intros (items & fitems & Hj & Hf & H) Hp.
  unfold extract_gps_metadata_from_video, try_except, run_ffprobe, bind, emit, lift,
    print.
  rewrite Hj. simpl. rewrite Hf. simpl.
  destruct H as [Ht|(titems & Ht & Hl)]; rewrite Ht; simpl.
  - rewrite Hp. unfold after; simpl. now rewrite <- app_assoc.
  - rewrite Hl. simpl. rewrite Hp.
    unfold after; simpl. now rewrite <- app_assoc.
Qed.

Lemma real_video_without_match (rt : runtime) (video_path : str) (f : file_content)
    (tag : str) (w : world) :
  has_location_tag f tag ->
  Re.match_ (Re.location_pattern (decimal rt)) tag = None ->
  printed rt (MsgNoGpsVideo video_path) ->
  extract_gps_metadata_from_video rt video_path f w
  = (Ok None, after w [EvSpawn video_path; EvPrint (MsgNoGpsVideo video_path)]).
Proof.
  intros (items & fitems & titems & Hj & Hf & Ht & Hl) Hm Hp.
  unfold extract_gps_metadata_from_video, try_except, run_ffprobe, bind, emit, lift,
    print.
  rewrite Hj. simpl. rewrite Hf. simpl. rewrite Ht. simpl.
  rewrite Hl. simpl. rewrite Hm. rewrite Hp.
  unfold after; simpl. now rewrite <- app_assoc.
Qed.

Lemma real_video_with_match (rt : runtime) (video_path : str) (f : file_content)
    (tag : str) (g0 g1 g2 : str) (more : list str) (lat lon : float) (w : world) :
  has_location_tag f tag ->
  Re.match_ (Re.location_pattern (decimal rt)) tag = Some (g0 :: g1 :: g2 :: more) ->
  Py.float (decimal rt) g1 = Ok lat ->
  Py.float (decimal rt) g2 = Ok lon ->
  printed rt (MsgVideoExtracted video_path lat lon None) ->
  extract_gps_metadata_from_video rt video_path f w
  = (Ok (Some (lat, lon, None)),
     after w [EvSpawn video_path;
              EvPrint (MsgVideoExtracted video_path lat lon None)]).
Proof.
  intros (items & fitems & titems & Hj & Hf & Ht & Hl) Hm Hlat Hlon Hp.
  unfold extract_gps_metadata_from_video, try_except, run_ffprobe, bind, emit, lift,
    print.
  rewrite Hj. simpl. rewrite Hf. simpl. rewrite Ht. simpl.
  rewrite Hl. simpl. rewrite Hm.
  simpl. rewrite Hlat, Hlon. rewrite Hp. unfold after; simpl. now rewrite <- app_assoc.
Qed.

(** A result of an extractor comes from the body of its [try]. *)
Lemma handler_some {A} (rt : runtime) (c : M (option A)) (err : exn -> message)
    (w : world) (a : A) :
  fst (try_except c (fun e0 => print rt (err e0) ;; ret None) w) = Ok (Some a) ->
  fst (c w) = Ok (Some a).
Proof.
  unfold try_except, bind, print, ret.
  destruct (c w) as [[r|e0] w1]; simpl; [auto|].
  destruct (stdout rt (err e0)); simpl; discriminate.
Qed.

Lemma no_data_none {A} (rt : runtime) (m : message) (w : world) (a : A) :
  fst ((print rt m ;; ret (@None A)) w) <> Ok (Some a).
Proof.
  unfold bind, print, ret. destruct (stdout rt m); simpl; discriminate.
Qed.

Lemma real_video_some_inv (rt : runtime) (video_path : str) (f : file_content)
    (w : world) (g : gps) :
  fst (extract_gps_metadata_from_video rt video_path f w) = Ok (Some g) ->
  exists tag,
    has_location_tag f tag /\ begins_with_two_signed_decimals (decimal rt) tag.
Proof.
  unfold extract_gps_metadata_from_video. intros H. apply handler_some in H.
  revert H.
  unfold run_ffprobe, bind, emit, lift.
  destruct (ffprobe_json f) as [[| | | | | |items]|] eqn:Hj; simpl; try discriminate.
  destruct (assoc (lit "format") items) as [fmt|] eqn:Hf; simpl; [|discriminate].
  destruct fmt as [| | | |s|l|fitems]; simpl; try discriminate.
  - destruct (Py.contains_str (lit "tags") s); simpl; try discriminate.
    intros H. now apply no_data_none in H.
  - destruct (existsb _ l); simpl; try discriminate.
    intros H. now apply no_data_none in H.
  - destruct (assoc (lit "tags") fitems) as [tags|] eqn:Ht; simpl;
      [|intros H; now apply no_data_none in H].
    destruct tags as [| | | |s|l|titems]; simpl; try discriminate.
    + destruct (Py.contains_str (lit "location") s); simpl; try discriminate.
      intros H. now apply no_data_none in H.
    + destruct (existsb _ l); simpl; try discriminate.
      intros H. now apply no_data_none in H.
    + destruct (assoc (lit "location") titems) as [loc|] eqn:Hl; simpl;
        [|intros H; now apply no_data_none in H].
      destruct loc as [| | | |tag| |]; simpl; try discriminate.
      destruct (Re.match_ (Re.location_pattern (decimal rt)) tag) as [mo|] eqn:Hm;
        simpl; [|intros H; now apply no_data_none in H].
      intros _. exists tag. split.
      * now exists items, fitems, titems.
      * apply real_location_match_iff. congruence.
Qed.

Lemma real_sample_video_tag (tag : str) : has_location_tag (sample_video tag) tag.
Proof. unfold has_location_tag. do 3 eexists. repeat split; reflexivity. Qed.

(** A text without a point, one that does not start with a sign, and
    one with a single sign do not begin with two signed decimals. *)
Lemma not_begins_without_point (decimal : N -> option N) (s : str) :
  ~ In 46%N s -> ~ begins_with_two_signed_decimals decimal s.
Proof.
  intros Hn (a & b & t & -> & (c & ip & fp & -> & _) & _).
  apply Hn. right. rewrite <- !app_assoc. apply in_or_app. right. now left.
Qed.

Lemma not_begins_without_sign (decimal : N -> option N) (s : str) :
  match s with c :: _ => Py.is_sign c = false | [] => True end ->
  ~ begins_with_two_signed_decimals decimal s.
Proof.
  intros Hn (a & b & t & -> & (c & ip & fp & -> & Hc & _) & _).
  simpl in Hn. congruence.
Qed.

Lemma not_begins_with_one_sign (decimal : N -> option N) (c : N) (s : str) :
  forallb (fun x => negb (Py.is_sign x)) s = true ->
  ~ begins_with_two_signed_decimals decimal (c :: s).
Proof.
  intros Hn (a & b & t & E & (c1 & ip & fp & -> & _) & (c2 & ip' & fp' & -> & Hc & _)).
  simpl in E. inversion E; subst.
  rewrite forallb_forall in Hn.
  assert (Hin : In c2 ((ip ++ 46%N :: fp) ++ (c2 :: ip' ++ 46%N :: fp') ++ t)).
  { apply in_or_app. right. now left. }
  apply Hn in Hin. rewrite Hc in Hin. discriminate.
Qed.

Lemma not_begins_empty (decimal : N -> option N) :
  ~ begins_with_two_signed_decimals decimal [].
Proof. now apply not_begins_without_sign. Qed.
Lemma has_tag_not_lacks (f : file_content) (tag : str) :
  has_location_tag f tag -> ~ lacks_location_tag f.
Proof.
  intros (items & fitems & titems & Hj & Hf & Ht & Hl)
         (items' & fitems' & Hj' & Hf' & H).
  rewrite Hj in Hj'. inversion Hj'; subst items'.
  rewrite Hf in Hf'. inversion Hf'; subst fitems'.
  destruct H as [H|(titems' & H & Hl')]; rewrite Ht in H; [discriminate|].
  inversion H; subst titems'. rewrite Hl in Hl'. discriminate.
Qed.

Lemma has_tag_unique (f : file_content) (tag tag' : str) :
  has_location_tag f tag -> has_location_tag f tag' -> tag = tag'.
Proof.
  intros (items & fitems & titems & Hj & Hf & Ht & Hl)
         (items' & fitems' & titems' & Hj' & Hf' & Ht' & Hl').
  rewrite Hj in Hj'. inversion Hj'; subst items'.
  rewrite Hf in Hf'. inversion Hf'; subst fitems'.
  rewrite Ht in Ht'. inversion Ht'; subst titems'.
  rewrite Hl in Hl'. now inversion Hl'.
Qed.

Lemma has_tag_probe_ok (f : file_content) (tag : str) (e : exn) :
  has_location_tag f tag -> ffprobe_json f <> Raise e.
Proof. intros (items & fitems & titems & Hj & _). rewrite Hj. discriminate. Qed.

Lemma video_raise_origin (rt : runtime) (video_path : str) (f : file_content)
    (w : world) :
  exists o evs,
    extract_gps_metadata_from_video rt video_path f w = (o, after w evs)
    /\ forall e, o = Raise e ->
                 exists e0, stdout rt (MsgVideoError video_path e0) = Some e.
Proof.
  destruct (video_oblivious rt video_path f) as (o & evs & E).
  exists o, evs. split; [apply E|]. intros e ->.
  specialize (E w). unfold extract_gps_metadata_from_video in E.
  exact (handler_raise rt _ (MsgVideoError video_path) w _ e E).
Qed.

(** The video extractor raises for a name that the terminal cannot
    write, when ffprobe fails on the file. *)
Lemma video_extractor_can_raise :
  fst (extract_gps_metadata_from_video sample_runtime
         (lit "Mission1/" ++ [26085%N; 26412%N] ++ lit ".mp4")
         unreadable_file sample_world)
  = Raise UnicodeEncodeError.
Proof. reflexivity. Qed.

(** C6: the video extractor only adds to the log, and an exception
    leaves it only when its handler's own [print] raises, with the
    exception of that [print]; when the message is printed it returns
    [None] if ffprobe cannot be run or its output is not JSON (the
    exception is caught and printed), if the output has no [tags] or no
    [location], and if the location does not begin with two signed
    decimals, as the empty string and a single number do not; when the
    error messages are printed these cases give [None] whatever else
    the terminal does; and a result other than [None] is only returned
    for a location that begins with two signed decimals. *)
Theorem video_extractor_raises_only_from_print :
  (forall rt video_path f w,
      exists o evs,
        extract_gps_metadata_from_video rt video_path f w = (o, after w evs)
        /\ forall e, o = Raise e ->
                     exists e0, stdout rt (MsgVideoError video_path e0) = Some e)
  /\ (forall rt video_path f e w,
         ffprobe_json f = Raise e ->
         printed rt (MsgVideoError video_path e) ->
         extract_gps_metadata_from_video rt video_path f w
         = (Ok None, after w [EvSpawn video_path;
                              EvPrint (MsgVideoError video_path e)]))
  /\ (forall rt video_path f w,
         lacks_location_tag f ->
         printed rt (MsgNoGpsVideo video_path) ->
         extract_gps_metadata_from_video rt video_path f w
         = (Ok None, after w [EvSpawn video_path;
                              EvPrint (MsgNoGpsVideo video_path)]))
  /\ (forall rt video_path f tag w,
         has_location_tag f tag ->
         ~ begins_with_two_signed_decimals (decimal rt) tag ->
         printed rt (MsgNoGpsVideo video_path) ->
         extract_gps_metadata_from_video rt video_path f w
         = (Ok None, after w [EvSpawn video_path;
                              EvPrint (MsgNoGpsVideo video_path)]))
  /\ (forall rt video_path f w,
         (forall e0, printed rt (MsgVideoError video_path e0)) ->
         (exists e, ffprobe_json f = Raise e)
         \/ lacks_location_tag f
         \/ (exists tag, has_location_tag f tag
                         /\ ~ begins_with_two_signed_decimals (decimal rt) tag) ->
         fst (extract_gps_metadata_from_video rt video_path f w) = Ok None)
  /\ (forall decimal, ~ begins_with_two_signed_decimals decimal [])
  /\ (forall decimal, ~ begins_with_two_signed_decimals decimal (lit "+40.1234"))
  /\ (forall rt video_path f w g,
         fst (extract_gps_metadata_from_video rt video_path f w) = Ok (Some g) ->
         exists tag,
           has_location_tag f tag
           /\ begins_with_two_signed_decimals (decimal rt) tag).
Proof.
  split; [|split; [|split; [|split; [|split; [|split; [|split]]]]]].
  - intros. apply video_raise_origin.
  - intros. now apply real_video_probe_raises.
  - intros. now apply real_video_lacks_tag.
  - intros rt video_path f tag w Ht Hn Hp.
    apply (real_video_without_match rt video_path f tag w Ht); [|exact Hp].
    destruct (Re.match_ (Re.location_pattern (decimal rt)) tag) eqn:E; [|reflexivity].
    destruct Hn. apply real_location_match_iff. congruence.
  - intros rt video_path f w Hp Hcase.
    destruct (video_raise_origin rt video_path f w) as (o & evs & E & Hr).
    pose proof (real_video_some_inv rt video_path f w) as Hs.
    rewrite E in *. simpl in *.
    destruct o as [[g|]|e]; [|reflexivity|].
    + exfalso. destruct (Hs g eq_refl) as (tag & Ht & Hb).
      destruct Hcase as [(e & He)|[Hl|(tag' & Ht' & Hn)]].
      * exact (has_tag_probe_ok f tag e Ht He).
      * exact (has_tag_not_lacks f tag Ht Hl).
      * rewrite (has_tag_unique f tag' tag Ht' Ht) in Hn. exact (Hn Hb).
    + exfalso. destruct (Hr e eq_refl) as (e0 & H0).
      specialize (Hp e0). unfold printed in Hp. congruence.
  - apply not_begins_empty.
  - intros decimal. now apply not_begins_with_one_sign.
  - apply real_video_some_inv.
Qed.

Lemma video_extractor_raises_only_from_print_witness :
  extract_gps_metadata_from_video sample_runtime (lit "DJI_0002.mp4")
    (sample_video (lit "+40.1234")) sample_world
  = (Ok None, after sample_world [EvSpawn (lit "DJI_0002.mp4");
                                  EvPrint (MsgNoGpsVideo (lit "DJI_0002.mp4"))]).
Proof.
  exact (proj1 (proj2 (proj2 (proj2 video_extractor_raises_only_from_print)))
           sample_runtime (lit "DJI_0002.mp4") (sample_video (lit "+40.1234"))
           (lit "+40.1234") sample_world
           (real_sample_video_tag (lit "+40.1234"))
           (proj1 (proj2 (proj2 (proj2 (proj2 (proj2 (proj2
              video_extractor_raises_only_from_print)))))) sample_decimal)
           eq_refl).
Defined.

(** With the digits of another script the location is read as well. *)
Example arabic_indic_location :
  fst (extract_gps_metadata_from_video sample_runtime (lit "DJI_0002.mp4")
         (sample_video [43; 1636; 1632; 46; 1633; 1634; 1635; 1636;
                        45; 1632; 1632; 1640; 46; 1637; 1638; 1639; 1640]%N)
         sample_world)
  = Ok (Some (40.1234%float, (-8.5678)%float, None)).
Proof. vm_compute. reflexivity. Qed.

Lemma float_example_lat (decimal : N -> option N) :
  ascii_decimal decimal -> Py.float decimal (lit "+40.1234") = Ok 40.1234%float.
Proof.
  intros Hd.
  change (lit "+40.1234") with (43%N :: lit "40" ++ 46%N :: lit "1234").
  rewrite (real_float_signed_decimal decimal 43 (lit "40") (lit "1234") Hd eq_refl).
  - rewrite (real_decimal_to_float_ascii decimal _ _ _ Hd) by reflexivity.
    vm_compute. reflexivity.
  - discriminate.
  - now rewrite (real_all_digits_ascii decimal _ Hd) by reflexivity.
  - now rewrite (real_all_digits_ascii decimal _ Hd) by reflexivity.
Qed.

Lemma float_example_lon (decimal : N -> option N) :
  ascii_decimal decimal -> Py.float decimal (lit "-008.5678") = Ok (-8.5678)%float.
Proof.
  intros Hd.
  change (lit "-008.5678") with (45%N :: lit "008" ++ 46%N :: lit "5678").
  rewrite (real_float_signed_decimal decimal 45 (lit "008") (lit "5678") Hd eq_refl).
  - rewrite (real_decimal_to_float_ascii decimal _ _ _ Hd) by reflexivity.
    vm_compute. reflexivity.
  - discriminate.
  - now rewrite (real_all_digits_ascii decimal _ Hd) by reflexivity.
  - now rewrite (real_all_digits_ascii decimal _ Hd) by reflexivity.
Qed.

Lemma example_signed_decimal (decimal : N -> option N) (c : N) (ip fp : str) :
  ascii_decimal decimal ->
  Py.is_sign c = true ->
  ip <> [] -> fp <> [] ->
  forallb (fun c => (c <? 128)%N) (ip ++ fp) = true ->
  Py.all_digits ascii_digit (ip ++ fp) = true ->
  signed_decimal_text decimal (c :: ip ++ 46%N :: fp).
Proof.
  intros Hd Hc Hi Hf Ha H.
  rewrite forallb_app in Ha. apply andb_true_iff in Ha. destruct Ha as [Ha1 Ha2].
  rewrite real_all_digits_app in H. apply andb_true_iff in H. destruct H as [H1 H2].
  exists c, ip, fp. repeat split; try assumption.
  - now rewrite (real_all_digits_ascii decimal _ Hd Ha1).
  - now rewrite (real_all_digits_ascii decimal _ Hd Ha2).
Qed.

Lemma location_example_match (decimal : N -> option N) (t : str) :
  ascii_decimal decimal -> no_digit_ahead decimal t = true ->
  Re.match_ (Re.location_pattern decimal) (lit "+40.1234-008.5678" ++ t)
  = Some [lit "+40.1234-008.5678"; lit "+40.1234"; lit "-008.5678"].
Proof.
  intros Hd Ht.
  apply (real_location_head decimal (lit "+40.1234") (lit "-008.5678") t Hd).
  - apply (example_signed_decimal decimal 43 (lit "40") (lit "1234") Hd);
      try reflexivity; discriminate.
  - apply (example_signed_decimal decimal 45 (lit "008") (lit "5678") Hd);
      try reflexivity; discriminate.
  - exact Ht.
Qed.

(** C10: the pattern matches exactly the tags that begin with two
    signed decimals (sign, digits, point, digits, twice), the digits
    being those of [\d]; with the message printed, the extractor
    returns a latitude and a longitude exactly for these tags, and has
    no result for the others; what follows the second number is
    ignored, so that a tag with an altitude suffix gives the same
    latitude and longitude; a number without a point or without a sign
    gives [None]. *)
Theorem location_parse_by_pattern :
  (forall decimal tag,
      Re.match_ (Re.location_pattern decimal) tag <> None
      <-> begins_with_two_signed_decimals decimal tag)
  /\ (forall rt video_path f tag w,
         has_location_tag f tag ->
         ascii_decimal (decimal rt) ->
         (forall lat lon, printed rt (MsgVideoExtracted video_path lat lon None)) ->
         (begins_with_two_signed_decimals (decimal rt) tag
          <-> exists lat lon,
                fst (extract_gps_metadata_from_video rt video_path f w)
                = Ok (Some (lat, lon, None))))
  /\ (forall rt video_path f tag w g,
         has_location_tag f tag ->
         ~ begins_with_two_signed_decimals (decimal rt) tag ->
         fst (extract_gps_metadata_from_video rt video_path f w) <> Ok (Some g))
  /\ (forall rt video_path f a b t w,
         ascii_decimal (decimal rt) ->
         signed_decimal_text (decimal rt) a ->
         signed_decimal_text (decimal rt) b ->
         no_digit_ahead (decimal rt) t = true ->
         has_location_tag f (a ++ b ++ t) ->
         exists lat lon,
           Py.float (decimal rt) a = Ok lat /\ Py.float (decimal rt) b = Ok lon
           /\ (printed rt (MsgVideoExtracted video_path lat lon None) ->
               fst (extract_gps_metadata_from_video rt video_path f w)
               = Ok (Some (lat, lon, None))))
  /\ (forall rt video_path f w,
         ascii_decimal (decimal rt) ->
         has_location_tag f (lit "+40.1234-008.5678+100.000/") ->
         printed rt (MsgVideoExtracted video_path 40.1234%float (-8.5678)%float None) ->
         fst (extract_gps_metadata_from_video rt video_path f w)
         = Ok (Some (40.1234%float, (-8.5678)%float, None)))
  /\ (forall rt video_path f w,
         has_location_tag f (lit "+40-008") ->
         printed rt (MsgNoGpsVideo video_path) ->
         fst (extract_gps_metadata_from_video rt video_path f w) = Ok None)
  /\ (forall rt video_path f w,
         has_location_tag f (lit "40.1234-008.5678") ->
         printed rt (MsgNoGpsVideo video_path) ->
         fst (extract_gps_metadata_from_video rt video_path f w) = Ok None).
Proof.
  assert (Hparts : forall rt video_path f a b t w,
             ascii_decimal (decimal rt) ->
             signed_decimal_text (decimal rt) a ->
             signed_decimal_text (decimal rt) b ->
             no_digit_ahead (decimal rt) t = true ->
             has_location_tag f (a ++ b ++ t) ->
             exists lat lon,
               Py.float (decimal rt) a = Ok lat /\ Py.float (decimal rt) b = Ok lon
               /\ (printed rt (MsgVideoExtracted video_path lat lon None) ->
                   fst (extract_gps_metadata_from_video rt video_path f w)
                   = Ok (Some (lat, lon, None)))).
  { intros rt video_path f a b t w Hd Ha Hb Ht Hf.
    destruct (real_float_of_signed_decimal_text _ a Hd Ha) as (lat & Hlat).
    destruct (real_float_of_signed_decimal_text _ b Hd Hb) as (lon & Hlon).
    exists lat, lon. repeat split; try assumption. intros Hp.
    rewrite (real_video_with_match rt video_path f _ _ _ _ _ lat lon w Hf
               (real_location_head _ a b t Hd Ha Hb Ht) Hlat Hlon Hp).
    reflexivity. }
  assert (Hnone : forall rt video_path f tag w,
             has_location_tag f tag ->
             ~ begins_with_two_signed_decimals (decimal rt) tag ->
             printed rt (MsgNoGpsVideo video_path) ->
             fst (extract_gps_metadata_from_video rt video_path f w) = Ok None).
  { intros rt video_path f tag w Ht Hn Hp.
    rewrite (real_video_without_match rt video_path f tag w Ht); [reflexivity| |exact Hp].
    destruct (Re.match_ (Re.location_pattern (decimal rt)) tag) eqn:E; [|reflexivity].
    destruct Hn. apply real_location_match_iff. congruence. }
  split; [|split; [|split; [|split; [|split; [|split]]]]].
  - apply real_location_match_iff.
  - intros rt video_path f tag w Ht Hd Hp. split.
    + intros Hb. apply real_begins_with_two_maximal in Hb.
      destruct Hb as (a & b & t & -> & Ha & Hb & Hn).
      destruct (Hparts rt video_path f a b t w Hd Ha Hb Hn Ht)
        as (lat & lon & _ & _ & H).
      exists lat, lon. apply H, Hp.
    + intros (lat & lon & H).
      destruct (real_video_some_inv rt video_path f w _ H) as (tag' & Ht' & Hb).
      now rewrite (has_tag_unique f tag tag' Ht Ht').
  - intros rt video_path f tag w g Ht Hn H.
    destruct (real_video_some_inv rt video_path f w _ H) as (tag' & Ht' & Hb).
    rewrite (has_tag_unique f tag tag' Ht Ht') in Hn. exact (Hn Hb).
  - exact Hparts.
  - intros rt video_path f w Hd Ht Hp.
    rewrite (real_video_with_match rt video_path f _ _ _ _ _ _ _ w Ht
               (location_example_match (decimal rt) (lit "+100.000/") Hd
                  ltac:(simpl; now rewrite (ascii_sign_not_digit _ 43 Hd eq_refl)))
               (float_example_lat _ Hd) (float_example_lon _ Hd) Hp).
    reflexivity.
  - intros rt video_path f w Ht Hp.
    apply (Hnone rt video_path f _ w Ht); [|exact Hp].
    apply not_begins_without_point.
    intros H. vm_compute in H. repeat (destruct H as [H|H]; [discriminate|]). exact H.
  - intros rt video_path f w Ht Hp.
    apply (Hnone rt video_path f _ w Ht); [|exact Hp].
    now apply not_begins_without_sign.
Qed.

Lemma location_parse_by_pattern_witness :
  fst (extract_gps_metadata_from_video sample_runtime (lit "DJI_0002.mp4")
         (sample_video (lit "+40.1234-008.5678+100.000/")) sample_world)
  = Ok (Some (40.1234%float, (-8.5678)%float, None)).
Proof.
  exact (proj1 (proj2 (proj2 (proj2 (proj2 location_parse_by_pattern))))
           sample_runtime (lit "DJI_0002.mp4")
           (sample_video (lit "+40.1234-008.5678+100.000/")) sample_world
           sample_decimal_ascii
           (real_sample_video_tag (lit "+40.1234-008.5678+100.000/"))
           eq_refl).
Defined.
(* ================================================================== *)
(** * The photo extractor *)

Lemma real_photo_open_fails (rt : runtime) (photo_path : str) (f : file_content)
    (e : exn) (w : world) :
  image f = Raise e ->
  printed rt (MsgPhotoError photo_path e) ->
  extract_gps_metadata_from_photo rt photo_path f w
  = (Ok None, after w [EvOpen photo_path; EvPrint (MsgPhotoError photo_path e)]).
Proof.
  intros He Hp.
  unfold extract_gps_metadata_from_photo, try_except, open_image, bind, emit, lift,
    print.
  rewrite He, Hp. unfold after; simpl. now rewrite <- app_assoc.
Qed.

Lemma real_photo_lacks (rt : runtime) (photo_path : str) (f : file_content)
    (img : Image) (w : world) :
  image f = Ok img ->
  has_exif img = false \/ gps_latitude img = None \/ gps_longitude img = None ->
  printed rt (MsgNoGpsPhoto photo_path) ->
  extract_gps_metadata_from_photo rt photo_path f w
  = (Ok None, after w [EvOpen photo_path; EvPrint (MsgNoGpsPhoto photo_path)]).
Proof.
  intros Himg Hno Hp.
  unfold extract_gps_metadata_from_photo, try_except, open_image, bind, emit, lift,
    print.
  rewrite Himg.
  assert (Hc : has_exif img && hasattr (gps_latitude img)
               && hasattr (gps_longitude img) = false).
  { destruct Hno as [H|[H|H]]; rewrite H; simpl.
    - reflexivity.
    - now rewrite andb_false_r.
    - now rewrite andb_false_r. }
  rewrite Hc, Hp. unfold after; simpl. now rewrite <- app_assoc.
Qed.

Lemma real_photo_some_inv (rt : runtime) (photo_path : str) (f : file_content)
    (w : world) (g : gps) :
  fst (extract_gps_metadata_from_photo rt photo_path f w) = Ok (Some g) ->
  exists img lat lon lat_ref lon_ref,
    image f = Ok img /\ has_exif img = true
    /\ gps_latitude img = Some lat /\ gps_longitude img = Some lon
    /\ gps_latitude_ref img = Some lat_ref /\ gps_longitude_ref img = Some lon_ref
    /\ (3 <= List.length lat)%nat /\ (3 <= List.length lon)%nat.
Proof.
  unfold extract_gps_metadata_from_photo. intros H. apply handler_some in H.
  revert H.
  unfold open_image, bind, emit, lift.
  destruct (image f) as [img|] eqn:Hi; simpl; [|discriminate].
  destruct img as [ex la lo al lar lor]. simpl.
  destruct ex; simpl; [|intros H; now apply no_data_none in H].
  destruct la as [la|]; simpl; [|intros H; now apply no_data_none in H].
  destruct lo as [lo|]; simpl; [|intros H; now apply no_data_none in H].
  destruct lar as [lar|]; simpl; [|discriminate].
  destruct lor as [lor|]; simpl; [|discriminate].
  unfold to_decimal, tuple_item, bind.
  destruct la as [|a0 [|a1 [|a2 la]]]; simpl; try discriminate.
  destruct lo as [|b0 [|b1 [|b2 lo]]]; simpl; try discriminate.
  intros _. do 5 eexists. repeat split; simpl; lia.
Qed.

Lemma photo_raise_origin (rt : runtime) (photo_path : str) (f : file_content)
    (w : world) :
  exists o evs,
    extract_gps_metadata_from_photo rt photo_path f w = (o, after w evs)
    /\ forall e, o = Raise e ->
                 exists e0, stdout rt (MsgPhotoError photo_path e0) = Some e.
Proof.
  destruct (photo_oblivious rt photo_path f) as (o & evs & E).
  exists o, evs. split; [apply E|]. intros e ->.
  specialize (E w). unfold extract_gps_metadata_from_photo in E.
  exact (handler_raise rt _ (MsgPhotoError photo_path) w _ e E).
Qed.

(** A computation that does not raise. *)
Lemma real_returns_bind {A B} (c : M A) (k : A -> M B) (w : world) :
  (exists a w1, c w = (Ok a, w1)) ->
  (forall a w1, exists b w2, k a w1 = (Ok b, w2)) ->
  exists b w2, bind c k w = (Ok b, w2).
Proof.
  intros (a & w1 & E) Hk. unfold bind. rewrite E. apply Hk.
Qed.

Lemma real_returns_for {A S} (body : A -> S -> M S) (l : list A) :
  (forall x s w, exists s' w', body x s w = (Ok s', w')) ->
  forall s w, exists s' w', for_ l body s w = (Ok s', w').
Proof.
  intros Hb. induction l as [|x l IH]; intros s w; simpl.
  - now exists s, w.
  - apply real_returns_bind; [apply Hb|]. intros s' w1. apply IH.
Qed.

Lemma photo_returns (rt : runtime) (photo_path : str) (f : file_content) (w : world) :
  (forall e0, printed rt (MsgPhotoError photo_path e0)) ->
  exists r w', extract_gps_metadata_from_photo rt photo_path f w = (Ok r, w').
Proof.
  intros Hp. destruct (photo_raise_origin rt photo_path f w) as (o & evs & E & Hr).
  destruct o as [r|e]; [now exists r, (after w evs)|].
  destruct (Hr e eq_refl) as (e0 & H0). specialize (Hp e0). unfold printed in Hp.
  congruence.
Qed.

Lemma video_returns (rt : runtime) (video_path : str) (f : file_content) (w : world) :
  (forall e0, printed rt (MsgVideoError video_path e0)) ->
  exists r w', extract_gps_metadata_from_video rt video_path f w = (Ok r, w').
Proof.
  intros Hp. destruct (video_raise_origin rt video_path f w) as (o & evs & E & Hr).
  destruct o as [r|e]; [now exists r, (after w evs)|].
  destruct (Hr e eq_refl) as (e0 & H0). specialize (Hp e0). unfold printed in Hp.
  congruence.
Qed.

Lemma process_file_returns (rt : runtime) (mission_id : Z) (root : str)
    (file : str * file_content) (data : list media) (w : world) :
  prints_errors rt ->
  exists data' w', process_file rt mission_id root file data w = (Ok data', w').
Proof.
  intros Hp. unfold process_file. destruct file as [name content].
  destruct (Py.endswith_any (lower rt name) photo_suffixes).
  - apply real_returns_bind; [apply photo_returns; intros e0; apply Hp|].
    intros [[[lat lon] alt]|] w1; eexists; eexists; reflexivity.
  - destruct (Py.endswith_any (lower rt name) video_suffixes).
    + apply real_returns_bind; [apply video_returns; intros e0; apply Hp|].
      intros [[[lat lon] alt]|] w1; eexists; eexists; reflexivity.
    + eexists; eexists; reflexivity.
Qed.

(** With the error messages printed, the walk runs to its end. *)
Lemma collect_media_returns (rt : runtime) (mission_id : Z) (mission_path : str)
    (mission_dir : node) (w : world) :
  prints_errors rt ->
  exists data evs,
    collect_media rt mission_id mission_path mission_dir w = (Ok data, after w evs).
Proof.
  intros Hp.
  destruct (collect_media_oblivious rt mission_id mission_path mission_dir)
    as (o & evs & E).
  assert (H : exists data w',
             collect_media rt mission_id mission_path mission_dir w = (Ok data, w')).
  { unfold collect_media. apply real_returns_for.
    intros [[root dirs] files] data w1. apply real_returns_for.
    intros file data' w2. now apply process_file_returns. }
  destruct H as (data & w' & H). rewrite E in H. inversion H; subst.
  exists data, evs. apply E.
Qed.

(** The photo extractor raises for a name that the terminal cannot
    write, when the file cannot be opened. *)
Lemma photo_extractor_can_raise :
  fst (extract_gps_metadata_from_photo sample_runtime
         (lit "Mission1/" ++ [26085%N; 26412%N] ++ lit ".jpg")
         unreadable_file sample_world)
  = Raise UnicodeEncodeError.
Proof. reflexivity. Qed.

(** C5: the photo extractor only adds to the log, and an exception
    leaves it only when its handler's own [print] raises, with the
    exception of that [print]; when the message is printed, a file that
    cannot be opened or parsed (the exception is caught and printed),
    an image without EXIF data, without latitude or without longitude
    all give [None]; when the error messages are printed the extractor
    returns, with [None] in these cases, and the walk that calls the
    extractors runs to its end; a result other than [None] is only
    returned when the image opens and has EXIF data, both triples and
    both reference characters. *)
Theorem photo_extractor_raises_only_from_print :
  (forall rt photo_path f w,
      exists o evs,
        extract_gps_metadata_from_photo rt photo_path f w = (o, after w evs)
        /\ forall e, o = Raise e ->
                     exists e0, stdout rt (MsgPhotoError photo_path e0) = Some e)
  /\ (forall rt photo_path f e w,
         image f = Raise e ->
         printed rt (MsgPhotoError photo_path e) ->
         extract_gps_metadata_from_photo rt photo_path f w
         = (Ok None, after w [EvOpen photo_path;
                              EvPrint (MsgPhotoError photo_path e)]))
  /\ (forall rt photo_path f img w,
         image f = Ok img ->
         has_exif img = false \/ gps_latitude img = None \/ gps_longitude img = None ->
         printed rt (MsgNoGpsPhoto photo_path) ->
         extract_gps_metadata_from_photo rt photo_path f w
         = (Ok None, after w [EvOpen photo_path;
                              EvPrint (MsgNoGpsPhoto photo_path)]))
  /\ (forall rt photo_path f w,
         (forall e0, printed rt (MsgPhotoError photo_path e0)) ->
         (exists r, fst (extract_gps_metadata_from_photo rt photo_path f w) = Ok r)
         /\ ((exists e, image f = Raise e)
             \/ (exists img,
                    image f = Ok img
                    /\ (has_exif img = false \/ gps_latitude img = None
                        \/ gps_longitude img = None)) ->
             fst (extract_gps_metadata_from_photo rt photo_path f w) = Ok None))
  /\ (forall rt mission_id mission_path mission_dir w,
         prints_errors rt ->
         exists data evs,
           collect_media rt mission_id mission_path mission_dir w
           = (Ok data, after w evs))
  /\ (forall rt photo_path f w g,
         fst (extract_gps_metadata_from_photo rt photo_path f w) = Ok (Some g) ->
         exists img lat lon lat_ref lon_ref,
           image f = Ok img /\ has_exif img = true
           /\ gps_latitude img = Some lat /\ gps_longitude img = Some lon
           /\ gps_latitude_ref img = Some lat_ref
           /\ gps_longitude_ref img = Some lon_ref
           /\ (3 <= List.length lat)%nat /\ (3 <= List.length lon)%nat).
Proof.
  split; [|split; [|split; [|split; [|split]]]].
  - intros. apply photo_raise_origin.
  - intros. now apply real_photo_open_fails.
  - intros. now eapply real_photo_lacks; eauto.
  - intros rt photo_path f w Hp.
    destruct (photo_returns rt photo_path f w Hp) as (r & w' & E).
    split; [exists r; now rewrite E|]. intros Hcase.
    pose proof (real_photo_some_inv rt photo_path f w) as Hs.
    rewrite E in *. simpl in *.
    destruct r as [g|]; [|reflexivity]. exfalso.
    destruct (Hs g eq_refl)
      as (img & lat & lon & lat_ref & lon_ref & Hi & Hx & Hla & Hlo & _).
    destruct Hcase as [(e & He)|(img' & Hi' & Hno)]; [congruence|].
    rewrite Hi in Hi'. inversion Hi'; subst img'.
    destruct Hno as [H|[H|H]]; congruence.
  - intros. now apply collect_media_returns.
  - apply real_photo_some_inv.
Qed.

Lemma photo_extractor_raises_only_from_print_witness :
  extract_gps_metadata_from_photo sample_runtime (lit "DJI_0009.jpg")
    unreadable_file sample_world
  = (Ok None, after sample_world
                [EvOpen (lit "DJI_0009.jpg");
                 EvPrint (MsgPhotoError (lit "DJI_0009.jpg") OSError)]).
Proof.
  exact (proj1 (proj2 photo_extractor_raises_only_from_print)
           sample_runtime (lit "DJI_0009.jpg") unreadable_file OSError sample_world
           eq_refl eq_refl).
Defined.

(* ================================================================== *)
(** * Suffixes and extensions *)

Lemma real_endswith_iff (s suffix : str) :
  Py.endswith s suffix = true <-> exists pre, s = pre ++ suffix.
Proof.
  induction s as [|c s IH].
  - cbn [Py.endswith]. destruct (eqb [] suffix) eqn:E.
    + apply real_eqb_eq in E. subst.
      split; [intros _; now exists []|intros _; reflexivity].
    + apply real_eqb_neq in E. split; [discriminate|].
      intros ([|c pre] & E'); simpl in E'.
      * now subst.
      * discriminate.
  - cbn [Py.endswith]. destruct (eqb (c :: s) suffix) eqn:E.
    + apply real_eqb_eq in E. subst.
      split; [intros _; now exists []|intros _; reflexivity].
    + apply real_eqb_neq in E. rewrite IH. split.
      * intros (pre & ->). now exists (c :: pre).
      * intros ([|c' pre] & E'); simpl in E'.
        -- now subst.
        -- inversion E'. now exists pre.
Qed.

Lemma real_extension_app (pre e : str) :
  extension e = None -> extension (pre ++ 46%N :: e) = Some e.
Proof.
  intros He. induction pre as [|c pre IH]; simpl.
  - now rewrite He.
  - now rewrite IH.
Qed.

Lemma real_extension_inv (s e : str) :
  extension s = Some e -> exists pre, s = pre ++ 46%N :: e.
Proof.
  revert e. induction s as [|c s IH]; simpl; intros e H; [discriminate|].
  destruct (extension s) as [e'|] eqn:E.
  - inversion H; subst. destruct (IH e eq_refl) as (pre & ->).
    now exists (c :: pre).
  - destruct (N.eqb_spec c 46) as [->|]; [|discriminate].
    inversion H; subst. now exists [].
Qed.

Lemma real_endswith_extension (s e0 : str) :
  extension e0 = None ->
  Py.endswith s (46%N :: e0)
  = match extension s with
    | Some e => eqb e e0
    | None => false
    end.
Proof.
  intros He0. apply eq_true_iff_eq. rewrite real_endswith_iff. split.
  - intros (pre & ->). rewrite (real_extension_app pre e0 He0). apply real_eqb_refl.
  - destruct (extension s) as [e|] eqn:E; [|discriminate].
    intros H. apply real_eqb_eq in H. subst e. now apply real_extension_inv.
Qed.

Lemma real_photo_suffixes_extension (s : str) :
  Py.endswith_any s photo_suffixes
  = match extension s with
    | Some e => mem e photo_extensions
    | None => false
    end.
Proof.
  unfold Py.endswith_any, photo_suffixes, mem, photo_extensions. cbn [existsb].
  change (lit ".jpg") with (46%N :: lit "jpg").
  change (lit ".jpeg") with (46%N :: lit "jpeg").
  change (lit ".png") with (46%N :: lit "png").
  rewrite !real_endswith_extension by reflexivity.
  destruct (extension s); reflexivity.
Qed.

Lemma real_video_suffixes_extension (s : str) :
  Py.endswith_any s video_suffixes
  = match extension s with
    | Some e => mem e video_extensions
    | None => false
    end.
Proof.
  unfold Py.endswith_any, video_suffixes, mem, video_extensions. cbn [existsb].
  change (lit ".mp4") with (46%N :: lit "mp4").
  change (lit ".mov") with (46%N :: lit "mov").
  change (lit ".avi") with (46%N :: lit "avi").
  change (lit ".mkv") with (46%N :: lit "mkv").
  rewrite !real_endswith_extension by reflexivity.
  destruct (extension s); reflexivity.
Qed.

Lemma process_file_dispatch (rt : runtime) (mission_id : Z) (root name : str)
    (content : file_content) (data : list media) (w : world) :
  process_file rt mission_id root (name, content) data w
  = dispatch rt mission_id (root, (name, content)) data w.
Proof.
  unfold process_file, dispatch, classify.
  rewrite real_photo_suffixes_extension, real_video_suffixes_extension.
  destruct (extension (lower rt name)) as [e|]; [|reflexivity].
  destruct (mem e photo_extensions).
  - unfold bind.
    destruct (extract_gps_metadata_from_photo rt (Py.join root name) content w)
      as [[[[[lat lon] alt]|]|ex] w']; reflexivity.
  - destruct (mem e video_extensions); [|reflexivity].
    unfold bind.
    destruct (extract_gps_metadata_from_video rt (Py.join root name) content w)
      as [[[[[lat lon] alt]|]|ex] w']; reflexivity.
Qed.

(* ================================================================== *)
(** * The walk *)

Lemma real_for_ext {A S} (f g : A -> S -> M S) (l : list A) :
  (forall x s w, f x s w = g x s w) ->
  forall s w, for_ l f s w = for_ l g s w.
Proof.
  intros H. induction l as [|x l IH]; intros s w; simpl; [reflexivity|].
  unfold bind. rewrite H. destruct (g x s w) as [[s'|e] w']; [apply IH|reflexivity].
Qed.

Lemma real_for_app {A S} (body : A -> S -> M S) (l1 l2 : list A) (s : S) (w : world) :
  for_ (l1 ++ l2) body s w = (s' <- for_ l1 body s ;; for_ l2 body s') w.
Proof.
  revert s w. induction l1 as [|x l1 IH]; intros s w; simpl; [reflexivity|].
  unfold bind. destruct (body x s w) as [[s'|e] w']; [|reflexivity].
  rewrite IH. reflexivity.
Qed.

Lemma real_for_flat_map {A B S} (f : A -> list B) (body : B -> S -> M S)
    (l : list A) :
  forall s w,
    for_ (flat_map f l) body s w = for_ l (fun x s' => for_ (f x) body s') s w.
Proof.
  induction l as [|x l IH]; intros s w; simpl; [reflexivity|].
  rewrite real_for_app. unfold bind.
  destruct (for_ (f x) body s w) as [[s'|e] w']; [apply IH|reflexivity].
Qed.

Lemma real_for_map {A B S} (f : A -> B) (body : B -> S -> M S) (l : list A) :
  forall s w, for_ (map f l) body s w = for_ l (fun x s' => body (f x) s') s w.
Proof.
  induction l as [|x l IH]; intros s w; simpl; [reflexivity|].
  unfold bind. destruct (body (f x) s w) as [[s'|e] w']; [apply IH|reflexivity].
Qed.

(** The files that a walk comes across are those of the folders that
    [os.walk] yields, in its order. *)
Lemma discovered_walk :
  forall (n : node) (top : str),
    discovered top n
    = flat_map (fun '(root, _, files) => map (fun f => (root, f)) files)
               (walk top n).
Proof.
  induction n as [f|a entries IH] using node_induction; intros top; simpl;
    [reflexivity|].
  destruct (readable a); [|reflexivity]. simpl. f_equal.
  induction IH as [|[name child] es Hc _ IHes]; simpl; [reflexivity|].
  rewrite flat_map_app, IHes. f_equal.
  destruct child as [f|a' entries']; [reflexivity|].
  destruct (is_link a'); [reflexivity|]. apply Hc.
Qed.

Lemma collect_media_dispatch (rt : runtime) (mission_id : Z) (mission_path : str)
    (mission_dir : node) (w : world) :
  collect_media rt mission_id mission_path mission_dir w
  = for_ (discovered mission_path mission_dir) (dispatch rt mission_id) [] w.
Proof.
  unfold collect_media. rewrite discovered_walk, real_for_flat_map.
  apply real_for_ext. intros [[root dirs] files] data w'.
  rewrite real_for_map. apply real_for_ext.
  intros [name content] data' w''. apply process_file_dispatch.
Qed.

(* ================================================================== *)
(** * What the steps leave as it is *)

Lemma frame_refl (w : world) : frame w w.
Proof. unfold frame. repeat split; auto; lia. Qed.

Lemma frame_trans (w1 w2 w3 : world) : frame w1 w2 -> frame w2 w3 -> frame w1 w3.
Proof.
  intros (A1 & B1 & C1 & D1 & E1) (A2 & B2 & C2 & D2 & E2).
  unfold frame. repeat split; try congruence; auto; lia.
Qed.

Lemma frame_after (w : world) (evs : list event) : frame w (after w evs).
Proof. unfold frame, after. simpl. repeat split; auto; lia. Qed.

Lemma framed_oblivious {A} (c : M A) : oblivious c -> framed c.
Proof.
  intros (o & evs & E) w o' w' H. rewrite E in H. inversion H; subst.
  apply frame_after.
Qed.

Lemma framed_ret {A} (a : A) : framed (ret a).
Proof. apply framed_oblivious, real_oblivious_ret. Qed.

Lemma framed_bind {A B} (c : M A) (k : A -> M B) :
  framed c -> (forall a, framed (k a)) -> framed (bind c k).
Proof.
  intros Hc Hk w o w' H. unfold bind in H.
  destruct (c w) as [[a|e] w1] eqn:E.
  - apply (frame_trans w w1 w'); [exact (Hc _ _ _ E)|exact (Hk a _ _ _ H)].
  - inversion H; subst. exact (Hc _ _ _ E).
Qed.

Lemma framed_for {A S} (body : A -> S -> M S) (l : list A) :
  (forall x s, framed (body x s)) -> forall s, framed (for_ l body s).
Proof.
  intros Hb. induction l as [|x l IH]; intros s; simpl.
  - apply framed_ret.
  - apply framed_bind; [apply Hb|]. intros s'. apply IH.
Qed.

(* ================================================================== *)
(** * The insert *)

Lemma fits_cons (next : Z) (n : nat) :
  fits next (S n) = negb (max_id <? next)%Z && fits (next + 1) n.
Proof.
  unfold fits. destruct n as [|n].
  - simpl Nat.eqb. cbn [orb]. rewrite andb_true_r.
    destruct (Z.leb_spec (next + Z.of_nat 1 - 1) max_id);
      destruct (Z.ltb_spec max_id next); simpl; try reflexivity; lia.
  - simpl Nat.eqb. cbn [orb].
    destruct (Z.leb_spec (next + Z.of_nat (S (S n)) - 1) max_id);
      destruct (Z.leb_spec (next + 1 + Z.of_nat (S n) - 1) max_id);
      destruct (Z.ltb_spec max_id next); simpl; try reflexivity; lia.
Qed.

Lemma fits_le (next next' : Z) (n : nat) :
  (next <= next')%Z -> fits next' n = true -> fits next n = true.
Proof.
  unfold fits. intros Hle H. apply orb_true_iff in H. apply orb_true_iff.
  destruct H as [H|H]; [now left|right].
  apply Z.leb_le in H. apply Z.leb_le. lia.
Qed.

Lemma below_le (rows : list row) (next next' : Z) :
  (next <= next')%Z -> below rows next -> below rows next'.
Proof. intros Hle H r Hr. specialize (H r Hr). lia. Qed.

Lemma below_app (rows : list row) (next : Z) (v : values) :
  below rows next -> below (rows ++ [row_with_id next v]) (next + 1).
Proof.
  intros H r Hr. apply in_app_or in Hr. destruct Hr as [Hr|[<-|[]]].
  - specialize (H r Hr). lia.
  - cbn [row_with_id id]. lia.
Qed.

Lemma below_id_free (rows : list row) (next : Z) :
  below rows next -> id_taken rows next = false.
Proof.
  intros H. unfold id_taken. destruct (existsb _ rows) eqn:E; [|reflexivity].
  apply existsb_exists in E. destruct E as (r & Hr & Hi).
  apply Z.eqb_eq in Hi. specialize (H r Hr). lia.
Qed.

Lemma insert_all_below (vs : list values) :
  forall rows next,
    below rows next ->
    below (insert_all rows next vs) (next + Z.of_nat (List.length vs)).
Proof.
  induction vs as [|v vs IH]; intros rows next H.
  - simpl. now rewrite Z.add_0_r.
  - cbn [insert_all].
    replace (next + Z.of_nat (List.length (v :: vs)))%Z
      with (next + 1 + Z.of_nat (List.length vs))%Z by (cbn [List.length]; lia).
    apply IH. destruct (path_taken rows (v_full_path v)).
    + apply (below_le rows next); [lia|exact H].
    + now apply below_app.
Qed.

Lemma propose_fits (vs : list values) :
  forall rows added next,
    below rows next ->
    fits next (List.length vs) = true ->
    exists added',
      propose rows added next vs
      = (Ok (insert_all rows next vs, added'), (next + Z.of_nat (List.length vs))%Z)
      /\ forall r, In r added' ->
                   In r added \/ exists v, In v vs /\ mission_id r = v_mission_id v.
Proof.
  induction vs as [|v vs IH]; intros rows added next Hb Hf.
  - exists added. simpl. rewrite Z.add_0_r. auto.
  - cbn [List.length] in Hf. rewrite fits_cons in Hf.
    apply andb_true_iff in Hf. destruct Hf as [Hn Hf].
    apply negb_true_iff in Hn.
    cbn [propose insert_all]. rewrite Hn.
    replace (next + Z.of_nat (List.length (v :: vs)))%Z
      with (next + 1 + Z.of_nat (List.length vs))%Z
      by (cbn [List.length]; lia).
    destruct (path_taken rows (v_full_path v)).
    + destruct (IH rows added (next + 1)%Z
                  (below_le rows next (next + 1) ltac:(lia) Hb) Hf)
        as (added' & E & H).
      exists added'. split; [exact E|].
      intros r Hr. destruct (H r Hr) as [Ha|(v' & Hv & Hm)]; [now left|].
      right. exists v'. split; [now right|exact Hm].
    + rewrite (below_id_free rows next Hb).
      destruct (IH (rows ++ [row_with_id next v]) (added ++ [row_with_id next v])
                  (next + 1)%Z (below_app rows next v Hb) Hf) as (added' & E & H).
      exists added'. split; [exact E|].
      intros r Hr. destruct (H r Hr) as [Ha|(v' & Hv & Hm)].
      * apply in_app_or in Ha. destruct Ha as [Ha|[<-|[]]]; [now left|].
        right. exists v. split; [now left|reflexivity].
      * right. exists v'. split; [now right|exact Hm].
Qed.

Lemma propose_unfit (vs : list values) :
  forall rows added next,
    fits next (List.length vs) = false ->
    exists e, fst (propose rows added next vs) = Raise e.
Proof.
  induction vs as [|v vs IH]; intros rows added next Hf.
  - discriminate.
  - cbn [List.length] in Hf. rewrite fits_cons in Hf.
    cbn [propose]. destruct (max_id <? next)%Z; [eexists; reflexivity|].
    simpl in Hf. destruct (path_taken rows (v_full_path v)); [now apply IH|].
    destruct (id_taken rows next); [eexists; reflexivity|now apply IH].
Qed.

Lemma propose_next (vs : list values) :
  forall rows added next, (next <= snd (propose rows added next vs))%Z.
Proof.
  induction vs as [|v vs IH]; intros rows added next; cbn [propose]; [simpl; lia|].
  destruct (max_id <? next)%Z; [simpl; lia|].
  destruct (path_taken rows (v_full_path v)).
  - specialize (IH rows added (next + 1)%Z). lia.
  - destruct (id_taken rows next); [simpl; lia|].
    specialize (IH (rows ++ [row_with_id next v]) (added ++ [row_with_id next v])
                  (next + 1)%Z). lia.
Qed.

Lemma real_path_taken_app (rows : list row) (r : row) (p : str) :
  path_taken (rows ++ [r]) p = path_taken rows p || eqb (full_path r) p.
Proof.
  unfold path_taken. rewrite existsb_app. simpl. now rewrite orb_false_r.
Qed.

(** Rows stay where they are, and paths stay taken. *)
Lemma insert_all_prefix (vs : list values) :
  forall rows next, exists new, insert_all rows next vs = rows ++ new.
Proof.
  induction vs as [|v vs IH]; intros rows next; cbn [insert_all].
  - exists []. now rewrite app_nil_r.
  - destruct (path_taken rows (v_full_path v)); [apply IH|].
    destruct (IH (rows ++ [row_with_id next v]) (next + 1)%Z) as (new & E).
    exists (row_with_id next v :: new). rewrite E, <- app_assoc. reflexivity.
Qed.

Lemma insert_all_keeps (vs : list values) (rows : list row) (next : Z) (p : str) :
  path_taken rows p = true -> path_taken (insert_all rows next vs) p = true.
Proof.
  intros H. destruct (insert_all_prefix vs rows next) as (new & ->).
  unfold path_taken in *. rewrite existsb_app, H. reflexivity.
Qed.

(** After the statement the path of every proposed row is taken. *)
Lemma insert_all_takes (vs : list values) :
  forall rows next v,
    In v vs -> path_taken (insert_all rows next vs) (v_full_path v) = true.
Proof.
  induction vs as [|v0 vs IH]; intros rows next v Hin; [contradiction|].
  cbn [insert_all]. destruct Hin as [->|Hin]; [|now apply IH].
  apply insert_all_keeps.
  destruct (path_taken rows (v_full_path v)) eqn:E; [exact E|].
  rewrite real_path_taken_app. simpl. rewrite real_eqb_refl. apply orb_true_r.
Qed.

(** Rows whose paths are all taken leave the table as it is. *)
Lemma insert_all_paths_taken (vs : list values) (rows : list row) :
  (forall v, In v vs -> path_taken rows (v_full_path v) = true) ->
  forall next, insert_all rows next vs = rows.
Proof.
  induction vs as [|v vs IH]; intros H next; cbn [insert_all]; [reflexivity|].
  rewrite (H v (or_introl eq_refl)). apply IH. intros v' Hv'. apply H. now right.
Qed.

Lemma insert_all_app (vs1 vs2 : list values) :
  forall rows next,
    insert_all rows next (vs1 ++ vs2)
    = insert_all (insert_all rows next vs1)
                 (next + Z.of_nat (List.length vs1)) vs2.
Proof.
  induction vs1 as [|v vs1 IH]; intros rows next.
  - simpl. now rewrite Z.add_0_r.
  - cbn [app insert_all]. rewrite IH. f_equal. cbn [List.length]. lia.
Qed.

Lemma references_ok_of (ms : list (Z * str)) (i : Z) (vs : list values)
    (added : list row) :
  existsb (fun m => Z.eqb (fst m) i) ms = true ->
  (forall v, In v vs -> v_mission_id v = i) ->
  (forall r, In r added ->
             In r [] \/ exists v, In v vs /\ mission_id r = v_mission_id v) ->
  references_ok ms added = true.
Proof.
  intros Hi Hvs Ha. unfold references_ok. apply forallb_forall. intros r Hr.
  destruct (Ha r Hr) as [[]|(v & Hv & E)]. rewrite E, (Hvs v Hv). exact Hi.
Qed.

Lemma execute_insert_framed (rt : runtime) (vs : list values) :
  framed (execute_insert rt vs).
Proof.
  intros w o w' H. unfold execute_insert in H.
  destruct (client_rejects rt vs); [inversion H; subst; apply frame_refl|].
  destruct (drone_mission (session w)) as [rows|] eqn:Et;
    [|inversion H; subst; apply frame_after].
  destruct (missoes (session w)) as [ms|] eqn:Em;
    [|inversion H; subst; apply frame_after].
  destruct (server_rejects rt vs); [inversion H; subst; apply frame_after|].
  pose proof (propose_next vs rows [] (next_id w)) as Hn.
  destruct (propose rows [] (next_id w) vs) as [[[rows' added]|e] next]; simpl in Hn.
  - destruct (references_ok ms added); inversion H; subst; unfold frame; simpl;
      repeat split; try assumption; try congruence; intros _; discriminate.
  - inversion H; subst. unfold frame; simpl. repeat split; try assumption; auto.
Qed.

Lemma execute_insert_ok (rt : runtime) (vs : list values) (w : world)
    (rows : list row) (ms : list (Z * str)) (i : Z) :
  drone_mission (session w) = Some rows ->
  missoes (session w) = Some ms ->
  existsb (fun m => Z.eqb (fst m) i) ms = true ->
  (forall v, In v vs -> v_mission_id v = i) ->
  accepted rt vs = true ->
  below rows (next_id w) ->
  fits (next_id w) (List.length vs) = true ->
  execute_insert rt vs w
  = (Ok tt, {| stored := stored w;
               session := set_table (session w) (insert_all rows (next_id w) vs);
               next_id := next_id w + Z.of_nat (List.length vs);
               log := log w ++ [EvExecute (SqlInsert vs)] |}).
Proof.
  intros Et Em Hi Hvs Ha Hb Hf. unfold execute_insert, accepted in *.
  destruct (client_rejects rt vs); [discriminate|].
  destruct (server_rejects rt vs); [discriminate|].
  rewrite Et, Em.
  destruct (propose_fits vs rows [] (next_id w) Hb Hf) as (added & E & H).
  rewrite E. rewrite (references_ok_of ms i vs added Hi Hvs H). reflexivity.
Qed.

Lemma execute_insert_fail (rt : runtime) (vs : list values) (w : world) :
  accepted rt vs && fits (next_id w) (List.length vs) = false ->
  exists e w', execute_insert rt vs w = (Raise e, w').
Proof.
  intros H. unfold execute_insert, accepted in *.
  destruct (client_rejects rt vs) as [e|]; [now exists e, w|].
  destruct (drone_mission (session w)) as [rows|]; [|eexists; eexists; reflexivity].
  destruct (missoes (session w)) as [ms|]; [|eexists; eexists; reflexivity].
  destruct (server_rejects rt vs) as [e|]; [eexists; eexists; reflexivity|].
  simpl in H. destruct (propose_unfit vs rows [] (next_id w) H) as (e & Hp).
  destruct (propose rows [] (next_id w) vs) as [[[rows' added]|e'] next];
    [discriminate|].
  eexists; eexists; reflexivity.
Qed.

(* ================================================================== *)
(** * The pages of [execute_values] *)

Lemma real_paginate_fuel_concat {A} (n : nat) :
  (0 < n)%nat ->
  forall fuel (l : list A),
    (List.length l <= fuel)%nat -> List.concat (paginate_fuel fuel n l) = l.
Proof.
  intros Hn. induction fuel as [|fuel IH]; intros l Hl.
  - destruct l; [reflexivity|simpl in Hl; lia].
  - destruct l as [|x l]; [reflexivity|].
    cbn [paginate_fuel List.concat]. rewrite IH.
    + apply firstn_skipn.
    + rewrite length_skipn.
      change (List.length (x :: l)) with (S (List.length l)) in *. lia.
Qed.

Lemma real_paginate_concat {A} (n : nat) (l : list A) :
  (0 < n)%nat -> List.concat (paginate n l) = l.
Proof. intros Hn. unfold paginate. now apply real_paginate_fuel_concat. Qed.

Arguments paginate : simpl never.

Lemma pages_run_ok (rt : runtime) (ms : list (Z * str)) (i : Z)
    (pages : list (list values)) :
  existsb (fun m => Z.eqb (fst m) i) ms = true ->
  (forall v, In v (List.concat pages) -> v_mission_id v = i) ->
  forall w rows,
    drone_mission (session w) = Some rows ->
    missoes (session w) = Some ms ->
    below rows (next_id w) ->
    pages_ok rt (next_id w) pages = true ->
    exists evs,
      for_ pages (fun page _ => execute_insert rt page) tt w
      = (Ok tt, {| stored := stored w;
                   session := set_table (session w)
                                (insert_all rows (next_id w) (List.concat pages));
                   next_id := next_id w + Z.of_nat (List.length (List.concat pages));
                   log := log w ++ evs |}).
Proof.
  intros Hi. induction pages as [|page pages IH]; intros Hvs w rows Et Em Hb Hp.
  - exists []. simpl. unfold ret. f_equal. destruct w as [st se n l]. simpl in *.
    rewrite app_nil_r, Z.add_0_r. f_equal. destruct se. simpl in *. now subst.
  - cbn [pages_ok] in Hp. apply andb_true_iff in Hp. destruct Hp as [Hp Hps].
    apply andb_true_iff in Hp. destruct Hp as [Ha Hf].
    cbn [for_]. unfold bind.
    rewrite (execute_insert_ok rt page w rows ms i Et Em Hi); try assumption.
    2:{ intros v Hv. apply Hvs. cbn [List.concat]. apply in_or_app. now left. }
    assert (Hvs' : forall v, In v (List.concat pages) -> v_mission_id v = i).
    { intros v Hv. apply Hvs. cbn [List.concat]. apply in_or_app. now right. }
    destruct (IH Hvs' {| stored := stored w;
                         session := set_table (session w)
                                      (insert_all rows (next_id w) page);
                         next_id := next_id w + Z.of_nat (List.length page);
                         log := log w ++ [EvExecute (SqlInsert page)] |}
                 (insert_all rows (next_id w) page) eq_refl Em
                 (insert_all_below page rows (next_id w) Hb) Hps) as (evs & E).
    rewrite E. exists (EvExecute (SqlInsert page) :: evs). cbn [List.concat].
    simpl. rewrite insert_all_app, length_app, <- app_assoc. simpl.
    f_equal. f_equal. lia.
Qed.

Lemma pages_run_fail (rt : runtime) (pages : list (list values)) :
  forall w rows ms i,
    drone_mission (session w) = Some rows ->
    missoes (session w) = Some ms ->
    existsb (fun m => Z.eqb (fst m) i) ms = true ->
    (forall v, In v (List.concat pages) -> v_mission_id v = i) ->
    below rows (next_id w) ->
    pages_ok rt (next_id w) pages = false ->
    exists e w', for_ pages (fun page _ => execute_insert rt page) tt w = (Raise e, w').
Proof.
  induction pages as [|page pages IH]; intros w rows ms i Et Em Hi Hvs Hb Hp;
    [discriminate|].
  cbn [pages_ok] in Hp. cbn [for_]. unfold bind.
  destruct (accepted rt page && fits (next_id w) (List.length page)) eqn:Hq.
  - apply andb_true_iff in Hq. destruct Hq as [Ha Hf].
    rewrite (execute_insert_ok rt page w rows ms i Et Em Hi); try assumption.
    2:{ intros v Hv. apply Hvs. cbn [List.concat]. apply in_or_app. now left. }
    simpl in Hp.
    apply (IH {| stored := stored w;
                 session := set_table (session w) (insert_all rows (next_id w) page);
                 next_id := next_id w + Z.of_nat (List.length page);
                 log := log w ++ [EvExecute (SqlInsert page)] |}
              (insert_all rows (next_id w) page) ms i eq_refl Em Hi);
      [|exact (insert_all_below page rows (next_id w) Hb)|exact Hp].
    intros v Hv. apply Hvs. cbn [List.concat]. apply in_or_app. now right.
  - destruct (execute_insert_fail rt page w Hq) as (e & w' & E). rewrite E.
    now exists e, w'.
Qed.

Lemma execute_values_framed (rt : runtime) (vs : list values) :
  framed (execute_values rt vs).
Proof.
  unfold execute_values. apply framed_for. intros page []. apply execute_insert_framed.
Qed.

(* ================================================================== *)
(** * The walk, from any state *)

Lemma collect_run (rt : runtime) (mission_id : Z) (mission_path : str)
    (mission_dir : node) (w : world) :
  exists evs,
    collect_media rt mission_id mission_path mission_dir w
    = (collect_result rt mission_id mission_path mission_dir, after w evs).
Proof.
  destruct (collect_media_oblivious rt mission_id mission_path mission_dir)
    as (o & evs & E).
  exists evs. unfold collect_result. rewrite !E. reflexivity.
Qed.

Lemma for_invariant {A S} (P : S -> Prop) (body : A -> S -> M S) (l : list A) :
  (forall x s w s' w', P s -> body x s w = (Ok s', w') -> P s') ->
  forall s w s' w', P s -> for_ l body s w = (Ok s', w') -> P s'.
Proof.
  intros Hb. induction l as [|x l IH]; intros s w s' w' Hs H; simpl in H.
  - inversion H; now subst.
  - unfold bind in H. destruct (body x s w) as [[s1|e] w1] eqn:E; [|discriminate].
    exact (IH s1 w1 s' w' (Hb x s w s1 w1 Hs E) H).
Qed.

Lemma process_file_mission_id (rt : runtime) (mission_id : Z) (root : str)
    (file : str * file_content) (data data' : list media) (w w' : world) :
  Forall (fun m => m_mission_id m = mission_id) data ->
  process_file rt mission_id root file data w = (Ok data', w') ->
  Forall (fun m => m_mission_id m = mission_id) data'.
Proof.
  intros Hd. destruct file as [name content].
  rewrite process_file_dispatch. unfold dispatch, bind, ret.
  destruct (classify rt name).
  - destruct (extract_gps_metadata_from_photo rt (Py.join root name) content w)
      as [[[[[lat lon] alt]|]|e] w1]; intros H; inversion H; subst; try assumption.
    apply Forall_app. split; [assumption|]. now constructor.
  - destruct (extract_gps_metadata_from_video rt (Py.join root name) content w)
      as [[[[[lat lon] alt]|]|e] w1]; intros H; inversion H; subst; try assumption.
    apply Forall_app. split; [assumption|]. now constructor.
  - intros H; inversion H; now subst.
Qed.

Lemma collect_mission_id (rt : runtime) (mission_id : Z) (mission_path : str)
    (mission_dir : node) (data : list media) :
  collect_result rt mission_id mission_path mission_dir = Ok data ->
  Forall (fun m => m_mission_id m = mission_id) data.
Proof.
  unfold collect_result, collect_media. intros H.
  destruct (for_ (walk mission_path mission_dir)
              (fun '(root, _, files) data =>
                 for_ files (process_file rt mission_id root) data) [] blank)
    as [o w'] eqn:E.
  simpl in H. subst o.
  refine (for_invariant _ _ _ _ [] blank data w' (Forall_nil _) E).
  intros [[root dirs] files] s w s' w1 Hs. apply for_invariant; [|exact Hs].
  intros file s0 w0 s1 w2 Hs0. now apply process_file_mission_id.
Qed.
(* ================================================================== *)
(** * One mission folder *)

Lemma find_mission_in (ms : list (Z * str)) (name : str) (i : Z) :
  find_mission ms name = Some i ->
  existsb (fun m => Z.eqb (fst m) i) ms = true.
Proof.
  unfold find_mission. destruct (find _ ms) as [r|] eqn:E; [|discriminate].
  intros H. inversion H; subst. apply find_some in E. destruct E as [Hin _].
  apply existsb_exists. exists r. split; [exact Hin|apply Z.eqb_refl].
Qed.

Lemma leaves_frame (w w1 : world) (rows : list row) :
  session w = stored w ->
  drone_mission (stored w) = Some rows ->
  frame w w1 ->
  leaves w w1 rows.
Proof.
  intros Hs Ht (A & B & C & D & E). unfold leaves. rewrite A. auto.
Qed.

(** The statements of a mission and the commit. *)
Lemma sink_run (rt : runtime) (data : list media) (w : world)
    (rows : list row) (ms : list (Z * str)) (i : Z) :
  drone_mission (session w) = Some rows ->
  missoes (session w) = Some ms ->
  existsb (fun m => Z.eqb (fst m) i) ms = true ->
  Forall (fun m => m_mission_id m = i) data ->
  below rows (next_id w) ->
  if pages_ok rt (next_id w) (paginate 100 (map to_values data))
  then exists evs,
      (execute_values rt (map to_values data) ;; commit) w
      = (Ok tt,
         {| stored := set_table (session w)
                        (insert_all rows (next_id w) (map to_values data));
            session := set_table (session w)
                         (insert_all rows (next_id w) (map to_values data));
            next_id := next_id w + Z.of_nat (List.length data);
            log := log w ++ evs |})
  else exists e w',
      (execute_values rt (map to_values data) ;; commit) w = (Raise e, w')
      /\ frame w w'.
Proof.
  intros Et Em Hi Hd Hb.
  assert (Hvs : forall v,
             In v (List.concat (paginate 100 (map to_values data))) ->
             v_mission_id v = i).
  { rewrite real_paginate_concat by lia. intros v Hv.
    apply in_map_iff in Hv. destruct Hv as (m & <- & Hm).
    rewrite Forall_forall in Hd. exact (Hd m Hm). }
  destruct (pages_ok rt (next_id w) (paginate 100 (map to_values data))) eqn:Hp.
  - destruct (pages_run_ok rt ms i _ Hi Hvs w rows Et Em Hb Hp) as (evs & E).
    exists (evs ++ [EvCommit]). unfold bind, execute_values. rewrite E.
    unfold commit. cbn [stored session next_id log].
    rewrite real_paginate_concat, length_map, <- app_assoc by lia. reflexivity.
  - destruct (pages_run_fail rt _ w rows ms i Et Em Hi Hvs Hb Hp) as (e & w' & E).
    exists e, w'. unfold bind, execute_values. rewrite E. split; [reflexivity|].
    exact (execute_values_framed rt (map to_values data) w _ _ E).
Qed.

Lemma print_run (rt : runtime) (m : message) (w : world) :
  print rt m w
  = match stdout rt m with
    | Some e => (Raise e, w)
    | None => (Ok tt, after w [EvPrint m])
    end.
Proof. reflexivity. Qed.

Lemma step_result_stop (x : exn) (w w' : world) (rows : list row) :
  session w = stored w ->
  drone_mission (stored w) = Some rows ->
  frame w w' ->
  step_result (Raise x) w w' rows [] false.
Proof.
  intros Hs Ht Hf. unfold step_result. split; [|split; [|split]].
  - exact (leaves_frame w w' rows Hs Ht Hf).
  - destruct Hf as (_ & _ & _ & Hn & _). simpl. lia.
  - discriminate.
  - intros _. now exists x.
Qed.

Lemma mission_media_run (rt : runtime) (mission_name mission_path : str)
    (mission_dir : node) (w : world) (rows : list row) :
  session w = stored w ->
  drone_mission (stored w) = Some rows ->
  below rows (next_id w) ->
  exists o w',
    process_mission_media rt mission_name mission_path mission_dir w = (o, w')
    /\ step_result o w w' rows
         (fst (mission_outcome rt (missoes (stored w)) mission_name mission_path
                 mission_dir (next_id w)))
         (snd (mission_outcome rt (missoes (stored w)) mission_name mission_path
                 mission_dir (next_id w))).
Proof.
  intros Hs Ht Hb.
  unfold process_mission_media, mission_outcome, execute_select.
  unfold bind at 1 2. unfold emit.
  cbn [session after]. rewrite Hs.
  destruct (missoes (stored w)) as [ms|] eqn:Em.
  2:{ eexists; eexists. split; [reflexivity|].
      apply step_result_stop; [exact Hs|exact Ht|apply frame_after]. }
  destruct (find_mission ms mission_name) as [i|] eqn:Ef.
  2:{ unfold bind, raise. eexists; eexists. split; [reflexivity|].
      apply step_result_stop; [exact Hs|exact Ht|apply frame_after]. }
  unfold bind at 1. unfold ret at 1.
  unfold bind at 1.
  destruct (collect_run rt i mission_path mission_dir
              (after w [EvExecute (SqlSelectMission mission_name)])) as (evs & Ec).
  rewrite Ec, real_after_after.
  pose proof (collect_mission_id rt i mission_path mission_dir) as Hid.
  destruct (collect_result rt i mission_path mission_dir) as [data|x].
  2:{ eexists; eexists. split; [reflexivity|].
      apply step_result_stop; [exact Hs|exact Ht|apply frame_after]. }
  specialize (Hid data eq_refl).
  set (w1 := after w (EvExecute (SqlSelectMission mission_name) :: evs)).
  change ([EvExecute (SqlSelectMission mission_name)] ++ evs)
    with (EvExecute (SqlSelectMission mission_name) :: evs).
  fold w1.
  destruct data as [|m data].
  - unfold bind, ret. rewrite print_run. cbn [List.length fst snd].
    destruct (stdout rt (MsgProcessed mission_name 0)) as [x|].
    + eexists; eexists. split; [reflexivity|].
      apply step_result_stop; [exact Hs|exact Ht|apply frame_after].
    + eexists; eexists. split; [reflexivity|].
      unfold step_result. split; [|split; [|split]].
      * apply (leaves_frame w _ rows Hs Ht).
        apply (frame_trans w w1); apply frame_after.
      * cbn [next_id after w1 List.length]. lia.
      * intros _. cbn [session stored next_id after w1 List.length].
        repeat split; [exact Hs|lia].
      * discriminate.
  - pose proof (sink_run rt (m :: data) w1 rows ms i) as Hsink.
    cbn [session after w1 next_id] in Hsink. rewrite Hs, Ht, Em in Hsink.
    specialize (Hsink eq_refl eq_refl (find_mission_in ms mission_name i Ef) Hid Hb).
    unfold bind at 1.
    destruct (pages_ok rt (next_id w) (paginate 100 (map to_values (m :: data)))).
    + destruct Hsink as (evs' & E). rewrite E. rewrite print_run.
      cbn [fst snd].
      assert (Hl : leaves w
                     (after {| stored := set_table (stored w)
                                           (insert_all rows (next_id w)
                                              (map to_values (m :: data)));
                               session := set_table (stored w)
                                            (insert_all rows (next_id w)
                                               (map to_values (m :: data)));
                               next_id := next_id w
                                          + Z.of_nat (List.length (m :: data));
                               log := log w1 ++ evs' |}
                            [])
                     (insert_all rows (next_id w) (map to_values (m :: data)))).
      { unfold leaves. cbn [stored after set_table drone_mission missoes
                              has_geometry next_id].
        repeat split. lia. }
      destruct (stdout rt (MsgProcessed mission_name (List.length (m :: data))))
        as [x|].
      * eexists; eexists. split; [reflexivity|].
        unfold step_result. split; [|split; [|split]].
        -- exact Hl.
        -- cbn [next_id]. lia.
        -- discriminate.
        -- intros _. now exists x.
      * eexists; eexists. split; [reflexivity|].
        unfold step_result. split; [|split; [|split]].
        -- exact Hl.
        -- cbn [next_id after]. lia.
        -- intros _. cbn [session stored next_id after]. repeat split.
        -- discriminate.
    + destruct Hsink as (e & w' & E & Hf). rewrite E. cbn [fst snd].
      eexists; eexists. split; [reflexivity|].
      apply step_result_stop; [exact Hs|exact Ht|].
      apply (frame_trans w w1); [apply frame_after|exact Hf].
Qed.

Lemma entry_run (rt : runtime) (base_folder : str) (entry : str * node)
    (w : world) (rows : list row) :
  session w = stored w ->
  drone_mission (stored w) = Some rows ->
  below rows (next_id w) ->
  exists o w',
    process_entry rt base_folder entry w = (o, w')
    /\ step_result o w w' rows
         (fst (entry_outcome rt base_folder (missoes (stored w)) entry (next_id w)))
         (snd (entry_outcome rt base_folder (missoes (stored w)) entry (next_id w))).
Proof.
  intros Hs Ht Hb. destruct entry as [mission child].
  unfold process_entry, entry_outcome, is_mission_folder. cbn [fst snd].
  destruct (isdir child && Py.startswith mission (lit "Mission")).
  - unfold bind. rewrite print_run.
    destruct (stdout rt (MsgProcessingMission mission)) as [x|].
    + eexists; eexists. split; [reflexivity|].
      apply step_result_stop; [exact Hs|exact Ht|apply frame_refl].
    + destruct (mission_media_run rt mission (Py.join base_folder mission) child
                  (after w [EvPrint (MsgProcessingMission mission)]) rows Hs Ht Hb)
        as (o & w' & E & Hr).
      exists o, w'. split; [exact E|exact Hr].
  - exists (Ok tt), w. split; [reflexivity|].
    unfold step_result, leaves. cbn [fst snd map insert_all List.length].
    repeat split; try assumption; try lia.
Qed.
(* ================================================================== *)
(** * The loop over the base folder *)

Lemma leaves_trans (w w1 w2 : world) (rows1 rows2 : list row) :
  leaves w w1 rows1 -> leaves w1 w2 rows2 -> leaves w w2 rows2.
Proof.
  intros (A1 & B1 & C1 & D1) (A2 & B2 & C2 & D2).
  unfold leaves. repeat split; try congruence. lia.
Qed.

Lemma real_loop_cons (rt : runtime) (base_folder : str) (e : str * node)
    (es : list (str * node)) (w : world) :
  mission_loop rt base_folder (e :: es) w
  = (process_entry rt base_folder e ;; mission_loop rt base_folder es) w.
Proof.
  unfold mission_loop. cbn [for_]. unfold bind.
  destruct (process_entry rt base_folder e w) as [[[]|x] w1]; reflexivity.
Qed.

Lemma real_loop_app (rt : runtime) (base_folder : str) (es1 es2 : list (str * node))
    (w : world) :
  mission_loop rt base_folder (es1 ++ es2) w
  = (mission_loop rt base_folder es1 ;; mission_loop rt base_folder es2) w.
Proof.
  unfold mission_loop. rewrite real_for_app. unfold bind.
  destruct (for_ es1 _ tt w) as [[[]|e] w']; reflexivity.
Qed.

(** The loop commits [loop_commits] and nothing else. *)
Lemma real_loop_run (rt : runtime) (base_folder : str) (es : list (str * node)) :
  forall w rows,
    session w = stored w ->
    drone_mission (stored w) = Some rows ->
    below rows (next_id w) ->
    exists o w',
      mission_loop rt base_folder es w = (o, w')
      /\ leaves w w'
           (insert_all rows (next_id w)
              (map to_values
                 (loop_commits rt base_folder (missoes (stored w)) es (next_id w))))
      /\ (next_id w
          + Z.of_nat (List.length
                        (loop_commits rt base_folder (missoes (stored w)) es
                           (next_id w)))
          <= next_id w')%Z
      /\ (o = Ok tt -> session w' = stored w').
Proof.
  induction es as [|e es IH]; intros w rows Hs Ht Hb.
  - exists (Ok tt), w. split; [reflexivity|]. split; [|split; [|auto]].
    + unfold leaves. cbn [loop_commits map insert_all]. repeat split; auto; lia.
    + cbn [loop_commits List.length]. lia.
  - rewrite real_loop_cons. unfold bind.
    destruct (entry_run rt base_folder e w rows Hs Ht Hb)
      as (o1 & w1 & E1 & Hl & Hlen & Hgo & Hstop).
    rewrite E1. cbn [loop_commits].
    destruct (entry_outcome rt base_folder (missoes (stored w)) e (next_id w))
      as [data goes_on].
    cbn [fst snd] in *. destruct goes_on.
    + destruct (Hgo eq_refl) as (-> & Hs1 & Hn1).
      destruct Hl as (T1 & M1 & G1 & N1).
      assert (Hb1 : below (insert_all rows (next_id w) (map to_values data))
                          (next_id w1)).
      { rewrite Hn1, <- (length_map to_values data). now apply insert_all_below. }
      destruct (IH w1 _ Hs1 T1 Hb1) as (o & w' & E & Hl' & Hlen' & Hs').
      exists o, w'. split; [exact E|].
      rewrite <- Hn1, <- M1. split; [|split; [|exact Hs']].
      * rewrite map_app, insert_all_app, length_map, <- Hn1.
        apply (leaves_trans w w1 w'
                 (insert_all rows (next_id w) (map to_values data)));
          [|exact Hl'].
        unfold leaves. auto.
      * rewrite length_app. lia.
    + destruct (Hstop eq_refl) as (x & ->).
      exists (Raise x), w1. split; [reflexivity|]. rewrite app_nil_r.
      split; [exact Hl|]. split; [exact Hlen|discriminate].
Qed.


Lemma real_process_entry_mission (rt : runtime) (base_folder : str)
    (entry : str * node) (w : world) :
  is_mission_folder entry = true ->
  process_entry rt base_folder entry w = process_mission rt base_folder entry w.
Proof.
  destruct entry as [mission child].
  unfold is_mission_folder, process_entry, process_mission.
  cbn [fst snd]. now intros ->.
Qed.


Lemma real_mission_not_found (rt : runtime) (mission_name mission_path : str)
    (mission_dir : node) (w : world) (ms : list (Z * str)) :
  missoes (session w) = Some ms ->
  find_mission ms mission_name = None ->
  process_mission_media rt mission_name mission_path mission_dir w
  = (Raise (ValueError (not_found_message mission_name)),
     after w [EvExecute (SqlSelectMission mission_name)]).
Proof.
  intros Hm Hf. unfold process_mission_media, execute_select, bind, emit, raise.
  cbn [session after]. rewrite Hm, Hf. reflexivity.
Qed.

(** A mission folder whose name is not in [missoes] ends the loop. *)
Lemma entry_not_found_raises (rt : runtime) (base_folder : str) (e : str * node)
    (w : world) (ms : list (Z * str)) :
  is_mission_folder e = true ->
  missoes (session w) = Some ms ->
  find_mission ms (fst e) = None ->
  exists x w', process_entry rt base_folder e w = (Raise x, w').
Proof.
  intros He Hm Hf. rewrite (real_process_entry_mission rt base_folder e w He).
  unfold process_mission, bind. rewrite print_run.
  destruct (stdout rt (MsgProcessingMission (fst e))) as [x|].
  - now exists x, w.
  - rewrite (real_mission_not_found rt _ _ _ _ ms) by assumption.
    eexists; eexists; reflexivity.
Qed.

Lemma keeps_framed {A} (c : M A) : framed c -> keeps_missoes c.
Proof. intros H w o w' E. now destruct (H w o w' E) as (_ & M & _). Qed.

Lemma keeps_bind {A B} (c : M A) (k : A -> M B) :
  keeps_missoes c -> (forall a, keeps_missoes (k a)) -> keeps_missoes (bind c k).
Proof.
  intros Hc Hk w o w' H. unfold bind in H.
  destruct (c w) as [[a|e] w1] eqn:E.
  - rewrite (Hk a _ _ _ H). exact (Hc _ _ _ E).
  - inversion H; subst. exact (Hc _ _ _ E).
Qed.

Lemma keeps_for {A S} (body : A -> S -> M S) (l : list A) :
  (forall x s, keeps_missoes (body x s)) -> forall s, keeps_missoes (for_ l body s).
Proof.
  intros Hb. induction l as [|x l IH]; intros s; simpl.
  - apply keeps_framed, framed_ret.
  - apply keeps_bind; [apply Hb|]. intros s'. apply IH.
Qed.

Lemma keeps_commit : keeps_missoes commit.
Proof. intros w o w' H. unfold commit in H. inversion H; subst. reflexivity. Qed.

Lemma execute_select_framed (mission_name : str) : framed (execute_select mission_name).
Proof.
  intros w o w' H. unfold execute_select, bind, emit in H. cbn [session after] in H.
  destruct (missoes (session w)); inversion H; subst; apply frame_after.
Qed.

Lemma process_mission_media_keeps (rt : runtime) (mission_name mission_path : str)
    (mission_dir : node) :
  keeps_missoes (process_mission_media rt mission_name mission_path mission_dir).
Proof.
  unfold process_mission_media.
  apply keeps_bind; [apply keeps_framed, execute_select_framed|]. intros found.
  apply keeps_bind.
  { apply keeps_framed, framed_oblivious. destruct found; real_obl. }
  intros i. apply keeps_bind.
  { apply keeps_framed, framed_oblivious, collect_media_oblivious. }
  intros data. apply keeps_bind.
  - destruct data as [|m data]; [apply keeps_framed, framed_ret|].
    apply keeps_bind; [apply keeps_framed, execute_values_framed|].
    intros _. apply keeps_commit.
  - intros _. apply keeps_framed, framed_oblivious, real_oblivious_print.
Qed.

Lemma process_entry_keeps (rt : runtime) (base_folder : str) (entry : str * node) :
  keeps_missoes (process_entry rt base_folder entry).
Proof.
  destruct entry as [mission child]. unfold process_entry.
  destruct (isdir child && Py.startswith mission (lit "Mission")).
  - apply keeps_bind; [apply keeps_framed, framed_oblivious, real_oblivious_print|].
    intros _. apply process_mission_media_keeps.
  - apply keeps_framed, framed_ret.
Qed.

Lemma real_loop_stops (rt : runtime) (base_folder : str) (pre post : list (str * node))
    (e : str * node) (w : world) (ms : list (Z * str)) :
  missoes (session w) = Some ms ->
  is_mission_folder e = true ->
  find_mission ms (fst e) = None ->
  mission_loop rt base_folder (pre ++ e :: post) w
  = mission_loop rt base_folder (pre ++ [e]) w
  /\ exists x w', mission_loop rt base_folder (pre ++ e :: post) w = (Raise x, w').
Proof.
  intros Hm He Hf. rewrite !real_loop_app. unfold bind.
  destruct (mission_loop rt base_folder pre w) as [[[]|x] w1] eqn:E.
  - assert (Hm1 : missoes (session w1) = Some ms).
    { rewrite <- Hm. unfold mission_loop in E.
      refine (keeps_for _ pre _ tt w _ w1 E).
      intros x []. apply process_entry_keeps. }
    rewrite !real_loop_cons. unfold bind.
    destruct (entry_not_found_raises rt base_folder e w1 ms He Hm1 Hf) as (x & w' & Ex).
    rewrite Ex. split; [reflexivity|]. now exists x, w'.
  - split; [reflexivity|]. now exists x, w1.
Qed.

(* ================================================================== *)
(** * The connection and the table *)

Lemma setup_run (rt : runtime) (w : world) :
  exists o w1,
    (connect_to_postgis rt ;; create_drone_mission_table rt) w = (o, w1)
    /\ missoes (stored w1) = missoes (stored w)
    /\ has_geometry (stored w1) = has_geometry (stored w)
    /\ table_rows (stored w1) = table_rows (stored w)
    /\ (start_id (stored w) (next_id w) <= start_id (stored w1) (next_id w1))%Z
    /\ (drone_mission (stored w1) <> None -> table_available (stored w) = true)
    /\ (drone_mission (stored w) <> None -> drone_mission (stored w1) <> None)
    /\ match o with
       | Ok _ =>
           stdout rt MsgConnected = None /\ stdout rt MsgTableReady = None
           /\ table_available (stored w) = true
           /\ session w1 = stored w1
           /\ drone_mission (stored w1) = Some (table_rows (stored w))
           /\ next_id w1 = start_id (stored w) (next_id w)
       | Raise _ =>
           match stdout rt MsgConnected, stdout rt MsgTableReady with
           | None, None => table_available (stored w) = false
           | _, _ => True
           end
       end.
Proof.
  unfold connect_to_postgis, create_drone_mission_table, execute_create, commit,
    bind, emit, print, table_rows, start_id, table_available.
  destruct w as [st se n l]. cbn [stored session next_id log after].
  destruct (stdout rt MsgConnected) as [x|].
  { eexists; eexists. split; [reflexivity|]. cbn [stored next_id].
    repeat split; auto; try lia.
    destruct (drone_mission st); [auto|contradiction]. }
  cbn [stored session next_id log after].
  destruct st as [ms g t]. cbn [drone_mission has_geometry missoes].
  destruct t as [rows|].
  - destruct (stdout rt MsgTableReady) as [x|];
      eexists; eexists; (split; [reflexivity|]);
      simpl;
      repeat split; auto; try lia.
  - destruct g; cbn [negb].
    + destruct ms as [ms|].
      * cbn [stored session next_id log set_table drone_mission missoes has_geometry].
        destruct (stdout rt MsgTableReady) as [x|];
          eexists; eexists; (split; [reflexivity|]);
          simpl;
          repeat split; auto; try lia.
      * eexists; eexists. split; [reflexivity|].
        simpl.
        repeat split; auto; try lia. destruct (stdout rt MsgTableReady); auto.
    + eexists; eexists. split; [reflexivity|].
      simpl.
      repeat split; auto; try lia.
      destruct ms; destruct (stdout rt MsgTableReady); auto.
Qed.

Lemma process_all_steps (rt : runtime) (base_folder : str) (base : node) (w : world) :
  process_all rt base_folder base w
  = ((connect_to_postgis rt ;; create_drone_mission_table rt) ;;
     (entries <- listdir base ;;
      mission_loop rt base_folder entries ;;
      emit EvClose ;;
      print rt MsgComplete)) w.
Proof.
  unfold process_all, mission_loop, bind.
  destruct (connect_to_postgis rt w) as [[[]|x] w1]; [|reflexivity].
  destruct (create_drone_mission_table rt w1) as [[[]|x] w2]; reflexivity.
Qed.

(** What a run leaves committed. *)
Lemma run_summary (rt : runtime) (base_folder : str) (base : node) (w : world) :
  below (table_rows (stored w)) (start_id (stored w) (next_id w)) ->
  exists o w',
    process_all rt base_folder base w = (o, w')
    /\ table_rows (stored w')
       = insert_all (table_rows (stored w)) (start_id (stored w) (next_id w))
           (map to_values
              (run_commits rt base_folder base (stored w) (next_id w)))
    /\ missoes (stored w') = missoes (stored w)
    /\ has_geometry (stored w') = has_geometry (stored w)
    /\ (start_id (stored w) (next_id w)
        + Z.of_nat (List.length
                      (run_commits rt base_folder base (stored w) (next_id w)))
        <= start_id (stored w') (next_id w'))%Z
    /\ (drone_mission (stored w') <> None -> table_available (stored w) = true)
    /\ (drone_mission (stored w) <> None -> drone_mission (stored w') <> None)
    /\ (o = Ok tt -> session w' = stored w').
Proof.
  intros Hb. rewrite process_all_steps. unfold bind at 1.
  destruct (setup_run rt w) as (o1 & w1 & E1 & M1 & G1 & R1 & S1 & A1 & K1 & H1).
  rewrite E1. unfold run_commits. destruct o1 as [[]|x].
  - destruct H1 as (Hc & Hr & Ha & Hs1 & T1 & N1). rewrite Hc, Hr, Ha.
    unfold listdir. destruct base as [f|a entries].
    + exists (Raise OSError), w1. split; [reflexivity|]. simpl.
      repeat split; auto; try lia; discriminate.
    + destruct (readable a).
      * unfold bind, ret.
        assert (Hb1 : below (table_rows (stored w)) (next_id w1))
          by (rewrite N1; exact Hb).
        destruct (real_loop_run rt base_folder entries w1 _ Hs1 T1 Hb1)
          as (o & w2 & E & (T2 & M2 & G2 & N2) & L2 & Hs2).
        rewrite E. rewrite M1, N1 in T2. rewrite M1, N1 in L2. cbn [andb].
        assert (Hst : (start_id (stored w) (next_id w)
                       + Z.of_nat (List.length
                                     (loop_commits rt base_folder (missoes (stored w))
                                        entries (start_id (stored w) (next_id w))))
                       <= start_id (stored w2) (next_id w2))%Z).
        { unfold start_id at 3. rewrite T2. lia. }
        assert (Hex : drone_mission (stored w2) <> None) by (rewrite T2; discriminate).
        destruct o as [[]|x].
        -- unfold emit. rewrite print_run.
           destruct (stdout rt MsgComplete);
             eexists; eexists; (split; [reflexivity|]);
             cbn [stored session after next_id]; unfold table_rows at 1; rewrite T2;
             repeat split; try congruence; auto.
        -- eexists; eexists. split; [reflexivity|].
           unfold table_rows at 1. rewrite T2.
           repeat split; try congruence; auto.
      * exists (Raise OSError), w1. split; [reflexivity|]. cbn [andb]. simpl.
        repeat split; auto; try lia; discriminate.
  - exists (Raise x), w1. split; [reflexivity|].
    assert (Hn : match stdout rt MsgConnected, stdout rt MsgTableReady, base with
                 | None, None, Dir a entries =>
                     if readable a && table_available (stored w)
                     then loop_commits rt base_folder (missoes (stored w)) entries
                            (start_id (stored w) (next_id w))
                     else []
                 | _, _, _ => []
                 end = []).
    { destruct (stdout rt MsgConnected); [reflexivity|].
      destruct (stdout rt MsgTableReady); [reflexivity|].
      destruct base as [f|a entries]; [reflexivity|].
      rewrite H1, andb_false_r. reflexivity. }
    rewrite Hn. simpl. repeat split; auto; try lia; discriminate.
Qed.

(* ================================================================== *)
(** * A second run *)

Lemma pages_ok_le (rt : runtime) (pages : list (list values)) :
  forall next next',
    (next <= next')%Z -> pages_ok rt next' pages = true -> pages_ok rt next pages = true.
Proof.
  induction pages as [|page pages IH]; intros next next' Hle H; [reflexivity|].
  cbn [pages_ok] in *. apply andb_true_iff in H. destruct H as [H Hps].
  apply andb_true_iff in H. destruct H as [Ha Hf].
  rewrite Ha, (fits_le next next' _ Hle Hf).
  rewrite (IH (next + Z.of_nat (List.length page))%Z
              (next' + Z.of_nat (List.length page))%Z); [reflexivity|lia|exact Hps].
Qed.

(** With less ids left, a mission folder commits the same records and
    the run goes on as before, or it commits nothing and the run
    stops. *)
Lemma mission_outcome_le (rt : runtime) (ms : option (list (Z * str)))
    (mission_name mission_path : str) (mission_dir : node) (next next' : Z) :
  (next <= next')%Z ->
  mission_outcome rt ms mission_name mission_path mission_dir next'
  = mission_outcome rt ms mission_name mission_path mission_dir next
  \/ mission_outcome rt ms mission_name mission_path mission_dir next' = ([], false).
Proof.
  intros Hle. unfold mission_outcome.
  destruct ms as [ms|]; [|now left].
  destruct (find_mission ms mission_name) as [i|]; [|now left].
  destruct (collect_result rt i mission_path mission_dir) as [[|m data]|x];
    [now left| |now left].
  destruct (pages_ok rt next' (paginate 100 (map to_values (m :: data)))) eqn:E.
  - left. now rewrite (pages_ok_le rt _ next next' Hle E).
  - now right.
Qed.

Lemma entry_outcome_le (rt : runtime) (base_folder : str)
    (ms : option (list (Z * str))) (entry : str * node) (next next' : Z) :
  (next <= next')%Z ->
  entry_outcome rt base_folder ms entry next'
  = entry_outcome rt base_folder ms entry next
  \/ entry_outcome rt base_folder ms entry next' = ([], false).
Proof.
  intros Hle. unfold entry_outcome.
  destruct (is_mission_folder entry); [|now left].
  destruct (stdout rt (MsgProcessingMission (fst entry))); [now left|].
  now apply mission_outcome_le.
Qed.

Lemma loop_commits_le (rt : runtime) (base_folder : str)
    (ms : option (list (Z * str))) (es : list (str * node)) :
  forall next next' m,
    (next <= next')%Z ->
    In m (loop_commits rt base_folder ms es next') ->
    In m (loop_commits rt base_folder ms es next).
Proof.
  induction es as [|e es IH]; intros next next' m Hle H; [contradiction|].
  cbn [loop_commits] in *.
  destruct (entry_outcome_le rt base_folder ms e next next' Hle) as [E|E];
    rewrite E in H.
  - destruct (entry_outcome rt base_folder ms e next) as [data goes_on].
    apply in_app_or in H. apply in_or_app. destruct H as [H|H]; [now left|right].
    destruct goes_on; [|contradiction].
    apply (IH _ (next' + Z.of_nat (List.length data))%Z); [lia|exact H].
  - contradiction.
Qed.

(** A second run commits records that the first has committed. *)
Lemma second_run_commits (rt : runtime) (base_folder : str) (base : node)
    (w w' : world) (o : outcome unit) (m : media) :
  below (table_rows (stored w)) (start_id (stored w) (next_id w)) ->
  process_all rt base_folder base w = (o, w') ->
  In m (run_commits rt base_folder base (stored w') (next_id w')) ->
  In m (run_commits rt base_folder base (stored w) (next_id w)).
Proof.
  intros Hb E. destruct (run_summary rt base_folder base w Hb)
    as (o1 & w1 & E1 & _ & M & G & S & A & _).
  rewrite E in E1. inversion E1; subst o1 w1. clear E1.
  unfold run_commits. rewrite M.
  destruct (stdout rt MsgConnected); [auto|].
  destruct (stdout rt MsgTableReady); [auto|].
  destruct base as [f|a entries]; [auto|].
  destruct (readable a); [|auto]. cbn [andb].
  destruct (table_available (stored w')) eqn:Ha'; [|contradiction].
  assert (S' : (start_id (stored w) (next_id w) <= start_id (stored w') (next_id w'))%Z)
    by lia.
  assert (Ha : table_available (stored w) = true).
  { unfold table_available in Ha'.
    destruct (drone_mission (stored w')) as [rows|] eqn:Et.
    - apply A. discriminate.
    - unfold table_available. rewrite <- M, <- G.
      destruct (drone_mission (stored w)); [reflexivity|exact Ha']. }
  rewrite Ha. now apply loop_commits_le.
Qed.

(** The ids stay below the sequence. *)
Lemma run_below (rt : runtime) (base_folder : str) (base : node) (w : world) :
  below (table_rows (stored w)) (start_id (stored w) (next_id w)) ->
  below (table_rows (stored (snd (process_all rt base_folder base w))))
        (start_id (stored (snd (process_all rt base_folder base w)))
                  (next_id (snd (process_all rt base_folder base w)))).
Proof.
  intros Hb.
  destruct (run_summary rt base_folder base w Hb) as (o1 & w1 & E1 & R1 & _ & _ & S & _).
  rewrite E1. cbn [snd]. rewrite R1.
  eapply below_le; [exact S|].
  rewrite <- (length_map to_values). now apply insert_all_below.
Qed.

Lemma second_run_rows (rt : runtime) (base_folder : str) (base : node) (w : world) :
  below (table_rows (stored w)) (start_id (stored w) (next_id w)) ->
  table_rows (stored (snd (process_all rt base_folder base
                             (snd (process_all rt base_folder base w)))))
  = table_rows (stored (snd (process_all rt base_folder base w))).
Proof.
  intros Hb. pose proof (run_below rt base_folder base w Hb) as Hb1.
  destruct (run_summary rt base_folder base w Hb) as (o1 & w1 & E1 & R1 & _).
  rewrite E1 in *. cbn [snd] in *.
  destruct (run_summary rt base_folder base w1 Hb1) as (o2 & w2 & E2 & R2 & _).
  rewrite E2. cbn [snd]. rewrite R2.
  apply insert_all_paths_taken. intros v Hv.
  apply in_map_iff in Hv. destruct Hv as (m & <- & Hm).
  apply (second_run_commits rt base_folder base w w1 o1 m Hb E1) in Hm.
  rewrite R1. apply insert_all_takes. now apply in_map.
Qed.

Lemma propose_taken (vs : list values) :
  forall rows added next,
    (forall v, In v vs -> path_taken rows (v_full_path v) = true) ->
    fits next (List.length vs) = true ->
    propose rows added next vs
    = (Ok (rows, added), (next + Z.of_nat (List.length vs))%Z).
Proof.
  induction vs as [|v vs IH]; intros rows added next Ht Hf.
  - simpl. now rewrite Z.add_0_r.
  - cbn [List.length] in Hf. rewrite fits_cons in Hf.
    apply andb_true_iff in Hf. destruct Hf as [Hn Hf].
    apply negb_true_iff in Hn.
    cbn [propose]. rewrite Hn, (Ht v (or_introl eq_refl)).
    rewrite IH; [|intros v' Hv'; apply Ht; now right|exact Hf].
    f_equal. cbn [List.length]. lia.
Qed.

(** An id is drawn for a row that is dropped: with the sequence at its
    end, the second run raises where the first went through. *)
Lemma second_run_can_raise :
  fst (process_all sample_runtime (lit "/data") single_mission_base
         world_with_one_id_left)
  = Ok tt
  /\ fst (process_all sample_runtime (lit "/data") single_mission_base
            (snd (process_all sample_runtime (lit "/data") single_mission_base
                    world_with_one_id_left)))
     = Raise (DataError (lit "nextval: reached maximum value of sequence")).
Proof. split; vm_compute; reflexivity. Qed.

(** The ids must come from the sequence: with a row whose id the
    sequence has yet to reach, the first run fails on the primary key,
    the id is lost, and the second run adds the row. *)
Example second_run_after_key_violation :
  let w := {| stored := database_with_table
                          [mkRow 5 (lit "/elsewhere/a.jpg") (lit "a.jpg") (lit "photo")
                                 None (mkPoint 4326 0 0) 7];
              session := database_with_table
                           [mkRow 5 (lit "/elsewhere/a.jpg") (lit "a.jpg") (lit "photo")
                                  None (mkPoint 4326 0 0) 7];
              next_id := 5; log := [] |} in
  let first := process_all sample_runtime (lit "/data") single_mission_base w in
  let second := process_all sample_runtime (lit "/data") single_mission_base
                  (snd first) in
  fst first
  = Raise (IntegrityError (lit "duplicate key value violates unique constraint"))
  /\ fst second = Ok tt
  /\ List.length (table_rows (stored (snd first))) = 1%nat
  /\ List.length (table_rows (stored (snd second))) = 2%nat.
Proof. vm_compute. repeat split. Qed.

(** C3: a proposed row whose path is in the table is dropped, whatever
    its other values: an id is drawn for it, and the table stays as it
    is; a statement whose rows all have their paths in the table goes
    through and leaves the table as it is, when psycopg2 and the server
    take the values and the sequence has ids left for them.  When the
    ids of the table were drawn from its sequence, a second run of
    [process_all] over the same folder, from the state the first run
    left, leaves the rows of [drone_mission] as they were, however the
    two runs end, so the count of rows of every mission is unchanged. *)
Theorem second_run_adds_no_row :
  (forall rows added next v vs,
      path_taken rows (v_full_path v) = true ->
      (next <= max_id)%Z ->
      propose rows added next (v :: vs) = propose rows added (next + 1) vs)
  /\ (forall rt vs w rows ms,
         drone_mission (session w) = Some rows ->
         missoes (session w) = Some ms ->
         (forall v, In v vs -> path_taken rows (v_full_path v) = true) ->
         accepted rt vs = true ->
         fits (next_id w) (List.length vs) = true ->
         exists w',
           execute_insert rt vs w = (Ok tt, w')
           /\ session w' = session w /\ stored w' = stored w)
  /\ (forall rt base_folder base w,
         below (table_rows (stored w)) (start_id (stored w) (next_id w)) ->
         let first := process_all rt base_folder base w in
         let second := process_all rt base_folder base (snd first) in
         table_rows (stored (snd second)) = table_rows (stored (snd first))
         /\ forall i,
              List.length (rows_of_mission i (stored (snd second)))
              = List.length (rows_of_mission i (stored (snd first)))).
Proof.
  split; [|split].
  - intros rows added next v vs Ht Hn. cbn [propose].
    destruct (Z.ltb_spec max_id next); [lia|]. now rewrite Ht.
  - intros rt vs w rows ms Et Em Ht Ha Hf.
    unfold execute_insert, accepted in *.
    destruct (client_rejects rt vs); [discriminate|].
    destruct (server_rejects rt vs); [discriminate|].
    rewrite Et, Em, (propose_taken vs rows [] (next_id w) Ht Hf).
    cbn [references_ok forallb]. eexists. split; [reflexivity|].
    cbn [session stored]. split; [|reflexivity].
    destruct (session w) as [ms' g t]. unfold set_table. simpl in *. congruence.
  - intros rt base_folder base w Hb first second. subst first second.
    pose proof (second_run_rows rt base_folder base w Hb) as H.
    split; [exact H|]. intros i. unfold rows_of_mission. now rewrite H.
Qed.

Lemma second_run_adds_no_row_witness :
  exists w',
    execute_insert sample_runtime [to_values sample_record] world_with_old_row
    = (Ok tt, w')
    /\ session w' = session world_with_old_row
    /\ stored w' = stored world_with_old_row.
Proof.
  apply (proj1 (proj2 second_run_adds_no_row) sample_runtime
           [to_values sample_record] world_with_old_row [old_row]
           [(7%Z, lit "Mission1"); (9%Z, lit "Mission2")] eq_refl eq_refl).
  - intros v [<-|[]]. reflexivity.
  - reflexivity.
  - reflexivity.
Defined.

(* ================================================================== *)
(** * A mission that is not in [missoes] *)

(** C4: a mission whose name is not in [missoes] makes
    [process_mission_media] raise the mission-not-found [ValueError]
    right after the lookup, before any file is opened, any process
    spawned and any insert executed; [process_all] does not catch it:
    when the loop reaches the mission folder with its name printed, the
    run ends with this exception, and in any case it ends with an
    exception at that folder or before, so that the entries after the
    folder have no part in the run. *)
Theorem missing_mission_raises_and_ends_run :
  (forall rt mission_name mission_path mission_dir w ms,
      missoes (session w) = Some ms ->
      find_mission ms mission_name = None ->
      process_mission_media rt mission_name mission_path mission_dir w
      = (Raise (ValueError (not_found_message mission_name)),
         after w [EvExecute (SqlSelectMission mission_name)]))
  /\ (forall rt base_folder a pre mission child post w ms,
         is_mission_folder (mission, child) = true ->
         missoes (stored w) = Some ms ->
         find_mission ms mission = None ->
         process_all rt base_folder (Dir a (pre ++ (mission, child) :: post)) w
         = process_all rt base_folder (Dir a (pre ++ [(mission, child)])) w
         /\ exists x,
              fst (process_all rt base_folder
                     (Dir a (pre ++ (mission, child) :: post)) w) = Raise x)
  /\ (forall rt base_folder pre mission child post w w1 ms,
         is_mission_folder (mission, child) = true ->
         mission_loop rt base_folder pre w = (Ok tt, w1) ->
         missoes (session w1) = Some ms ->
         find_mission ms mission = None ->
         printed rt (MsgProcessingMission mission) ->
         mission_loop rt base_folder (pre ++ (mission, child) :: post) w
         = (Raise (ValueError (not_found_message mission)),
            after w1 [EvPrint (MsgProcessingMission mission);
                      EvExecute (SqlSelectMission mission)])).
Proof.
  split; [|split].
  - intros. now apply (real_mission_not_found rt _ _ _ _ ms).
  - intros rt base_folder a pre mission child post w ms He Hm Hf.
    rewrite !process_all_steps.
    assert (Hb : forall k : M unit,
               ((connect_to_postgis rt ;; create_drone_mission_table rt) ;; k) w
               = match (connect_to_postgis rt ;; create_drone_mission_table rt) w with
                 | (Ok _, w1) => k w1
                 | (Raise e, w1) => (Raise e, w1)
                 end) by reflexivity.
    rewrite !Hb. clear Hb.
    destruct (setup_run rt w) as (o1 & w1 & E1 & M1 & _ & _ & _ & _ & _ & H1).
    rewrite E1. destruct o1 as [[]|x]; [|split; [reflexivity|now exists x]].
    destruct H1 as (_ & _ & _ & Hs1 & T1 & _).
    unfold listdir. destruct (readable a);
      [|split; [reflexivity|now exists OSError]].
    unfold bind, ret.
    assert (Hm1 : missoes (session w1) = Some ms) by (rewrite Hs1; congruence).
    destruct (real_loop_stops rt base_folder pre post (mission, child) w1 ms
                Hm1 He Hf) as (E & x & w' & Ex).
    rewrite <- E, Ex. split; [reflexivity|now exists x].
  - intros rt base_folder pre mission child post w w1 ms He Hl Hm Hf Hp.
    rewrite real_loop_app. unfold bind. rewrite Hl, real_loop_cons. unfold bind.
    rewrite (real_process_entry_mission rt base_folder _ w1 He).
    unfold process_mission, bind. cbn [fst snd]. rewrite print_run, Hp.
    rewrite (real_mission_not_found rt _ _ _ _ ms) by assumption.
    rewrite real_after_after. reflexivity.
Qed.

Lemma missing_mission_raises_and_ends_run_witness :
  process_mission_media sample_runtime (lit "Mission1") (lit "/data/Mission1")
    sample_mission world_without_missions
  = (Raise (ValueError (lit "Mission 'Mission1' not found in the `missoes` table.")),
     after world_without_missions [EvExecute (SqlSelectMission (lit "Mission1"))]).
Proof.
  exact (proj1 missing_mission_raises_and_ends_run sample_runtime
           (lit "Mission1") (lit "/data/Mission1") sample_mission
           world_without_missions [] eq_refl eq_refl).
Defined.

(* ================================================================== *)
(** * The entries that are processed *)



(* ================================================================== *)
(** * The records of a mission folder *)

Lemma oblivious_fst {A} (c : M A) (w w0 : world) :
  oblivious c -> fst (c w) = fst (c w0).
Proof. intros (o & evs & E). now rewrite !E. Qed.

Lemma dispatch_records (rt : runtime) (mission_id : Z)
    (found : str * (str * file_content)) (s s' : list media) (w w' : world) :
  dispatch rt mission_id found s w = (Ok s', w') ->
  s' = s ++ file_records rt mission_id found.
Proof.
  destruct found as [root [name content]]. unfold dispatch, file_records, bind, ret.
  destruct (classify rt name).
  - rewrite <- (oblivious_fst _ w blank (photo_oblivious rt (Py.join root name) content)).
    destruct (extract_gps_metadata_from_photo rt (Py.join root name) content w)
      as [[[[[lat lon] alt]|]|e] w1]; cbn [fst]; intros H; inversion H; subst;
      [reflexivity|now rewrite app_nil_r].
  - rewrite <- (oblivious_fst _ w blank (video_oblivious rt (Py.join root name) content)).
    destruct (extract_gps_metadata_from_video rt (Py.join root name) content w)
      as [[[[[lat lon] alt]|]|e] w1]; cbn [fst]; intros H; inversion H; subst;
      [reflexivity|now rewrite app_nil_r].
  - intros H; inversion H; subst. now rewrite app_nil_r.
Qed.

Lemma for_records (rt : runtime) (mission_id : Z)
    (l : list (str * (str * file_content))) :
  forall s w s' w',
    for_ l (dispatch rt mission_id) s w = (Ok s', w') ->
    s' = s ++ flat_map (file_records rt mission_id) l.
Proof.
  induction l as [|x l IH]; intros s w s' w' H; simpl in H.
  - inversion H; subst. simpl. now rewrite app_nil_r.
  - unfold bind in H.
    destruct (dispatch rt mission_id x s w) as [[s1|e] w1] eqn:E; [|discriminate].
    apply dispatch_records in E. apply IH in H. subst.
    simpl. now rewrite app_assoc.
Qed.

(** The records collected are those of the files discovered, in the
    order of the walk. *)
Lemma collect_records (rt : runtime) (mission_id : Z) (mission_path : str)
    (mission_dir : node) (data : list media) :
  collect_result rt mission_id mission_path mission_dir = Ok data ->
  data = flat_map (file_records rt mission_id) (discovered mission_path mission_dir).
Proof.
  unfold collect_result. rewrite collect_media_dispatch.
  destruct (for_ (discovered mission_path mission_dir) (dispatch rt mission_id) [] blank)
    as [o w'] eqn:E.
  cbn [fst]. intros ->. exact (for_records rt mission_id _ _ _ _ _ E).
Qed.

Lemma collect_total (rt : runtime) (mission_id : Z) (mission_path : str)
    (mission_dir : node) :
  prints_errors rt ->
  collect_result rt mission_id mission_path mission_dir
  = Ok (flat_map (file_records rt mission_id) (discovered mission_path mission_dir)).
Proof.
  intros Hp.
  destruct (collect_media_returns rt mission_id mission_path mission_dir blank Hp)
    as (data & evs & E).
  assert (H : collect_result rt mission_id mission_path mission_dir = Ok data)
    by (unfold collect_result; now rewrite E).
  rewrite H. f_equal. now apply collect_records.
Qed.

Lemma file_records_inv (rt : runtime) (mission_id : Z) (root name : str)
    (content : file_content) (m : media) :
  In m (file_records rt mission_id (root, (name, content))) ->
  m_full_path m = Py.join root name
  /\ m_file m = name
  /\ m_mission_id m = mission_id
  /\ ((classify rt name = Photo
       /\ m_media_type m = lit "photo"
       /\ fst (extract_gps_metadata_from_photo rt (Py.join root name) content blank)
          = Ok (Some (m_lat m, m_lon m, m_alt m)))
      \/ (classify rt name = Video
          /\ m_media_type m = lit "video"
          /\ fst (extract_gps_metadata_from_video rt (Py.join root name) content blank)
             = Ok (Some (m_lat m, m_lon m, m_alt m)))).
Proof.
  unfold file_records. destruct (classify rt name); [| |contradiction].
  - destruct (fst (extract_gps_metadata_from_photo rt (Py.join root name) content blank))
      as [[[[lat lon] alt]|]|e]; try contradiction.
    intros [<-|[]]. simpl. repeat split. left. auto.
  - destruct (fst (extract_gps_metadata_from_video rt (Py.join root name) content blank))
      as [[[[lat lon] alt]|]|e]; try contradiction.
    intros [<-|[]]. simpl. repeat split. right. auto.
Qed.

(** X9: every record that the walk over a mission folder collects
    stands for a file discovered under the folder, with a name of the
    photo or the video class: its path is the folder of the file
    joined with its name, its file name is the name, its mission id is
    the one of the call, its media type is the class of the name, and
    its latitude, longitude and altitude are the result of the
    extractor of that class on that path. *)
Theorem collected_records_stand_for_files
    (rt : runtime) (mission_id : Z) (mission_path : str) (mission_dir : node)
    (data : list media) (m : media) :
  collect_result rt mission_id mission_path mission_dir = Ok data ->
  In m data ->
  exists root name content,
    In (root, (name, content)) (discovered mission_path mission_dir)
    /\ m_full_path m = Py.join root name
    /\ m_file m = name
    /\ m_mission_id m = mission_id
    /\ ((classify rt name = Photo
         /\ m_media_type m = lit "photo"
         /\ fst (extract_gps_metadata_from_photo rt (Py.join root name) content blank)
            = Ok (Some (m_lat m, m_lon m, m_alt m)))
        \/ (classify rt name = Video
            /\ m_media_type m = lit "video"
            /\ fst (extract_gps_metadata_from_video rt (Py.join root name) content
                      blank)
               = Ok (Some (m_lat m, m_lon m, m_alt m)))).
Proof.
  intros Hc Hm. rewrite (collect_records rt _ _ _ _ Hc) in Hm.
  apply in_flat_map in Hm. destruct Hm as ([root [name content]] & Hin & Hm).
  exists root, name, content. split; [exact Hin|].
  now apply file_records_inv.
Qed.

Lemma collected_records_stand_for_files_witness :
  exists root name content,
    In (root, (name, content)) (discovered (lit "/data/Mission1") sample_mission)
    /\ m_full_path sample_record = Py.join root name
    /\ m_file sample_record = name
    /\ m_mission_id sample_record = 7%Z
    /\ ((classify sample_runtime name = Photo
         /\ m_media_type sample_record = lit "photo"
         /\ fst (extract_gps_metadata_from_photo sample_runtime (Py.join root name)
                   content blank)
            = Ok (Some (m_lat sample_record, m_lon sample_record,
                        m_alt sample_record)))
        \/ (classify sample_runtime name = Video
            /\ m_media_type sample_record = lit "video"
            /\ fst (extract_gps_metadata_from_video sample_runtime (Py.join root name)
                      content blank)
               = Ok (Some (m_lat sample_record, m_lon sample_record,
                           m_alt sample_record)))).
Proof.
  apply (collected_records_stand_for_files sample_runtime 7 (lit "/data/Mission1")
           sample_mission
           [sample_record;
            mkMedia (lit "/data/Mission1/clips/DJI_0002.mp4") (lit "DJI_0002.mp4")
                    (lit "video") 40.1234%float (-8.5678)%float None 7]
           sample_record).
  - vm_compute. reflexivity.
  - left. reflexivity.
Defined.

(** X10: the records collected for a mission folder are, in this
    order, those of the files of the folder in listing order, then
    those of its sub-folders in listing order, each walked the same
    way; a sub-folder that is a symbolic link is not walked, so the
    files reached only through it give no record; each file gives one
    record or none.  With the error messages printed the walk returns
    these records. *)
Theorem records_follow_the_walk_without_links :
  (forall rt mission_id mission_path mission_dir data,
      collect_result rt mission_id mission_path mission_dir = Ok data ->
      data = flat_map (file_records rt mission_id)
                      (discovered mission_path mission_dir))
  /\ (forall rt mission_id mission_path mission_dir w,
         prints_errors rt ->
         fst (collect_media rt mission_id mission_path mission_dir w)
         = Ok (flat_map (file_records rt mission_id)
                        (discovered mission_path mission_dir)))
  /\ (forall top a entries,
         readable a = true ->
         discovered top (Dir a entries)
         = map (fun f => (top, f)) (plain_files entries)
           ++ flat_map (fun e => match snd e with
                                 | Dir a' _ =>
                                     if is_link a' then []
                                     else discovered (Py.join top (fst e)) (snd e)
                                 | File _ => []
                                 end) entries)
  /\ (forall top a entries, readable a = false -> discovered top (Dir a entries) = [])
  /\ (forall rt mission_id found,
         (List.length (file_records rt mission_id found) <= 1)%nat)
  /\ map m_full_path
         (flat_map (file_records sample_runtime 7)
                   (discovered (lit "/data/Mission1") sample_mission))
     = [lit "/data/Mission1/DJI_0001.JPG"; lit "/data/Mission1/clips/DJI_0002.mp4"].
Proof.
  split; [|split; [|split; [|split; [|split]]]].
  - apply collect_records.
  - intros rt mission_id mission_path mission_dir w Hp.
    rewrite (oblivious_fst _ w blank
               (collect_media_oblivious rt mission_id mission_path mission_dir)).
    exact (collect_total rt mission_id mission_path mission_dir Hp).
  - intros top a entries Hr. cbn [discovered]. rewrite Hr. f_equal.
    induction entries as [|[name child] es IH]; [reflexivity|].
    cbn [flat_map fst snd]. now rewrite IH.
  - intros top a entries Hr. cbn [discovered]. now rewrite Hr.
  - intros rt mission_id [root [name content]]. unfold file_records.
    destruct (classify rt name); [| |simpl; lia].
    + destruct (fst (extract_gps_metadata_from_photo rt (Py.join root name) content
                       blank)) as [[[[lat lon] alt]|]|e]; simpl; lia.
    + destruct (fst (extract_gps_metadata_from_video rt (Py.join root name) content
                       blank)) as [[[[lat lon] alt]|]|e]; simpl; lia.
  - vm_compute. reflexivity.
Qed.

Lemma records_follow_the_walk_without_links_witness :
  discovered (lit "/data/Mission1")
    (Dir folder [(lit "archive",
                  Dir linked_folder [(lit "DJI_0003.jpg", File sample_photo)])])
  = map (fun f => (lit "/data/Mission1", f))
        (plain_files [(lit "archive",
                       Dir linked_folder [(lit "DJI_0003.jpg", File sample_photo)])])
    ++ flat_map (fun e => match snd e with
                          | Dir a' _ =>
                              if is_link a' then []
                              else discovered (Py.join (lit "/data/Mission1") (fst e))
                                              (snd e)
                          | File _ => []
                          end)
                [(lit "archive",
                  Dir linked_folder [(lit "DJI_0003.jpg", File sample_photo)])].
Proof.
  exact (proj1 (proj2 (proj2 records_follow_the_walk_without_links))
           (lit "/data/Mission1") folder
           [(lit "archive",
             Dir linked_folder [(lit "DJI_0003.jpg", File sample_photo)])]
           eq_refl).
Defined.

(** X19: whenever the location pattern matches, the match is the text
    of two signed decimals at the start of the tag, its groups 1 and 2
    are these two, in the digits of any script, and [float] converts
    both without raising, to the nearest binary64 number of the
    decimal with the sign of the text. *)
Theorem captured_groups_are_converted
    (decimal : N -> option N) (tag : str) (mo : list str) :
  ascii_decimal decimal ->
  Re.match_ (Re.location_pattern decimal) tag = Some mo ->
  exists c1 ip1 fp1 c2 ip2 fp2 t,
    tag = (c1 :: ip1 ++ 46%N :: fp1) ++ (c2 :: ip2 ++ 46%N :: fp2) ++ t
    /\ mo = [(c1 :: ip1 ++ 46%N :: fp1) ++ (c2 :: ip2 ++ 46%N :: fp2);
             c1 :: ip1 ++ 46%N :: fp1;
             c2 :: ip2 ++ 46%N :: fp2]
    /\ Py.is_sign c1 = true /\ Py.is_sign c2 = true
    /\ Py.all_digits decimal (ip1 ++ fp1 ++ ip2 ++ fp2) = true
    /\ ip1 <> [] /\ fp1 <> [] /\ ip2 <> [] /\ fp2 <> []
    /\ Py.float decimal (c1 :: ip1 ++ 46%N :: fp1)
       = Ok (Py.decimal_to_float decimal (N.eqb c1 45) ip1 fp1)
    /\ Py.float decimal (c2 :: ip2 ++ 46%N :: fp2)
       = Ok (Py.decimal_to_float decimal (N.eqb c2 45) ip2 fp2).
Proof.
  intros Hd H.
  destruct (real_match_groups decimal tag mo H) as (a & b & t & -> & -> & Ha & Hb).
  destruct Ha as (c1 & ip1 & fp1 & -> & Hc1 & Hn1 & Hi1 & Hm1 & Hf1).
  destruct Hb as (c2 & ip2 & fp2 & -> & Hc2 & Hn2 & Hi2 & Hm2 & Hf2).
  exists c1, ip1, fp1, c2, ip2, fp2, t.
  repeat split; try assumption.
  - now rewrite !real_all_digits_app, Hi1, Hf1, Hi2, Hf2.
  - now apply real_float_signed_decimal.
  - now apply real_float_signed_decimal.
Qed.

Lemma captured_groups_are_converted_witness :
  exists c1 ip1 fp1 c2 ip2 fp2 t,
    lit "+40.1234-008.5678/" = (c1 :: ip1 ++ 46%N :: fp1) ++ (c2 :: ip2 ++ 46%N :: fp2) ++ t
    /\ [lit "+40.1234-008.5678"; lit "+40.1234"; lit "-008.5678"]
       = [(c1 :: ip1 ++ 46%N :: fp1) ++ (c2 :: ip2 ++ 46%N :: fp2);
          c1 :: ip1 ++ 46%N :: fp1;
          c2 :: ip2 ++ 46%N :: fp2]
    /\ Py.is_sign c1 = true /\ Py.is_sign c2 = true
    /\ Py.all_digits sample_decimal (ip1 ++ fp1 ++ ip2 ++ fp2) = true
    /\ ip1 <> [] /\ fp1 <> [] /\ ip2 <> [] /\ fp2 <> []
    /\ Py.float sample_decimal (c1 :: ip1 ++ 46%N :: fp1)
       = Ok (Py.decimal_to_float sample_decimal (N.eqb c1 45) ip1 fp1)
    /\ Py.float sample_decimal (c2 :: ip2 ++ 46%N :: fp2)
       = Ok (Py.decimal_to_float sample_decimal (N.eqb c2 45) ip2 fp2).
Proof.
  apply (captured_groups_are_converted sample_decimal (lit "+40.1234-008.5678/")
           [lit "+40.1234-008.5678"; lit "+40.1234"; lit "-008.5678"]
           sample_decimal_ascii).
  vm_compute. reflexivity.
Defined.
(* ================================================================== *)
(** * What a run leaves in the table *)

Lemma insert_all_origin (vs : list values) :
  forall rows next r,
    In r (insert_all rows next vs) ->
    In r rows
    \/ exists v j,
         In v vs /\ r = row_with_id j v
         /\ (next <= j < next + Z.of_nat (List.length vs))%Z.
Proof.
  induction vs as [|v vs IH]; intros rows next r H; cbn [insert_all] in H; [now left|].
  destruct (path_taken rows (v_full_path v)).
  - destruct (IH _ _ _ H) as [Hr|(v' & j & Hv & E & Hj)]; [now left|].
    right. exists v', j. split; [now right|]. split; [exact E|].
    cbn [List.length]. lia.
  - destruct (IH _ _ _ H) as [Hr|(v' & j & Hv & E & Hj)].
    + apply in_app_or in Hr. destruct Hr as [Hr|[<-|[]]]; [now left|].
      right. exists v, next. split; [now left|]. split; [reflexivity|].
      cbn [List.length]. lia.
    + right. exists v', j. split; [now right|]. split; [exact E|].
      cbn [List.length]. lia.
Qed.

Lemma key_ok_le (rows : list row) (next next' : Z) :
  (next <= next')%Z -> key_ok rows next -> key_ok rows next'.
Proof.
  intros Hle (Hn & Hb). split; [exact Hn|].
  intros r Hr. destruct (Hb r Hr). split; [assumption|lia].
Qed.

Lemma insert_all_key (vs : list values) :
  forall rows next,
    (1 <= next)%Z ->
    fits next (List.length vs) = true ->
    key_ok rows next ->
    key_ok (insert_all rows next vs) (next + Z.of_nat (List.length vs)).
Proof.
  induction vs as [|v vs IH]; intros rows next H1 Hf Hk.
  - simpl. now rewrite Z.add_0_r.
  - cbn [List.length] in Hf. rewrite fits_cons in Hf.
    apply andb_true_iff in Hf. destruct Hf as [Hn Hf].
    apply negb_true_iff in Hn. apply Z.ltb_ge in Hn.
    cbn [insert_all].
    replace (next + Z.of_nat (List.length (v :: vs)))%Z
      with (next + 1 + Z.of_nat (List.length vs))%Z by (cbn [List.length]; lia).
    apply IH; [lia|exact Hf|].
    destruct (path_taken rows (v_full_path v)).
    + apply (key_ok_le rows next); [lia|exact Hk].
    + destruct Hk as (Hnd & Hb). split.
      * rewrite map_app. cbn [map row_with_id id].
        apply NoDup_app; [exact Hnd|constructor; [intros []|constructor]|].
        intros i Hi [<-|[]]. apply in_map_iff in Hi. destruct Hi as (r & E & Hr).
        destruct (Hb r Hr). lia.
      * intros r Hr. apply in_app_or in Hr. destruct Hr as [Hr|[<-|[]]].
        -- destruct (Hb r Hr). split; [assumption|lia].
        -- cbn [row_with_id id]. lia.
Qed.

Lemma fits_add (next : Z) (n m : nat) :
  fits next n = true -> fits (next + Z.of_nat n) m = true -> fits next (n + m) = true.
Proof.
  unfold fits. intros H1 H2.
  apply orb_true_iff in H1. apply orb_true_iff in H2. apply orb_true_iff.
  destruct n as [|n].
  - simpl. rewrite Z.add_0_r in H2. exact H2.
  - destruct H1 as [H1|H1]; [discriminate|]. apply Z.leb_le in H1.
    destruct m as [|m].
    + right. apply Z.leb_le. rewrite Nat.add_0_r. exact H1.
    + destruct H2 as [H2|H2]; [discriminate|]. apply Z.leb_le in H2.
      right. apply Z.leb_le. lia.
Qed.

Lemma pages_ok_fits (rt : runtime) (pages : list (list values)) :
  forall next,
    pages_ok rt next pages = true ->
    fits next (List.length (List.concat pages)) = true.
Proof.
  induction pages as [|page pages IH]; intros next H; [reflexivity|].
  cbn [pages_ok] in H. apply andb_true_iff in H. destruct H as [H Hps].
  apply andb_true_iff in H. destruct H as [_ Hf].
  cbn [List.concat]. rewrite length_app. apply fits_add; [exact Hf|now apply IH].
Qed.

Lemma entry_outcome_data (rt : runtime) (base_folder : str)
    (ms : option (list (Z * str))) (entry : str * node) (next : Z) :
  fst (entry_outcome rt base_folder ms entry next) = []
  \/ (mission_records rt base_folder ms [entry]
        (fst (entry_outcome rt base_folder ms entry next))
      /\ fits next (List.length (fst (entry_outcome rt base_folder ms entry next)))
         = true).
Proof.
  unfold entry_outcome, mission_outcome.
  destruct (is_mission_folder entry) eqn:He; [|now left].
  destruct (stdout rt (MsgProcessingMission (fst entry))); [now left|].
  destruct ms as [ms|]; [|now left].
  destruct (find_mission ms (fst entry)) as [i|] eqn:Ef; [|now left].
  destruct (collect_result rt i (Py.join base_folder (fst entry)) (snd entry))
    as [[|m data]|x] eqn:Ec; [now left| |now left].
  destruct (pages_ok rt next (paginate 100 (map to_values (m :: data)))) eqn:Ep;
    [|now left].
  right. cbn [fst]. split.
  - exists (fst entry), (snd entry), i, ms.
    rewrite <- surjective_pairing. repeat split; auto. now left.
  - apply pages_ok_fits in Ep.
    now rewrite real_paginate_concat, length_map in Ep by lia.
Qed.

Lemma mission_records_more (rt : runtime) (base_folder : str)
    (ms : option (list (Z * str))) (es es' : list (str * node)) (data : list media) :
  (forall e, In e es -> In e es') ->
  mission_records rt base_folder ms es data ->
  mission_records rt base_folder ms es' data.
Proof.
  intros Hin (name & child & i & ms' & H & Hrest).
  exists name, child, i, ms'. split; [now apply Hin|exact Hrest].
Qed.

(** What the loop commits are the records of whole missions, and the
    sequence has ids for them. *)
Lemma loop_commits_whole (rt : runtime) (base_folder : str)
    (ms : option (list (Z * str))) (es : list (str * node)) :
  forall next,
    (exists missions,
        loop_commits rt base_folder ms es next = List.concat missions
        /\ Forall (mission_records rt base_folder ms es) missions)
    /\ fits next (List.length (loop_commits rt base_folder ms es next)) = true.
Proof.
  induction es as [|e es IH]; intros next.
  - split; [exists []; split; [reflexivity|constructor]|reflexivity].
  - cbn [loop_commits].
    pose proof (entry_outcome_data rt base_folder ms e next) as Hd.
    destruct (entry_outcome rt base_folder ms e next) as [data goes_on].
    cbn [fst] in Hd.
    assert (Hrest : exists missions,
               (if goes_on
                then loop_commits rt base_folder ms es
                       (next + Z.of_nat (List.length data))
                else []) = List.concat missions
               /\ Forall (mission_records rt base_folder ms (e :: es)) missions
               /\ fits (next + Z.of_nat (List.length data))
                       (List.length (if goes_on
                                     then loop_commits rt base_folder ms es
                                            (next + Z.of_nat (List.length data))
                                     else [])) = true).
    { destruct goes_on.
      - destruct (IH (next + Z.of_nat (List.length data))%Z)
          as ((missions & E & Hf) & Hfit).
        exists missions. split; [exact E|]. split; [|exact Hfit].
        eapply Forall_impl; [|exact Hf]. intros d.
        apply mission_records_more. intros x Hx. now right.
      - exists []. split; [reflexivity|]. split; [constructor|reflexivity]. }
    destruct Hrest as (missions & E & Hf & Hfit). rewrite E in *.
    destruct Hd as [->|(Hm & Hfd)].
    + cbn [app List.length] in *. rewrite Z.add_0_r in Hfit.
      split; [|exact Hfit]. now exists missions.
    + split.
      * exists (data :: missions). split; [reflexivity|]. constructor; [|exact Hf].
        eapply mission_records_more; [|exact Hm]. intros x [<-|[]]. now left.
      * rewrite length_app. now apply fits_add.
Qed.

Lemma run_commits_whole (rt : runtime) (base_folder : str) (base : node)
    (d : database) (next : Z) :
  (exists missions,
      run_commits rt base_folder base d next = List.concat missions
      /\ Forall (mission_records rt base_folder (missoes d) (listing base)) missions)
  /\ fits (start_id d next)
          (List.length (run_commits rt base_folder base d next)) = true.
Proof.
  unfold run_commits.
  assert (Hnil : (exists missions : list (list media),
                     [] = List.concat missions
                     /\ Forall (mission_records rt base_folder (missoes d)
                                  (listing base)) missions)
                 /\ fits (start_id d next) (List.length (@nil media)) = true).
  { split; [exists []; split; [reflexivity|constructor]|reflexivity]. }
  destruct (stdout rt MsgConnected); [exact Hnil|].
  destruct (stdout rt MsgTableReady); [exact Hnil|].
  destruct base as [f|a entries]; [exact Hnil|].
  destruct (readable a && table_available d); [|exact Hnil].
  apply loop_commits_whole.
Qed.

Lemma sample_below : below [] 1 /\ below [old_row] 2.
Proof. split; [intros r []|intros r [<-|[]]; simpl; lia]. Qed.

(** X4: when the ids of the table were drawn from its sequence,
    whatever a run of [process_all] does and however it ends, the
    committed rows of [drone_mission] before the run are still there
    after it, unchanged and in front, [missoes] and the rest of the
    committed database are as they were, and a table that was there is
    still there. *)
Theorem run_only_appends_committed_rows
    (rt : runtime) (base_folder : str) (base : node) (w : world) :
  below (table_rows (stored w)) (start_id (stored w) (next_id w)) ->
  (exists new,
      table_rows (stored (snd (process_all rt base_folder base w)))
      = table_rows (stored w) ++ new)
  /\ missoes (stored (snd (process_all rt base_folder base w))) = missoes (stored w)
  /\ has_geometry (stored (snd (process_all rt base_folder base w)))
     = has_geometry (stored w)
  /\ (drone_mission (stored w) <> None ->
      drone_mission (stored (snd (process_all rt base_folder base w))) <> None).
Proof.
  intros Hb.
  destruct (run_summary rt base_folder base w Hb)
    as (o & w' & E & R & M & G & _ & _ & K & _).
  rewrite E. cbn [snd]. split; [|auto].
  rewrite R. apply insert_all_prefix.
Qed.

Lemma run_only_appends_committed_rows_witness :
  drone_mission (stored (snd (process_all sample_runtime (lit "/data") sample_base
                                world_with_old_row)))
  <> None.
Proof.
  apply (run_only_appends_committed_rows sample_runtime (lit "/data") sample_base
           world_with_old_row (proj2 sample_below)).
  simpl. discriminate.
Defined.

(** X6: if the ids of the committed rows are pairwise distinct values
    of the 32-bit sequence drawn before its next value, they still are
    after a run of [process_all], however it ends; every row that the
    run adds takes its id from the sequence, at or after the value the
    run started from and before the value it leaves. *)
Theorem run_keeps_serial_key
    (rt : runtime) (base_folder : str) (base : node) (w : world) :
  (1 <= next_id w)%Z ->
  key_ok (table_rows (stored w)) (start_id (stored w) (next_id w)) ->
  key_ok (table_rows (stored (snd (process_all rt base_folder base w))))
         (start_id (stored (snd (process_all rt base_folder base w)))
                   (next_id (snd (process_all rt base_folder base w))))
  /\ forall r,
       In r (table_rows (stored (snd (process_all rt base_folder base w)))) ->
       In r (table_rows (stored w))
       \/ (start_id (stored w) (next_id w) <= id r
           < start_id (stored (snd (process_all rt base_folder base w)))
                      (next_id (snd (process_all rt base_folder base w))))%Z.
Proof.
  intros H1 Hk.
  assert (Hb : below (table_rows (stored w)) (start_id (stored w) (next_id w))).
  { intros r Hr. now destruct (proj2 Hk r Hr). }
  destruct (run_summary rt base_folder base w Hb)
    as (o & w' & E & R & M & G & S & _).
  rewrite E. cbn [snd].
  destruct (run_commits_whole rt base_folder base (stored w) (next_id w))
    as (_ & Hfit).
  assert (Hs : (1 <= start_id (stored w) (next_id w))%Z).
  { unfold start_id. destruct (drone_mission (stored w)); lia. }
  rewrite R. split.
  - apply (key_ok_le _ (start_id (stored w) (next_id w)
                        + Z.of_nat (List.length
                                      (map to_values
                                         (run_commits rt base_folder base (stored w)
                                            (next_id w)))))%Z).
    + rewrite length_map. exact S.
    + apply insert_all_key; [exact Hs| |exact Hk]. now rewrite length_map.
  - intros r Hr. apply insert_all_origin in Hr.
    destruct Hr as [Hr|(v & j & _ & -> & Hj)]; [now left|right].
    rewrite length_map in Hj. cbn [row_with_id id]. lia.
Qed.

Lemma run_keeps_serial_key_witness :
  key_ok (table_rows (stored (snd (process_all sample_runtime (lit "/data")
                                     sample_base world_with_old_row))))
         (start_id (stored (snd (process_all sample_runtime (lit "/data")
                                   sample_base world_with_old_row)))
                   (next_id (snd (process_all sample_runtime (lit "/data")
                                    sample_base world_with_old_row)))).
Proof.
  apply (run_keeps_serial_key sample_runtime (lit "/data") sample_base
           world_with_old_row).
  - simpl. lia.
  - split.
    + simpl. constructor; [intros []|constructor].
    + intros r [<-|[]]. vm_compute. repeat split; discriminate.
Defined.

(** X8: when the ids of the table were drawn from its sequence, every
    committed row that a run of [process_all] adds to
    [drone_mission] stands for a record collected in a mission folder
    of the base folder whose name is in [missoes]: its path, file name,
    media type and altitude are those of the record, its point is
    [POINT(longitude latitude)] of the record with SRID 4326, and its
    mission id is the id of that name. *)
Theorem new_rows_stand_for_records
    (rt : runtime) (base_folder : str) (base : node) (w : world) (r : row) :
  below (table_rows (stored w)) (start_id (stored w) (next_id w)) ->
  In r (table_rows (stored (snd (process_all rt base_folder base w)))) ->
  In r (table_rows (stored w))
  \/ exists name child i ms data m,
       In (name, child) (listing base)
       /\ is_mission_folder (name, child) = true
       /\ missoes (stored w) = Some ms
       /\ find_mission ms name = Some i
       /\ collect_result rt i (Py.join base_folder name) child = Ok data
       /\ In m data
       /\ full_path r = m_full_path m
       /\ file_name r = m_file m
       /\ media_type r = m_media_type m
       /\ altitude r = m_alt m
       /\ geom r = {| srid := 4326; point_x := m_lon m; point_y := m_lat m |}
       /\ mission_id r = i.
Proof.
  intros Hb.
  destruct (run_summary rt base_folder base w Hb) as (o & w' & E & R & _).
  rewrite E. cbn [snd]. rewrite R. intros Hr.
  apply insert_all_origin in Hr.
  destruct Hr as [Hr|(v & j & Hv & -> & _)]; [now left|right].
  apply in_map_iff in Hv. destruct Hv as (m & <- & Hm).
  destruct (run_commits_whole rt base_folder base (stored w) (next_id w))
    as ((missions & Ec & Hf) & _).
  rewrite Ec in Hm. apply in_concat in Hm. destruct Hm as (data & Hd & Hm).
  rewrite Forall_forall in Hf.
  destruct (Hf data Hd) as (name & child & i & ms & Hin & He & Hms & Hfi & Hc).
  exists name, child, i, ms, data, m.
  pose proof (collect_mission_id rt i _ _ data Hc) as Hid.
  rewrite Forall_forall in Hid.
  cbn [row_with_id to_values full_path file_name media_type altitude geom mission_id
         v_full_path v_file_name v_media_type v_altitude v_geom v_mission_id].
  repeat split; auto.
Qed.

Lemma new_rows_stand_for_records_witness :
  In (row_with_id 1 (to_values sample_record)) (table_rows (stored sample_world))
  \/ exists name child i ms data m,
       In (name, child) (listing sample_base)
       /\ is_mission_folder (name, child) = true
       /\ missoes (stored sample_world) = Some ms
       /\ find_mission ms name = Some i
       /\ collect_result sample_runtime i (Py.join (lit "/data") name) child = Ok data
       /\ In m data
       /\ full_path (row_with_id 1 (to_values sample_record)) = m_full_path m
       /\ file_name (row_with_id 1 (to_values sample_record)) = m_file m
       /\ media_type (row_with_id 1 (to_values sample_record)) = m_media_type m
       /\ altitude (row_with_id 1 (to_values sample_record)) = m_alt m
       /\ geom (row_with_id 1 (to_values sample_record))
          = {| srid := 4326; point_x := m_lon m; point_y := m_lat m |}
       /\ mission_id (row_with_id 1 (to_values sample_record)) = i.
Proof.
  apply (new_rows_stand_for_records sample_runtime (lit "/data") sample_base
           sample_world (row_with_id 1 (to_values sample_record))
           (proj1 sample_below)).
  vm_compute. left. reflexivity.
Defined.

(** X14: a mission's records are committed together or not at all:
    when the ids of the table were drawn from its sequence, however a
    run of [process_all] ends, the committed table is the
    table before the run with the records of whole missions inserted,
    each the full result of the walk over a mission folder whose name
    is in [missoes] (a mission whose statement, or one of whose pages,
    fails leaves nothing); and when the run ends normally, nothing that
    the connection has written is left uncommitted. *)
Theorem missions_are_committed_whole
    (rt : runtime) (base_folder : str) (base : node) (w : world) :
  below (table_rows (stored w)) (start_id (stored w) (next_id w)) ->
  (exists missions,
      table_rows (stored (snd (process_all rt base_folder base w)))
      = insert_all (table_rows (stored w)) (start_id (stored w) (next_id w))
          (map to_values (List.concat missions))
      /\ Forall (mission_records rt base_folder (missoes (stored w)) (listing base))
                missions)
  /\ (fst (process_all rt base_folder base w) = Ok tt ->
      session (snd (process_all rt base_folder base w))
      = stored (snd (process_all rt base_folder base w))).
Proof.
  intros Hb.
  destruct (run_summary rt base_folder base w Hb)
    as (o & w' & E & R & _ & _ & _ & _ & _ & Hs).
  rewrite E. cbn [fst snd]. split; [|exact Hs].
  destruct (run_commits_whole rt base_folder base (stored w) (next_id w))
    as ((missions & Ec & Hf) & _).
  exists missions. rewrite R, Ec. auto.
Qed.

Lemma missions_are_committed_whole_witness :
  session (snd (process_all sample_runtime (lit "/data") sample_base sample_world))
  = stored (snd (process_all sample_runtime (lit "/data") sample_base sample_world)).
Proof.
  apply (missions_are_committed_whole sample_runtime (lit "/data") sample_base
           sample_world (proj1 sample_below)).
  vm_compute. reflexivity.
Defined.

(** A page that fails leaves the pages before it uncommitted: with 150
    records and 120 ids left, the first statement goes through, the
    second raises, and the committed table is as before. *)
Example failing_page_commits_nothing :
  let records :=
    map (fun k => mkMedia (lit "/data/Mission1/" ++ [k]) [k] (lit "photo")
                          0 0 None 7)
        (map N.of_nat (seq 1000 150)) in
  let w := {| stored := database_with_table [];
              session := database_with_table [];
              next_id := max_id - 119; log := [] |} in
  let result := (execute_values sample_runtime (map to_values records) ;; commit) w in
  fst result = Raise (DataError (lit "nextval: reached maximum value of sequence"))
  /\ table_rows (stored (snd result)) = []
  /\ List.length (table_rows (session (snd result))) = 100%nat.
Proof. vm_compute. repeat split. Qed.
